(** * Forage for Figma: the correlation bridge and the query engine

    A shallow embedding of

    - [PluginBridge] (the MCP server's WebSocket bridge: [handleConnection],
      [send], [close]),
    - the plugin's query engine ([simplifyNode], [simplifyPaint],
      [simplifyEffect], [rgbToHex], [findNodeById], [handleGetChildren],
      [handleCompareVariants], [computeSimilarity], [handleFindSimilar],
      [handleInferStates]),
    - the plugin's dispatcher and its other handlers ([figma.ui.onmessage],
      [dispatch], [findPageById], [handleGetFrames], [handleGetVariants],
      [handleSearchNodes], [handleGetNodeDetail], [handleGetDesignTokens],
      [formatTailwind], [formatCss], [handleGetVariables],
      [handleFindReusable], [handleLintNaming], [handleGetAnnotations],
      [handleAnnotateState]), and
    - the tool layer of the MCP server ([callPlugin], [textResult],
      [errorResult], [safeCall] and the table of the registered tools),

    followed by the properties of the design document that were checked
    against them, and by further properties of the code.

    Conventions.  A JavaScript [number] is an IEEE 754 binary64 value and is
    modelled by Rocq's primitive [float]; array lengths and the bridge's
    request counter are naturals.  A JavaScript [string] is modelled by
    the bytes of its UTF-8 text.  A plain object is an association list
    in the order of its keys.  The built-ins whose result is fixed by the
    language but not by this repository ([Number.prototype.toString],
    [JSON.parse], [String.prototype.toLowerCase]) are fields of the class
    [Runtime]; every theorem holds for every runtime. *)

From Stdlib Require Import ZArith Floats Uint63 Ascii String List.
From stdpp Require Import gmap strings pretty list.

Set Warnings "-inexact-float,-register-all".
Local Open Scope string_scope.

(** ** JavaScript values and built-ins *)

Module JS.

(** Values that cross the plugin boundary: what [JSON.parse] can return,
    plus [undefined]. *)
Inductive value : Type :=
  | VUndefined
  | VNull
  | VBool (b : bool)
  | VNum (x : float)
  | VStr (s : string)
  | VArr (xs : list value)
  | VObj (fields : list (string * value)).

(** A plain object ([Record<string, unknown>]): keys in insertion order. *)
Abbreviation obj := (list (string * value)).

(** The built-ins this development does not fix.  [Number_toString radix x]
    is [x.toString(radix)]; [JSON_parse s] is [None] when [JSON.parse(s)]
    throws; [String_toLowerCase s] is [s.toLowerCase()], the lower case
    of every cased letter of Unicode. *)
Class Runtime := {
  Number_toString : Z -> float -> string;
  JSON_parse : string -> option value;
  String_toLowerCase : string -> string
}.

(** *** Numbers *)

(** The double nearest to an integer (exact below 2^53). *)
Definition Z2float (z : Z) : float :=
  if (z <? 0)%Z then PrimFloat.opp (PrimFloat.of_uint63 (Uint63.of_Z (- z)))
  else PrimFloat.of_uint63 (Uint63.of_Z z).

Definition nat2float (n : nat) : float := Z2float (Z.of_nat n).

(** [Math.round]: the nearest integer, ties towards +infinity; NaN, the
    infinities, the zeros and every double that is already an integer are
    returned unchanged; a result that rounds to zero from below is -0. *)
Definition Math_round (x : float) : float :=
  match Prim2SF x with
  | S754_finite sgn m e =>
      if (0 <=? e)%Z then x
      else
        let k := (- e)%Z in
        let num := (if sgn then Z.neg m else Z.pos m) in
        let q := ((2 * num + 2 ^ k) / 2 ^ (k + 1))%Z in
        if (q =? 0)%Z then (if sgn then (-0)%float else 0%float) else Z2float q
  | _ => x
  end.

(** [x === y] on numbers. *)
Definition num_eq (x y : float) : bool := PrimFloat.eqb x y.

(** *** Strings *)

Definition quote_char : ascii := ascii_of_nat 34.
Definition backslash_char : ascii := ascii_of_nat 92.

Definition lower_ascii (c : ascii) : ascii :=
  let n := nat_of_ascii c in
  if (65 <=? n)%nat && (n <=? 90)%nat then ascii_of_nat (n + 32) else c.

(** The letters [A] to [Z] of [s] in lower case, the other bytes
    unchanged: the case folding that the flag [i] of a regular expression
    without the flag [u] applies to its ASCII letters, and what
    [s.toLowerCase()] is for a text of ASCII. *)
Fixpoint toLowerCase (s : string) : string :=
  match s with
  | EmptyString => EmptyString
  | String c s' => String (lower_ascii c) (toLowerCase s')
  end.

(** The number of bytes of the white-space character or line terminator
    at the head of [s], a UTF-8 text; 0 when there is none.  These are
    the characters [trim] removes and [\s] matches: U+0009 to U+000D,
    U+0020, U+00A0, U+1680, U+2000 to U+200A, U+2028, U+2029, U+202F,
    U+205F, U+3000 and U+FEFF. *)
Definition white_space (s : string) : nat :=
  match s with
  | String c1 s1 =>
      let n1 := nat_of_ascii c1 in
      if (n1 =? 32)%nat || ((9 <=? n1)%nat && (n1 <=? 13)%nat) then 1
      else
        match s1 with
        | String c2 s2 =>
            let n2 := nat_of_ascii c2 in
            if (n1 =? 194)%nat && (n2 =? 160)%nat then 2
            else
              match s2 with
              | String c3 _ =>
                  let n3 := nat_of_ascii c3 in
                  if ((n1 =? 225)%nat && (n2 =? 154)%nat && (n3 =? 128)%nat)
                     || ((n1 =? 226)%nat && (n2 =? 128)%nat
                         && (((128 <=? n3)%nat && (n3 <=? 138)%nat)
                             || (n3 =? 168)%nat || (n3 =? 169)%nat
                             || (n3 =? 175)%nat))
                     || ((n1 =? 226)%nat && (n2 =? 129)%nat && (n3 =? 159)%nat)
                     || ((n1 =? 227)%nat && (n2 =? 128)%nat && (n3 =? 128)%nat)
                     || ((n1 =? 239)%nat && (n2 =? 187)%nat && (n3 =? 191)%nat)
                  then 3 else 0
              | EmptyString => 0
              end
        | EmptyString => 0
        end
  | EmptyString => 0
  end.

(** [s.trimStart()]: [skip] counts the bytes of a white-space character
    still to be dropped. *)
Fixpoint trimStart_from (skip : nat) (s : string) : string :=
  match s with
  | EmptyString => EmptyString
  | String _ s' =>
      match skip with
      | S k => trimStart_from k s'
      | O =>
          match white_space s with
          | S k => trimStart_from k s'
          | O => s
          end
      end
  end.

Definition trimStart (s : string) : string := trimStart_from 0 s.

(** Whether [s] is white space to its end. *)
Fixpoint blank_from (skip : nat) (s : string) : bool :=
  match s with
  | EmptyString => true
  | String _ s' =>
      match skip with
      | S k => blank_from k s'
      | O =>
          match white_space s with
          | S k => blank_from k s'
          | O => false
          end
      end
  end.

(** [s.trimEnd()]. *)
Fixpoint trimEnd (s : string) : string :=
  match s with
  | EmptyString => EmptyString
  | String c s' => if blank_from 0 s then EmptyString else String c (trimEnd s')
  end.

(** [s.trim()]. *)
Definition trim (s : string) : string := trimEnd (trimStart s).

(** [s.split(sep)] for a non-empty separator: [skip] counts the characters
    of a matched separator still to be dropped, [cur] is the piece being
    read. *)
Fixpoint split_from (sep : string) (skip : nat) (cur : string) (s : string)
  : list string :=
  match s with
  | EmptyString => [cur]
  | String c s' =>
      match skip with
      | S k => split_from sep k cur s'
      | O =>
          if String.prefix sep s
          then cur :: split_from sep (String.length sep - 1) "" s'
          else split_from sep 0 (cur ++ String c "") s'
      end
  end.

Definition split (sep s : string) : list string := split_from sep 0 "" s.

Fixpoint repeat_string (n : nat) (pad : string) : string :=
  match n with
  | O => ""
  | S k => pad ++ repeat_string k pad
  end.

(** [s.padStart(n, pad)] for a one-character [pad]. *)
Definition padStart (n : nat) (pad : string) (s : string) : string :=
  repeat_string (n - String.length s) pad ++ s.

(** *** Maps, objects, arrays and sets *)

(** A [Map<string, V>], as the sequence of entries its iterator yields:
    insertion order, every key once. *)
Section Maps.
Context {V : Type}.

(** [m.get(key)]. *)
Fixpoint Map_get (m : list (string * V)) (key : string) : option V :=
  match m with
  | [] => None
  | (k, v) :: m' => if String.eqb k key then Some v else Map_get m' key
  end.

(** [m.set(key, v)]: an existing key keeps its place. *)
Fixpoint Map_set (m : list (string * V)) (key : string) (v : V)
  : list (string * V) :=
  match m with
  | [] => [(key, v)]
  | (k, w) :: m' =>
      if String.eqb k key then (k, v) :: m' else (k, w) :: Map_set m' key v
  end.

(** [m.delete(key)]. *)
Definition Map_delete (m : list (string * V)) (key : string)
  : list (string * V) :=
  List.filter (fun kv => negb (String.eqb kv.1 key)) m.

End Maps.


(** [key in o]. *)
Definition obj_has (o : obj) (key : string) : bool :=
  bool_decide (key ∈ o.*1).

(** [o[key]], [undefined] when the key is absent. *)
Definition obj_get (o : obj) (key : string) : value :=
  default VUndefined (Map_get o key).

(** [o[key] = v]: an existing key keeps its place, a new one goes last,
    as in a map. *)
Definition obj_set (o : obj) (key : string) (v : value) : obj :=
  Map_set o key v.

(** [Object.keys(o)]. *)
Definition Object_keys (o : obj) : list string := o.*1.

(** *** The order of an object's own keys

    An ordinary object lists the keys that are array indices first, in
    ascending order, and the others after them, in the order in which
    they were created. *)

Fixpoint decimal_from (s : string) (acc : N) : option N :=
  match s with
  | EmptyString => Some acc
  | String c s' =>
      let n := nat_of_ascii c in
      if (48 <=? n)%nat && (n <=? 57)%nat
      then decimal_from s' (10 * acc + N.of_nat (n - 48))%N
      else None
  end.

(** The array index a key is: the canonical decimal text of an integer
    below 2^32 - 1. *)
Definition array_index (key : string) : option N :=
  match key with
  | EmptyString => None
  | _ =>
      match decimal_from key 0 with
      | Some n =>
          if String.eqb (pretty n) key && (n <? 2 ^ 32 - 1)%N then Some n
          else None
      | None => None
      end
  end.

Fixpoint insert_index (n : N) (key : string) (v : value) (o : obj) : obj :=
  match o with
  | [] => [(key, v)]
  | (k, w) :: o' =>
      match array_index k with
      | Some m =>
          if (m <? n)%N then (k, w) :: insert_index n key v o'
          else (key, v) :: o
      | None => (key, v) :: o
      end
  end.

(** [o[key] = v] for any key. *)
Definition obj_put (o : obj) (key : string) (v : value) : obj :=
  if obj_has o key then obj_set o key v
  else match array_index key with
       | Some n => insert_index n key v o
       | None => obj_set o key v
       end.


(** [new Set(keys)], as the sequence its iterator yields: every key once,
    in the order of its first occurrence. *)
Definition new_Set (keys : list string) : list string :=
  foldl (fun seen k => if bool_decide (k ∈ seen) then seen else (seen ++ [k])%list)
        [] keys.

(** [arr.includes(s)] on an array of strings. *)
Definition includes (arr : list string) (s : string) : bool :=
  bool_decide (s ∈ arr).

(** Property read [v.key] on a value that is neither [null] nor
    [undefined]; the keys read in this development ([id], [error],
    [result], [code], [message], [states], [transitions]) are no own
    property of a string, a number, a boolean or an array. *)
Definition prop (v : value) (key : string) : value :=
  match v with
  | VObj o => obj_get o key
  | _ => VUndefined
  end.

(** Truthiness ([if (v)]). *)
Definition truthy (v : value) : bool :=
  match v with
  | VUndefined | VNull => false
  | VBool b => b
  | VNum x => negb (PrimFloat.eqb x 0 || PrimFloat.is_nan x)
  | VStr s => negb (String.eqb s "")
  | VArr _ | VObj _ => true
  end.

(** Whether [String(v)], or a template literal, can convert [v].  The
    objects of this development hold data only, so that an own property
    [toString] is not callable and hides [Object.prototype.toString]; the
    conversion then falls back on [valueOf], which is not callable either
    or returns the object itself, and throws a [TypeError].  An array is
    converted by joining the conversions of its elements. *)
Fixpoint convertible (v : value) : bool :=
  match v with
  | VObj fields => negb (obj_has fields "toString")
  | VArr xs => forallb convertible xs
  | _ => true
  end.

Section WithRuntime.
Context {R : Runtime}.

(** [String(v)] and the conversion a template literal applies, for a
    [v] that is [convertible]; for another [v] the conversion throws and
    the text below is not produced. *)
Fixpoint ToString (v : value) : string :=
  match v with
  | VUndefined => "undefined"
  | VNull => "null"
  | VBool b => if b then "true" else "false"
  | VNum x => Number_toString 10 x
  | VStr s => s
  | VArr xs =>
      String.concat ","
        (map (fun x => match x with
                       | VUndefined | VNull => ""
                       | _ => ToString x
                       end) xs)
  | VObj _ => "[object Object]"
  end.

Definition hex_digit (n : nat) : ascii :=
  if (n <? 10)%nat then ascii_of_nat (48 + n) else ascii_of_nat (87 + n).

Definition escape_char (c : ascii) : string :=
  let n := nat_of_ascii c in
  if Ascii.eqb c quote_char then String backslash_char (String quote_char "")
  else if Ascii.eqb c backslash_char
       then String backslash_char (String backslash_char "")
  else if (n =? 8)%nat then String backslash_char "b"
  else if (n =? 9)%nat then String backslash_char "t"
  else if (n =? 10)%nat then String backslash_char "n"
  else if (n =? 12)%nat then String backslash_char "f"
  else if (n =? 13)%nat then String backslash_char "r"
  else if (n <? 32)%nat
       then String backslash_char
              ("u00" ++ String (hex_digit (n / 16)) (String (hex_digit (n mod 16)) ""))
  else String c "".

Fixpoint escape (s : string) : string :=
  match s with
  | EmptyString => EmptyString
  | String c s' => escape_char c ++ escape s'
  end.

(** The JSON text of a string. *)
Definition JSON_quote (s : string) : string :=
  String quote_char (escape s ++ String quote_char "").

(** [JSON.stringify(v)]; [None] is the result [undefined].  A number that
    is not finite is written [null]; an array element that is [undefined]
    is written [null]; an object member that is [undefined] is left
    out. *)
Fixpoint JSON_stringify (v : value) : option string :=
  match v with
  | VUndefined => None
  | VNull => Some "null"
  | VBool b => Some (if b then "true" else "false")
  | VNum x => Some (if PrimFloat.is_finite x then Number_toString 10 x else "null")
  | VStr s => Some (JSON_quote s)
  | VArr xs =>
      Some ("[" ++ String.concat ","
                     (map (fun x => default "null" (JSON_stringify x)) xs)
                ++ "]")
  | VObj fields =>
      Some ("{" ++ String.concat ","
                     (omap (fun kv => match JSON_stringify kv.2 with
                                      | Some t => Some (JSON_quote kv.1 ++ ":" ++ t)
                                      | None => None
                                      end) fields)
                ++ "}")
  end.

(** [JSON.stringify(a) === JSON.stringify(b)]. *)
Definition same_json (a b : value) : bool :=
  bool_decide (JSON_stringify a = JSON_stringify b).

End WithRuntime.

End JS.

(** ** A reference runtime

    One concrete [Runtime], used by the worked examples below:
    [Number.prototype.toString] for the radices 10 (the shortest decimal
    that reads back as the same double) and 16, and a [JSON.parse] of
    JSON texts whose strings hold code points of the basic plane. *)

Module ReferenceRuntime.
Import JS.

(** *** Number to text *)

(** Digits of a non-negative integer in a radix up to 16. *)
Definition digit_char (d : Z) : ascii :=
  if (d <? 10)%Z then ascii_of_nat (48 + Z.to_nat d) else ascii_of_nat (87 + Z.to_nat d).

Fixpoint digits_from (fuel : nat) (radix z : Z) (acc : string) : string :=
  match fuel with
  | O => acc
  | S fuel' =>
      let acc' := String (digit_char (z mod radix)) acc in
      if (z / radix =? 0)%Z then acc' else digits_from fuel' radix (z / radix) acc'
  end.

Definition digits (radix z : Z) : string :=
  digits_from (S (Z.to_nat (Z.log2 z))) radix z "".

(** The reals that round to [m * 2^e] form an interval around it; all of
    them scaled by [den]: value [v], lower and upper end [lo], [hi]. *)
Definition interval (m : positive) (e : Z) : Z * Z * Z * Z :=
  let boundary := (Z.pos m =? 2 ^ 52)%Z && (-1074 <? e)%Z in
  if (0 <=? e)%Z then
    let v := (4 * Z.pos m * Z.shiftl 1 e)%Z in
    (v, v - (if boundary then Z.shiftl 1 e else 2 * Z.shiftl 1 e), v + 2 * Z.shiftl 1 e, 4)%Z
  else
    let v := (4 * Z.pos m)%Z in
    (v, v - (if boundary then 1 else 2), v + 2, 4 * Z.shiftl 1 (- e))%Z.

(** [s * 10^p] against [x / den]. *)
Definition cmp10 (s p x den : Z) : comparison :=
  if (0 <=? p)%Z then (s * 10 ^ p * den ?= x)%Z
  else (s * den ?= x * 10 ^ (- p))%Z.

Definition inside (even : bool) (s p lo hi den : Z) : bool :=
  (0 <? s)%Z &&
  match cmp10 s p lo den with
  | Gt => true | Eq => even | Lt => false
  end &&
  match cmp10 s p hi den with
  | Lt => true | Eq => even | Gt => false
  end.

(** Twice the distance of [s * 10^p] from [v / den], scaled. *)
Definition distance (s p v den : Z) : Z :=
  if (0 <=? p)%Z then Z.abs (s * 10 ^ p * den - v)
  else Z.abs (s * den - v * 10 ^ (- p)).

(** The shortest decimal [s * 10^p] that reads back as the double. *)
Fixpoint shortest (fuel : nat) (p : Z) (m : positive) (e : Z) : Z * Z :=
  let '(v, lo, hi, den) := interval m e in
  let even := Z.even (Z.pos m) in
  let s := (if (0 <=? p)%Z then v / (den * 10 ^ p) else v * 10 ^ (- p) / den)%Z in
  let a := inside even s p lo hi den in
  let b := inside even (s + 1) p lo hi den in
  match fuel with
  | O => (s, p)
  | S fuel' =>
      if a && b then
        match (distance s p v den ?= distance (s + 1) p v den)%Z with
        | Lt => (s, p)
        | Gt => (s + 1, p)%Z
        | Eq => if Z.even s then (s, p) else (s + 1, p)%Z
        end
      else if a then (s, p)
      else if b then (s + 1, p)%Z
      else shortest fuel' (p - 1) m e
  end.

Definition zeros (n : Z) : string :=
  fold_right (fun _ acc => String "0" acc) "" (seq 0 (Z.to_nat n)).

Definition substring_from (n : nat) (s : string) : string :=
  String.substring n (String.length s - n) s.

(** The decimal text of a positive finite double, as [Number::toString]
    lays it out. *)
Definition format_decimal (s p : Z) : string :=
  let ds := digits 10 s in
  let k := Z.of_nat (String.length ds) in
  let n := (p + k)%Z in
  if (k <=? n)%Z && (n <=? 21)%Z then ds ++ zeros (n - k)
  else if (0 <? n)%Z && (n <=? 21)%Z
       then String.substring 0 (Z.to_nat n) ds ++ "." ++ substring_from (Z.to_nat n) ds
  else if (-6 <? n)%Z && (n <=? 0)%Z then "0." ++ zeros (- n) ++ ds
  else
    let ex := (n - 1)%Z in
    let tail := (if (ex <? 0)%Z then "e-" else "e+") ++ digits 10 (Z.abs ex) in
    if (k =? 1)%Z then ds ++ tail
    else String.substring 0 1 ds ++ "." ++ substring_from 1 ds ++ tail.

(** Hexadecimal text of a positive finite double (exact). *)
Fixpoint hex_fraction (fuel : nat) (num den : Z) : string :=
  match fuel with
  | O => ""
  | S fuel' =>
      if (num =? 0)%Z then ""
      else String (digit_char (16 * num / den)) (hex_fraction fuel' ((16 * num) mod den) den)
  end.

Definition format_hex (m : positive) (e : Z) : string :=
  if (0 <=? e)%Z then digits 16 (Z.pos m * Z.shiftl 1 e)
  else
    let den := (Z.shiftl 1 (- e))%Z in
    let whole := (Z.pos m / den)%Z in
    let part := (Z.pos m mod den)%Z in
    if (part =? 0)%Z then digits 16 whole
    else digits 16 whole ++ "." ++ hex_fraction 300 part den.

Definition toString (radix : Z) (x : float) : string :=
  match Prim2SF x with
  | S754_nan => "NaN"
  | S754_zero _ => "0"
  | S754_infinity sgn => if sgn then "-Infinity" else "Infinity"
  | S754_finite sgn m e =>
      (if sgn then "-" else "") ++
      (if (radix =? 16)%Z then format_hex m e
       else let '(s, p) := shortest 40 ((Z.log2 (Z.pos m) + e + 1) * 30103 / 100000 + 2) m e in format_decimal s p)
  end.

(** *** JSON text to value *)

(** The double nearest to [num / den] ([num], [den] positive), ties to
    even. *)
Definition nearest (num den : Z) : float :=
  let scaled e :=
    if (0 <=? e)%Z then (num, den * Z.shiftl 1 e)%Z else (num * Z.shiftl 1 (- e), den)%Z in
  let e0 := (Z.log2 num - Z.log2 den - 53)%Z in
  let e1 := (let '(n, d) := scaled e0 in if (Z.shiftl 1 53 <=? n / d)%Z then e0 + 1 else e0)%Z in
  let e := Z.max e1 (-1074) in
  let '(n, d) := scaled e in
  let q := (n / d)%Z in
  let r := (n mod d)%Z in
  let q' := match (2 * r ?= d)%Z with
            | Gt => (q + 1)%Z
            | Eq => if Z.even q then q else (q + 1)%Z
            | Lt => q
            end in
  Z.ldexp (Z2float q') e.

Definition is_digit (c : ascii) : bool :=
  let n := nat_of_ascii c in (48 <=? n)%nat && (n <=? 57)%nat.

(** The leading decimal digits of [s]: their value continuing [acc], how
    many there are, and the rest. *)
Fixpoint read_digits (s : string) (acc : Z) (count : nat) : Z * nat * string :=
  match s with
  | String c s' =>
      if is_digit c
      then read_digits s' (10 * acc + Z.of_nat (nat_of_ascii c - 48)) (S count)
      else (acc, count, s)
  | EmptyString => (acc, count, s)
  end.

Definition decimal (negative : bool) (mant : Z) (digits : nat) (exp10 : Z) : float :=
  let sign x := if negative then PrimFloat.opp x else x in
  if (mant =? 0)%Z then sign 0%float
  else if (400 <? exp10 + Z.of_nat digits)%Z then sign infinity
  else if (exp10 + Z.of_nat digits <? -400)%Z then sign 0%float
  else sign (if (0 <=? exp10)%Z then nearest (mant * 10 ^ exp10) 1
             else nearest mant (10 ^ (- exp10))).

(** A JSON number at the head of [s]. *)
Definition read_number (s : string) : option (float * string) :=
  let '(negative, s) := match s with
                        | String "-" s' => (true, s')
                        | _ => (false, s)
                        end in
  let '(whole, n, s1) := read_digits s 0 0 in
  let leading_zero := match s with String "0" _ => true | _ => false end in
  if (n =? 0)%nat || (leading_zero && (1 <? n)%nat) then None
  else
    let frac := match s1 with
                | String "." s2 =>
                    let '(m, k, s3) := read_digits s2 whole 0 in
                    if (k =? 0)%nat then None else Some (m, k, s3)
                | _ => Some (whole, O, s1)
                end in
    match frac with
    | None => None
    | Some (mant, k, s3) =>
        let with_exp (s4 : string) (neg : bool) :=
          let '(ex, c, s5) := read_digits s4 0 0 in
          if (c =? 0)%nat then None
          else Some (decimal negative mant (n + k)
                       ((if neg then - ex else ex) - Z.of_nat k), s5) in
        match s3 with
        | String c s4 =>
            if Ascii.eqb c "e" || Ascii.eqb c "E" then
              match s4 with
              | String "+" s5 => with_exp s5 false
              | String "-" s5 => with_exp s5 true
              | _ => with_exp s4 false
              end
            else Some (decimal negative mant (n + k) (- Z.of_nat k), s3)
        | EmptyString => Some (decimal negative mant (n + k) (- Z.of_nat k), s3)
        end
    end.

Definition hex_value (c : ascii) : option nat :=
  let n := nat_of_ascii c in
  if (48 <=? n)%nat && (n <=? 57)%nat then Some (n - 48)
  else if (97 <=? n)%nat && (n <=? 102)%nat then Some (n - 87)
  else if (65 <=? n)%nat && (n <=? 70)%nat then Some (n - 55)
  else None.

(** The UTF-8 bytes of a code point of the basic plane. *)
Definition utf8 (cp : nat) : string :=
  if (cp <? 128)%nat then String (ascii_of_nat cp) ""
  else if (cp <? 2048)%nat
       then String (ascii_of_nat (192 + cp / 64)) (String (ascii_of_nat (128 + cp mod 64)) "")
  else String (ascii_of_nat (224 + cp / 4096))
         (String (ascii_of_nat (128 + (cp / 64) mod 64))
            (String (ascii_of_nat (128 + cp mod 64)) "")).

(** The rest of a JSON string after its opening quote. *)
Fixpoint read_string (s : string) (acc : string) : option (string * string) :=
  match s with
  | EmptyString => None
  | String c s' =>
      if Ascii.eqb c quote_char then Some (acc, s')
      else if Ascii.eqb c backslash_char then
        match s' with
        | String "u" (String h1 (String h2 (String h3 (String h4 s'')))) =>
            match hex_value h1, hex_value h2, hex_value h3, hex_value h4 with
            | Some a, Some b, Some c, Some d =>
                read_string s'' (acc ++ utf8 (((a * 16 + b) * 16 + c) * 16 + d))
            | _, _, _, _ => None
            end
        | String e s'' =>
            let plain x := read_string s'' (acc ++ String x "") in
            if Ascii.eqb e quote_char then plain quote_char
            else if Ascii.eqb e backslash_char then plain backslash_char
            else if Ascii.eqb e "/" then plain "/"%char
            else if Ascii.eqb e "b" then plain (ascii_of_nat 8)
            else if Ascii.eqb e "f" then plain (ascii_of_nat 12)
            else if Ascii.eqb e "n" then plain (ascii_of_nat 10)
            else if Ascii.eqb e "r" then plain (ascii_of_nat 13)
            else if Ascii.eqb e "t" then plain (ascii_of_nat 9)
            else None
        | EmptyString => None
        end
      else if (nat_of_ascii c <? 32)%nat then None
      else read_string s' (acc ++ String c "")
  end.

Definition is_ws (c : ascii) : bool :=
  let n := nat_of_ascii c in
  (n =? 32)%nat || (n =? 9)%nat || (n =? 10)%nat || (n =? 13)%nat.

Fixpoint skip_ws (s : string) : string :=
  match s with
  | String c s' => if is_ws c then skip_ws s' else s
  | EmptyString => s
  end.

Definition literal (word : string) (v : value) (s : string) : option (value * string) :=
  if String.prefix word s
  then Some (v, String.substring (String.length word) (String.length s - String.length word) s)
  else None.

(** A JSON value at the head of [s] (after white space), with what
    follows it. *)
Fixpoint read_value (fuel : nat) (s : string) : option (value * string) :=
  match fuel with
  | O => None
  | S fuel' =>
      match skip_ws s with
      | String "{" s1 =>
          match skip_ws s1 with
          | String "}" s2 => Some (VObj [], s2)
          | s2 => read_members fuel' [] s2
          end
      | String "[" s1 =>
          match skip_ws s1 with
          | String "]" s2 => Some (VArr [], s2)
          | s2 => read_elements fuel' [] s2
          end
      | String c s1 as s0 =>
          if Ascii.eqb c quote_char then
            match read_string s1 "" with
            | Some (t, s2) => Some (VStr t, s2)
            | None => None
            end
          else if Ascii.eqb c "t" then literal "true" (VBool true) s0
          else if Ascii.eqb c "f" then literal "false" (VBool false) s0
          else if Ascii.eqb c "n" then literal "null" VNull s0
          else match read_number s0 with
               | Some (x, s2) => Some (VNum x, s2)
               | None => None
               end
      | EmptyString => None
      end
  end
with read_elements (fuel : nat) (acc : list value) (s : string)
  : option (value * string) :=
  match fuel with
  | O => None
  | S fuel' =>
      match read_value fuel' s with
      | Some (v, s1) =>
          match skip_ws s1 with
          | String "," s2 => read_elements fuel' (acc ++ [v])%list s2
          | String "]" s2 => Some (VArr (acc ++ [v])%list, s2)
          | _ => None
          end
      | None => None
      end
  end
with read_members (fuel : nat) (acc : obj) (s : string)
  : option (value * string) :=
  match fuel with
  | O => None
  | S fuel' =>
      match skip_ws s with
      | String c s1 =>
          if Ascii.eqb c quote_char then
            match read_string s1 "" with
            | Some (k, s2) =>
                match skip_ws s2 with
                | String ":" s3 =>
                    match read_value fuel' s3 with
                    | Some (v, s4) =>
                        match skip_ws s4 with
                        | String "," s5 => read_members fuel' (obj_put acc k v) s5
                        | String "}" s5 => Some (VObj (obj_put acc k v), s5)
                        | _ => None
                        end
                    | None => None
                    end
                | _ => None
                end
            | None => None
            end
          else None
      | EmptyString => None
      end
  end.

Definition parse (s : string) : option value :=
  match read_value (2 * String.length s + 2) s with
  | Some (v, rest) =>
      match skip_ws rest with
      | EmptyString => Some v
      | _ => None
      end
  | None => None
  end.

(** The texts of the worked examples are ASCII. *)
Definition runtime : Runtime :=
  {| Number_toString := toString; JSON_parse := parse;
     String_toLowerCase := toLowerCase |}.

End ReferenceRuntime.

(** ** The host document: Figma's scene nodes *)

Module Figma.
Import JS.

(** A property that is either one resolved value or [figma.mixed]. *)
Inductive mixed (A : Type) : Type :=
  | Mixed
  | Single (a : A).
Arguments Mixed {A}.
Arguments Single {A} a.

(** [RGB | RGBA]: [alpha] is [None] when the colour has no [a]. *)
Record RGBA := {
  red : float;
  green : float;
  blue : float;
  alpha : option float
}.

Record ColorStop := {
  stop_color : RGBA;
  stop_position : float
}.

(** [Paint]: [paint_color] and [paint_opacity] are read for a [SOLID]
    paint only, [gradientStops] for a gradient only. *)
Record Paint := {
  paint_type : string;
  paint_visible : option bool;
  paint_color : RGBA;
  paint_opacity : option float;
  gradientStops : list ColorStop
}.

(** [Effect]: [radius], [shadow] (the [offset] and [color] of a shadow) and
    [spread] are present or not, as [in] tests them. *)
Record Effect := {
  effect_type : string;
  effect_visible : option bool;
  radius : option float;
  shadow : option ((float * float) * RGBA);
  spread : option float
}.

(** The auto-layout properties of a node that has [layoutMode]. *)
Record AutoLayout := {
  layoutMode : string;
  primaryAxisAlignItems : string;
  counterAxisAlignItems : string;
  paddingLeft : float;
  paddingRight : float;
  paddingTop : float;
  paddingBottom : float;
  itemSpacing : float;
  counterAxisSpacing : option float
}.

(** The properties of a node that has [layoutAlign]. *)
Record LayoutChild := {
  layoutAlign : string;
  layoutGrow : float
}.

(** The properties of a node that has [cornerRadius]; the four corner
    radii are [None] on a node that has no per-corner radius. *)
Record Corner := {
  cornerRadius : mixed float;
  topLeftRadius : option float;
  topRightRadius : option float;
  bottomRightRadius : option float;
  bottomLeftRadius : option float
}.

(** The properties read from a [TextNode]. *)
Record TextProps := {
  characters : string;
  fontSize : mixed float;
  fontName : mixed value;
  fontWeight : mixed float;
  lineHeight : mixed value;
  letterSpacing : mixed value;
  textAlignHorizontal : string;
  textAlignVertical : string
}.

(** An [Action] of a prototype reaction; [destinationId] is [None] when
    the action has no such property and [Some None] when it is [null]. *)
Record Action := {
  action_type : string;
  destinationId : option (option string)
}.

(** A [Reaction]; [trigger] holds the trigger's [type]. *)
Record Reaction := {
  trigger : option string;
  actions : option (list Action)
}.

(** A [SceneNode].  An [option] field is a property the node has or has
    not (the [in] tests of the code); [text] is read on a [TEXT] node only
    and [mainComponent] (the main component's id, [None] for [null]) on an
    [INSTANCE] only. *)
Inductive SceneNode : Type := mkSceneNode {
  id : string;
  name : string;
  type : string;
  visible : bool;
  width : option float;
  height : option float;
  children : option (list SceneNode);
  autoLayout : option AutoLayout;
  layoutChild : option LayoutChild;
  mainComponent : option string;
  variantProperties : option (option (list (string * string)));
  componentPropertyDefinitions : option obj;
  fills : option (mixed (list Paint));
  strokes : option (list Paint);
  effects : option (list Effect);
  opacity : option float;
  corner : option Corner;
  text : TextProps;
  reactions : option (list Reaction);
  getSharedPluginData : string -> string -> string
}.

Record PageNode := {
  page_id : string;
  page_name : string;
  page_children : list SceneNode
}.

(** What [figma.getNodeByIdAsync] resolves to. *)
Inductive BaseNode :=
  | IsDocument
  | IsPage (p : PageNode)
  | IsScene (n : SceneNode).

(** The [figma] global, as far as the handlers use it. *)
Record API := {
  getNodeByIdAsync : string -> option BaseNode;
  currentPage : PageNode
}.

(** A node and all its descendants, in document order. *)
Fixpoint subtree (n : SceneNode) : list SceneNode :=
  n :: match children n with
       | Some cs => concat (map subtree cs)
       | None => []
       end.

(** [page.findAll(callback)]. *)
Definition findAll (p : PageNode) (callback : SceneNode -> bool)
  : list SceneNode :=
  filter (fun n => callback n = true) (concat (map subtree (page_children p))).

End Figma.

(** ** The plugin's query engine *)

Module Plugin.
Import JS Figma.

(** The object a handler throws: [{ code, message }]. *)
Record ForageError := {
  code : string;
  message : string
}.

(** The outcome of a handler: its return value, or the object it threw. *)
Inductive Result (A : Type) : Type :=
  | Ok (a : A)
  | Throw (e : ForageError).
Arguments Ok {A} a.
Arguments Throw {A} e.

Definition bind {A B : Type} (r : Result A) (k : A -> Result B) : Result B :=
  match r with
  | Ok a => k a
  | Throw e => Throw e
  end.

Notation "'let!' x ':=' r 'in' k" := (bind r (fun x => k))
  (at level 10, x name, r at level 100, k at level 200).

Section WithRuntime.
Context {R : Runtime}.

(** *** Node simplifier *)

Definition byte_hex (x : float) : string :=
  padStart 2 "0" (Number_toString 16 x).

Definition rgbToHex (color : RGBA) : string :=
  let r := Math_round (red color * 255)%float in
  let g := Math_round (green color * 255)%float in
  let b := Math_round (blue color * 255)%float in
  let hex := "#" ++ byte_hex r ++ byte_hex g ++ byte_hex b in
  match alpha color with
  | Some a =>
      if (a <? 1)%float
      then hex ++ byte_hex (Math_round (a * 255)%float)
      else hex
  | None => hex
  end.

Definition simplifyPaint (paint : Paint) : obj :=
  let p := [("type", VStr (paint_type paint))] in
  let p :=
    if String.eqb (paint_type paint) "SOLID" then
      let p := obj_set p "color" (VStr (rgbToHex (paint_color paint))) in
      match paint_opacity paint with
      | Some o => if negb (num_eq o 1) then obj_set p "opacity" (VNum o) else p
      | None => p
      end
    else p in
  if String.eqb (paint_type paint) "GRADIENT_LINEAR"
     || String.eqb (paint_type paint) "GRADIENT_RADIAL"
  then obj_set p "gradientStops"
         (VArr (map (fun s => VObj [("color", VStr (rgbToHex (stop_color s)));
                                    ("position", VNum (stop_position s))])
                    (gradientStops paint)))
  else p.

Definition simplifyEffect (effect : Effect) : obj :=
  let e := [("type", VStr (effect_type effect))] in
  let e := match radius effect with
           | Some x => obj_set e "radius" (VNum x)
           | None => e
           end in
  let e := match shadow effect with
           | Some (offset, color) =>
               let e := obj_set e "offset"
                          (VObj [("x", VNum offset.1); ("y", VNum offset.2)]) in
               obj_set e "color" (VStr (rgbToHex color))
           | None => e
           end in
  match spread effect with
  | Some x => obj_set e "spread" (VNum x)
  | None => e
  end.

(** [f.visible !== false]. *)
Definition not_hidden (v : option bool) : bool :=
  match v with
  | Some false => false
  | _ => true
  end.

Definition opt_num (x : option float) : value :=
  match x with
  | Some y => VNum y
  | None => VUndefined
  end.

Definition mixed_set {A : Type} (key : string) (m : mixed A) (inj : A -> value)
    (o : obj) : obj :=
  match m with
  | Single x => obj_set o key (inj x)
  | Mixed => o
  end.

(** [simplifyNode] assigns the properties of [simplified] block by block;
    each block is a function from the object so far to the object after
    it, named after the comment that heads it in the source. *)

Definition visibility (node : SceneNode) (simplified : obj) : obj :=
  if negb (visible node) then obj_set simplified "visible" (VBool false)
  else simplified.

(* Size *)
Definition size (node : SceneNode) (simplified : obj) : obj :=
  let simplified :=
    match width node with
    | Some w => obj_set simplified "width" (VNum (Math_round w))
    | None => simplified
    end in
  match height node with
  | Some h => obj_set simplified "height" (VNum (Math_round h))
  | None => simplified
  end.

(* Children count; [simplifyChild c] is [simplifyNode(c)] *)
Definition childrenCount (simplifyChild : SceneNode -> obj) (node : SceneNode)
    (includeChildren : bool) (simplified : obj) : obj :=
  match children node with
  | Some cs =>
      let simplified :=
        obj_set simplified "childCount" (VNum (nat2float (length cs))) in
      if includeChildren
      then obj_set simplified "children"
             (VArr (map (fun c => VObj (simplifyChild c)) cs))
      else simplified
  | None => simplified
  end.

(* Auto-layout *)
Definition autoLayoutProps (node : SceneNode) (simplified : obj) : obj :=
  match autoLayout node with
  | Some frame =>
      if negb (String.eqb (layoutMode frame) "NONE") then
        let simplified := obj_set simplified "layoutMode" (VStr (layoutMode frame)) in
        let simplified := obj_set simplified "primaryAxisAlignItems"
                            (VStr (primaryAxisAlignItems frame)) in
        let simplified := obj_set simplified "counterAxisAlignItems"
                            (VStr (counterAxisAlignItems frame)) in
        let simplified := obj_set simplified "paddingLeft" (VNum (paddingLeft frame)) in
        let simplified := obj_set simplified "paddingRight" (VNum (paddingRight frame)) in
        let simplified := obj_set simplified "paddingTop" (VNum (paddingTop frame)) in
        let simplified := obj_set simplified "paddingBottom" (VNum (paddingBottom frame)) in
        let simplified := obj_set simplified "itemSpacing" (VNum (itemSpacing frame)) in
        match counterAxisSpacing frame with
        | Some x => obj_set simplified "counterAxisSpacing" (VNum x)
        | None => simplified
        end
      else simplified
  | None => simplified
  end.

(* Layout child properties *)
Definition layoutChildProps (node : SceneNode) (simplified : obj) : obj :=
  match layoutChild node with
  | Some child =>
      let simplified :=
        if negb (String.eqb (layoutAlign child) "INHERIT")
        then obj_set simplified "layoutAlign" (VStr (layoutAlign child))
        else simplified in
      if negb (num_eq (layoutGrow child) 0)
      then obj_set simplified "layoutGrow" (VNum (layoutGrow child))
      else simplified
  | None => simplified
  end.

(* Component info *)
Definition componentInfo (node : SceneNode) (simplified : obj) : obj :=
  let simplified :=
    if String.eqb (type node) "COMPONENT"
    then obj_set simplified "isComponent" (VBool true) else simplified in
  let simplified :=
    if String.eqb (type node) "COMPONENT_SET"
    then obj_set simplified "isComponentSet" (VBool true) else simplified in
  if String.eqb (type node) "INSTANCE" then
    let simplified := obj_set simplified "isInstance" (VBool true) in
    obj_set simplified "mainComponentId"
      (match mainComponent node with
       | Some i => VStr i
       | None => VUndefined
       end)
  else simplified.

(* Variant properties *)
Definition variantProps (node : SceneNode) (simplified : obj) : obj :=
  match variantProperties node with
  | Some (Some props) =>
      obj_set simplified "variantProperties"
        (VObj (map (fun kv => (kv.1, VStr kv.2)) props))
  | _ => simplified
  end.

(* Component properties (for component sets) *)
Definition componentProps (node : SceneNode) (simplified : obj) : obj :=
  match componentPropertyDefinitions node with
  | Some defs =>
      if (0 <? length (Object_keys defs))%nat
      then obj_set simplified "componentProperties" (VObj defs)
      else simplified
  | None => simplified
  end.

(* Fills (simplified) *)
Definition fillsProp (node : SceneNode) (simplified : obj) : obj :=
  match fills node with
  | Some (Single paints) =>
      let shown := List.filter (fun f => not_hidden (paint_visible f)) paints in
      if (0 <? length shown)%nat
      then obj_set simplified "fills"
             (VArr (map (fun f => VObj (simplifyPaint f)) shown))
      else simplified
  | _ => simplified
  end.

(* Strokes *)
Definition strokesProp (node : SceneNode) (simplified : obj) : obj :=
  match strokes node with
  | Some paints =>
      let shown := List.filter (fun f => not_hidden (paint_visible f)) paints in
      if (0 <? length shown)%nat
      then obj_set simplified "strokes"
             (VArr (map (fun f => VObj (simplifyPaint f)) shown))
      else simplified
  | None => simplified
  end.

(* Effects *)
Definition effectsProp (node : SceneNode) (simplified : obj) : obj :=
  match effects node with
  | Some es =>
      let shown := List.filter (fun e => not_hidden (effect_visible e)) es in
      if (0 <? length shown)%nat
      then obj_set simplified "effects"
             (VArr (map (fun e => VObj (simplifyEffect e)) shown))
      else simplified
  | None => simplified
  end.

(* Opacity *)
Definition opacityProp (node : SceneNode) (simplified : obj) : obj :=
  match opacity node with
  | Some o =>
      if negb (num_eq o 1) then obj_set simplified "opacity" (VNum o)
      else simplified
  | None => simplified
  end.

(* Corner radius *)
Definition cornerRadiusProp (node : SceneNode) (simplified : obj) : obj :=
  match corner node with
  | Some r =>
      match cornerRadius r with
      | Single x =>
          if (0 <? x)%float then obj_set simplified "cornerRadius" (VNum x)
          else simplified
      | Mixed =>
          obj_set simplified "borderRadius"
            (VStr (ToString (opt_num (topLeftRadius r)) ++ " "
                   ++ ToString (opt_num (topRightRadius r)) ++ " "
                   ++ ToString (opt_num (bottomRightRadius r)) ++ " "
                   ++ ToString (opt_num (bottomLeftRadius r))))
      end
  | None => simplified
  end.

(* Text *)
Definition textProps (node : SceneNode) (simplified : obj) : obj :=
  if String.eqb (type node) "TEXT" then
    let t := text node in
    let simplified := obj_set simplified "textContent" (VStr (characters t)) in
    let simplified := mixed_set "fontSize" (fontSize t) VNum simplified in
    let simplified := mixed_set "fontName" (fontName t) (fun v => v) simplified in
    let simplified := mixed_set "fontWeight" (fontWeight t) VNum simplified in
    let simplified := mixed_set "lineHeight" (lineHeight t) (fun v => v) simplified in
    let simplified := mixed_set "letterSpacing" (letterSpacing t) (fun v => v) simplified in
    let simplified := obj_set simplified "textAlignHorizontal"
                        (VStr (textAlignHorizontal t)) in
    obj_set simplified "textAlignVertical" (VStr (textAlignVertical t))
  else simplified.

Fixpoint simplifyNode (node : SceneNode) (includeChildren : bool) : obj :=
  let simplified := [("id", VStr (id node));
                     ("name", VStr (name node));
                     ("type", VStr (type node))] in
  let simplified := visibility node simplified in
  let simplified := size node simplified in
  let simplified :=
    childrenCount (fun c => simplifyNode c false) node includeChildren
                  simplified in
  let simplified := autoLayoutProps node simplified in
  let simplified := layoutChildProps node simplified in
  let simplified := componentInfo node simplified in
  let simplified := variantProps node simplified in
  let simplified := componentProps node simplified in
  let simplified := fillsProp node simplified in
  let simplified := strokesProp node simplified in
  let simplified := effectsProp node simplified in
  let simplified := opacityProp node simplified in
  let simplified := cornerRadiusProp node simplified in
  textProps node simplified.

(** *** Helpers *)

Definition findNodeById (figma : API) (nodeId : string) : Result SceneNode :=
  match getNodeByIdAsync figma nodeId with
  | Some (IsScene node) => Ok node
  | _ => Throw {| code := "NODE_NOT_FOUND";
                  message := "Node not found: " ++ nodeId |}
  end.

(** *** Tier 2: Navigation *)

Fixpoint getChildrenAtDepth (n : SceneNode) (d : float) : obj :=
  let simplified := simplifyNode n false in
  if (0 <? d)%float then
    match children n with
    | Some ch =>
        obj_set simplified "children"
          (VArr (map (fun c => VObj (getChildrenAtDepth c (d - 1)%float)) ch))
    | None => simplified
    end
  else simplified.

(** [params.depth] is [None] when the request carries no depth. *)
Definition handleGetChildren (figma : API) (nodeId : string)
    (depth : option float) : Result obj :=
  let! node := findNodeById figma nodeId in
  match children node with
  | None =>
      Ok [("id", VStr (id node)); ("name", VStr (name node));
          ("type", VStr (type node)); ("children", VArr [])]
  | Some cs =>
      let depth := default 1%float depth in
      Ok [("id", VStr (id node)); ("name", VStr (name node));
          ("type", VStr (type node));
          ("children",
           VArr (map (fun c => VObj (getChildrenAtDepth c (depth - 1)%float)) cs))]
  end.

(** *** Tier 5: Intelligence *)

Record CompareResult := {
  nodeA : string * string;
  nodeB : string * string;
  differences : obj;
  differenceCount : nat
}.

Definition handleCompareVariants (figma : API) (nodeIdA nodeIdB : string)
  : Result CompareResult :=
  let! nodeA := findNodeById figma nodeIdA in
  let! nodeB := findNodeById figma nodeIdB in
  let simplifiedA := simplifyNode nodeA true in
  let simplifiedB := simplifyNode nodeB true in
  let allKeys :=
    new_Set (Object_keys simplifiedA ++ Object_keys simplifiedB)%list in
  let differences :=
    foldl (fun differences key =>
             let valA := obj_get simplifiedA key in
             let valB := obj_get simplifiedB key in
             if negb (same_json valA valB)
             then obj_set differences key (VObj [("a", valA); ("b", valB)])
             else differences)
          [] allKeys in
  Ok {| nodeA := (id nodeA, name nodeA);
        nodeB := (id nodeB, name nodeB);
        differences := differences;
        differenceCount := length (Object_keys differences) |}.

(** The two counters of the loop, after the keys [keys]. *)
Definition count_matches (a b : obj) (keys : list string) : nat * nat :=
  let skip := ["id"; "name"; "children"] in
  foldl (fun counters key =>
           let '(matches, total) := counters in
           if includes skip key then (matches, total)
           else
             let total := S total in
             if same_json (obj_get a key) (obj_get b key)
             then (S matches, total)
             else (matches, total))
        (0, 0)%nat keys.

Definition computeSimilarity (a b : obj) : float :=
  let keys := new_Set (Object_keys a ++ Object_keys b)%list in
  let '(matches, total) := count_matches a b keys in
  if (0 <? total)%nat then (nat2float matches / nat2float total)%float
  else 0%float.

(** [arr.sort(compare)]: a stable sort; [x] goes after [y] when
    [compare x y > 0]. *)
Fixpoint sort_insert {A : Type} (compare : A -> A -> float) (x : A)
    (l : list A) : list A :=
  match l with
  | [] => [x]
  | y :: l' =>
      if (0 <? compare x y)%float then y :: sort_insert compare x l'
      else x :: l
  end.

Definition Array_sort {A : Type} (compare : A -> A -> float) (l : list A)
  : list A :=
  foldr (sort_insert compare) [] l.

Record Similar := {
  similar_node : obj;
  similarity : float
}.

Record FindSimilarResult := {
  target : string * string * string;
  similar : list Similar;
  total : nat
}.

(** [params.threshold] is [None] when the request carries no threshold. *)
Definition handleFindSimilar (figma : API) (nodeId : string)
    (threshold : option float) : Result FindSimilarResult :=
  let! targetNode := findNodeById figma nodeId in
  let target := simplifyNode targetNode false in
  let page := currentPage figma in
  let candidates :=
    findAll page (fun n => String.eqb (type n) (type targetNode)
                           && negb (String.eqb (id n) (id targetNode))) in
  let similar :=
    foldl (fun similar candidate =>
             let simplified := simplifyNode candidate false in
             let similarity := computeSimilarity target simplified in
             if (default 0.7%float threshold <=? similarity)%float
             then (similar ++ [{| similar_node := simplified;
                                  similarity :=
                                    (Math_round (similarity * 100) / 100)%float |}])%list
             else similar)
          [] candidates in
  let similar :=
    Array_sort (fun a b => (similarity b - similarity a)%float) similar in
  Ok {| target := (id targetNode, name targetNode, type targetNode);
        similar := take 20 similar;
        total := length similar |}.

(** [arr.find(p)] on an array of strings, and the truthiness of what it
    returns. *)
Definition Array_find (p : string -> bool) (arr : list string) : option string :=
  List.find p arr.

Definition found (r : option string) : bool :=
  match r with
  | Some s => negb (String.eqb s "")
  | None => false
  end.

(** The object literal [{ from, to, trigger }]. *)
Definition transition (from to trigger : string) : value :=
  VObj [("from", VStr from); ("to", VStr to); ("trigger", VStr trigger)].

(** [x === y] by SameValueZero, as [Array.prototype.includes] compares:
    two objects or arrays met here are never the same object. *)
Definition same_value_zero (x y : value) : bool :=
  match x, y with
  | VUndefined, VUndefined => true
  | VNull, VNull => true
  | VBool a, VBool b => Bool.eqb a b
  | VNum a, VNum b =>
      PrimFloat.eqb a b || (PrimFloat.is_nan a && PrimFloat.is_nan b)
  | VStr a, VStr b => String.eqb a b
  | _, _ => false
  end.

Definition includes_value (arr : list value) (v : value) : bool :=
  existsb (fun x => same_value_zero x v) arr.

Fixpoint string_chars (s : string) : list value :=
  match s with
  | EmptyString => []
  | String c s' => VStr (String c "") :: string_chars s'
  end.

(** The elements [for ... of v] and [...v] visit; [None] when [v] is not
    iterable (a [TypeError]). *)
Definition iterate (v : value) : option (list value) :=
  match v with
  | VArr xs => Some xs
  | VStr s => Some (string_chars s)
  | _ => None
  end.

Record InferredStateMachine := {
  nodeId : string;
  nodeName : string;
  states : list value;
  transitions : list value;
  confidence : float;
  sources : list string;
  openQuestions : list string;
  suggestedImplementation : option string
}.

(** Source 1: the state names read off the variants' names. *)
Definition variantStates (variants : list SceneNode) : list string :=
  foldl (fun states variant =>
           if String.eqb (type variant) "COMPONENT" then
             foldl (fun states pair =>
                      match split "=" pair with
                      | _ :: value :: _ =>
                          if negb (String.eqb value "") then
                            let normalized := trim value in
                            if includes states normalized then states
                            else (states ++ [normalized])%list
                          else states
                      | _ => states
                      end)
                   states (split ", " (name variant))
           else states)
        [] variants.

(** Source 1: the transitions inferred from the state names.  The lower
    case of a name is compared with words of the ASCII letters other
    than [k] only; no letter outside ASCII has one of these for its lower
    case, so that [toLowerCase] decides each comparison as
    [s.toLowerCase()] does. *)
Definition namedTransitions (states : list string) : list value :=
  let interactionStates :=
    ["Default"; "Hover"; "Active"; "Pressed"; "Focus"; "Disabled"] in
  let foundInteraction :=
    List.filter (fun s => existsb (fun known => String.eqb (toLowerCase s) (toLowerCase known))
                            interactionStates)
                states in
  let named s := fun x => String.eqb (toLowerCase x) s in
  if (1 <? length foundInteraction)%nat then
    let transitions := [] in
    let transitions :=
      if found (Array_find (named "default") foundInteraction)
         && found (Array_find (named "hover") foundInteraction)
      then (transitions ++ [transition "Default" "Hover" "ON_HOVER";
                            transition "Hover" "Default" "MOUSE_LEAVE"])%list
      else transitions in
    let transitions :=
      if found (Array_find (named "hover") foundInteraction)
         && found (Array_find (fun x => named "active" x || named "pressed" x)
                              foundInteraction)
      then (transitions ++ [transition "Hover" "Active" "ON_CLICK";
                            transition "Active" "Hover" "MOUSE_UP"])%list
      else transitions in
    if found (Array_find (named "focus") foundInteraction)
    then (transitions ++ [transition "Default" "Focus" "ON_FOCUS";
                          transition "Focus" "Default" "ON_BLUR"])%list
    else transitions
  else [].

(** Source 2: one transition per action of every reaction that has a
    trigger and actions. *)
Definition reactionTransitions (node : SceneNode) (rs : list Reaction)
  : list value :=
  concat
    (map (fun reaction =>
            match trigger reaction, actions reaction with
            | Some trigger_type, Some acts =>
                map (fun action =>
                       VObj [("from", VStr (name node));
                             ("to", VStr (match destinationId action with
                                          | Some (Some d) => d
                                          | Some None => "null"
                                          | None => "unknown"
                                          end));
                             ("trigger", VStr trigger_type);
                             ("action", VStr (action_type action))])
                    acts
            | _, _ => []
            end)
         rs).

(** Source 3: the body of the [try] block, on the three arrays it
    mutates; an exception leaves them as they are at that point. *)
Definition annotationSource (node : SceneNode)
    (st : list value * list value * list string)
  : list value * list value * list string :=
  let '(states, transitions, sources) := st in
  let annotation := getSharedPluginData node "forage" "state-rules" in
  if negb (String.eqb annotation "") then
    let sources := (sources ++ ["annotations"])%list in
    match JSON_parse annotation with
    | None => (states, transitions, sources)
    | Some VNull | Some VUndefined => (states, transitions, sources)
    | Some parsed =>
        let merged :=
          if truthy (prop parsed "states") then
            match iterate (prop parsed "states") with
            | Some elems =>
                Some (foldl (fun states s =>
                               if negb (includes_value states s)
                               then (states ++ [s])%list else states)
                            states elems)
            | None => None
            end
          else Some states in
        match merged with
        | None => (states, transitions, sources)
        | Some states =>
            if truthy (prop parsed "transitions") then
              match iterate (prop parsed "transitions") with
              | Some elems => (states, (transitions ++ elems)%list, sources)
              | None => (states, transitions, sources)
              end
            else (states, transitions, sources)
        end
    end
  else (states, transitions, sources).

Definition handleInferStates (figma : API) (nodeId : string)
  : Result InferredStateMachine :=
  let! node := findNodeById figma nodeId in
  let states := [] in
  let transitions := [] in
  let sources := [] in
  let openQuestions := [] in
  (* Source 1: Variant naming patterns *)
  let '(states, transitions, sources) :=
    if String.eqb (type node) "COMPONENT_SET" then
      let sources := (sources ++ ["variant-names"])%list in
      let names := variantStates (default [] (children node)) in
      (VStr <$> names, (transitions ++ namedTransitions names)%list, sources)
    else (states, transitions, sources) in
  (* Source 2: Prototype reactions *)
  let '(transitions, sources) :=
    match reactions node with
    | Some rs =>
        if (0 <? length rs)%nat
        then ((transitions ++ reactionTransitions node rs)%list,
              (sources ++ ["prototype-reactions"])%list)
        else (transitions, sources)
    | None => (transitions, sources)
    end in
  (* Source 3: Designer annotations *)
  let '(states, transitions, sources) :=
    annotationSource node (states, transitions, sources) in
  (* Confidence scoring *)
  let confidence := 0%float in
  let confidence :=
    if includes sources "variant-names" then (confidence + 0.4)%float
    else confidence in
  let confidence :=
    if includes sources "prototype-reactions" then (confidence + 0.3)%float
    else confidence in
  let confidence :=
    if includes sources "annotations" then (confidence + 0.3)%float
    else confidence in
  let confidence :=
    if (length states =? 0)%nat then 0%float else confidence in
  (* Open questions *)
  let openQuestions :=
    if (0 <? length states)%nat && (length transitions =? 0)%nat
    then (openQuestions ++
          ["States were found but no transitions could be inferred. How do users move between states?"])%list
    else openQuestions in
  let openQuestions :=
    if negb (includes sources "annotations")
    then (openQuestions ++
          ["No designer annotations found. Consider using forage_annotate_state to add explicit state rules."])%list
    else openQuestions in
  (* Suggested implementation *)
  let suggestedImplementation :=
    if (0 <? length states)%nat then
      if (length states <=? 3)%nat && (length transitions <=? 4)%nat
      then Some "useState — simple enough for a single state variable"
      else Some "useReducer — complex state machine with multiple transitions"
    else None in
  Ok {| nodeId := nodeId;
        nodeName := name node;
        states := states;
        transitions := transitions;
        confidence := confidence;
        sources := sources;
        openQuestions := openQuestions;
        suggestedImplementation := suggestedImplementation |}.

End WithRuntime.
End Plugin.

(** ** The correlation bridge *)

Module Bridge.
Import JS.

(** [WebSocket.readyState]. *)
Inductive ReadyState := CONNECTING | OPEN | CLOSING | CLOSED.

Global Instance ReadyState_eq_dec : EqDecision ReadyState.
Proof. solve_decision. Defined.

(** Sockets, promises and timeouts are objects; each is named by the
    number of objects of its kind created before it. *)
Abbreviation WebSocket := nat.
Abbreviation Promise := nat.
Abbreviation Timer := nat.

(** [PendingRequest]: [promise] is the promise whose [resolve] and [reject]
    functions the entry holds. *)
Record PendingRequest := {
  promise : Promise;
  timer : Timer
}.

(** A call of a promise's [resolve] or of its [reject]. *)
Inductive Settlement :=
  | Resolved (result : value)
  | Rejected (message : string).

(** The callback [send] hands to [setTimeout]: it closes over [id],
    [reject] and [method]. *)
Record TimerTask := {
  task_id : string;
  task_reject : Promise;
  task_method : string;
  task_delay : N
}.

Record ForageCommand := {
  command_id : string;
  command_method : string;
  command_params : option value
}.

Definition REQUEST_TIMEOUT_MS : N := 10000.

(** The bridge ([plugin], [pendingRequests], [nextId]) and what the host
    holds for it: the sockets handed to [handleConnection] with their
    [readyState] and their number, the timeouts that are set and have neither fired nor been
    cleared, every call of a [resolve] or [reject] so far (oldest first),
    and the frames written. *)
Record State := {
  plugin : option WebSocket;
  pendingRequests : list (string * PendingRequest);
  nextId : N;
  readyState : gmap WebSocket ReadyState;
  socketsAccepted : nat;
  timers : gmap Timer TimerTask;
  timersSet : nat;
  promisesMade : nat;
  settled : list (Promise * Settlement);
  sent : list (WebSocket * ForageCommand)
}.

(** [new PluginBridge(port)]. *)
Definition init : State :=
  {| plugin := None; pendingRequests := []; nextId := 0;
     readyState := ∅; socketsAccepted := 0;
     timers := ∅; timersSet := 0; promisesMade := 0;
     settled := []; sent := [] |}.

Definition with_plugin (p : option WebSocket) (s : State) : State :=
  {| plugin := p; pendingRequests := pendingRequests s; nextId := nextId s;
     readyState := readyState s; socketsAccepted := socketsAccepted s;
     timers := timers s; timersSet := timersSet s;
     promisesMade := promisesMade s; settled := settled s; sent := sent s |}.

Definition with_pending (m : list (string * PendingRequest)) (s : State)
  : State :=
  {| plugin := plugin s; pendingRequests := m; nextId := nextId s;
     readyState := readyState s; socketsAccepted := socketsAccepted s;
     timers := timers s; timersSet := timersSet s;
     promisesMade := promisesMade s; settled := settled s; sent := sent s |}.

Definition with_readyState (m : gmap WebSocket ReadyState) (s : State) : State :=
  {| plugin := plugin s; pendingRequests := pendingRequests s; nextId := nextId s;
     readyState := m; socketsAccepted := socketsAccepted s;
     timers := timers s; timersSet := timersSet s;
     promisesMade := promisesMade s; settled := settled s; sent := sent s |}.

(** The server hands a new, open socket to the bridge. *)
Definition accept (s : State) : State :=
  {| plugin := plugin s; pendingRequests := pendingRequests s; nextId := nextId s;
     readyState := <[socketsAccepted s := OPEN]> (readyState s);
     socketsAccepted := S (socketsAccepted s);
     timers := timers s; timersSet := timersSet s;
     promisesMade := promisesMade s; settled := settled s; sent := sent s |}.

Definition with_timers (m : gmap Timer TimerTask) (s : State) : State :=
  {| plugin := plugin s; pendingRequests := pendingRequests s; nextId := nextId s;
     readyState := readyState s; socketsAccepted := socketsAccepted s;
     timers := m; timersSet := timersSet s;
     promisesMade := promisesMade s; settled := settled s; sent := sent s |}.

Definition with_settled (l : list (Promise * Settlement)) (s : State) : State :=
  {| plugin := plugin s; pendingRequests := pendingRequests s; nextId := nextId s;
     readyState := readyState s; socketsAccepted := socketsAccepted s;
     timers := timers s; timersSet := timersSet s;
     promisesMade := promisesMade s; settled := l; sent := sent s |}.

(** [clearTimeout(t)]. *)
Definition clearTimeout (t : Timer) (s : State) : State :=
  with_timers (delete t (timers s)) s.

(** [req.resolve(v)] and [req.reject(new Error(message))]. *)
Definition resolve (p : Promise) (v : value) (s : State) : State :=
  with_settled (settled s ++ [(p, Resolved v)])%list s.

Definition reject (p : Promise) (message : string) (s : State) : State :=
  with_settled (settled s ++ [(p, Rejected message)])%list s.

(** [this.pendingRequests.delete(id)]. *)
Definition delete_pending (id : string) (s : State) : State :=
  with_pending (Map_delete (pendingRequests s) id) s.

(** [ws.close()]: the socket starts its closing handshake. *)
Definition ws_close (ws : WebSocket) (s : State) : State :=
  with_readyState (<[ws := CLOSING]> (readyState s)) s.

(** [this.plugin && this.plugin.readyState === WebSocket.OPEN]. *)
Definition connected (s : State) : bool :=
  match plugin s with
  | Some ws => bool_decide (readyState s !! ws = Some OPEN)
  | None => false
  end.

(** [++n] on a number that holds a natural: exact below 2^53, where the
    sum rounds back to 2^53. *)
Definition increment (n : N) : N :=
  if (n <? 2 ^ 53)%N then (n + 1)%N else n.

(** [handleConnection(ws)], up to the registration of the handlers. *)
Definition handleConnection (ws : WebSocket) (s : State) : State :=
  let s :=
    match plugin s with
    | Some old =>
        if bool_decide (readyState s !! old = Some OPEN) then ws_close old s
        else s
    | None => s
    end in
  with_plugin (Some ws) s.

(** The [close] handler's loop: the entries are visited in the order of
    the map, and each is deleted when it has been visited. *)
Definition reject_all (s : State) : State :=
  foldl (fun s entry =>
           let '(id, req) := entry in
           let s := clearTimeout (timer req) s in
           let s := reject (promise req) "Figma plugin disconnected" s in
           delete_pending id s)
        s (pendingRequests s).

(** The [close] handler registered on [ws]. *)
Definition onClose (ws : WebSocket) (s : State) : State :=
  let s :=
    if bool_decide (plugin s = Some ws) then with_plugin None s else s in
  (* Reject all pending requests for this connection *)
  reject_all s.

(** The [error] handler registered on [ws]: it logs. *)
Definition onError (ws : WebSocket) (message : string) (s : State) : State := s.

(** The timeout callback of [send]. *)
Definition onTimeout (task : TimerTask) (s : State) : State :=
  let s := delete_pending (task_id task) s in
  reject (task_reject task)
         ("Request timed out after 10s: " ++ task_method task) s.

(** [close()]. *)
Definition close (s : State) : State :=
  let s :=
    foldl (fun s entry => clearTimeout (timer entry.2) s)
          s (pendingRequests s) in
  with_pending [] s.

(** What a call of [send] returns: the promise it created, or the error
    it threw. *)
Inductive SendResult :=
  | Threw (message : string)
  | Returned (p : Promise).

Section WithRuntime.
Context {R : Runtime}.

(** The [message] handler registered on a socket.  When the [code] or
    the [message] of the response's error is not [convertible], the
    template literal throws after the timeout was cleared and the entry
    deleted: the [catch] of the handler logs, and neither [reject] nor
    [resolve] is called. *)
Definition onMessage (data : string) (s : State) : State :=
  match JSON_parse data with
  | None => s
  | Some VNull | Some VUndefined => s
  | Some response =>
      match prop response "id" with
      | VStr id =>
          match Map_get (pendingRequests s) id with
          | None => s
          | Some pending =>
              let s := clearTimeout (timer pending) s in
              let s := delete_pending id s in
              if truthy (prop response "error") then
                if convertible (prop (prop response "error") "code")
                   && convertible (prop (prop response "error") "message")
                then
                  reject (promise pending)
                    ("[" ++ ToString (prop (prop response "error") "code") ++ "] "
                         ++ ToString (prop (prop response "error") "message")) s
                else s
              else resolve (promise pending) (prop response "result") s
          end
      | _ => s
      end
  end.

End WithRuntime.

Definition send (method : string) (params : option value) (s : State)
  : SendResult * State :=
  match plugin s with
  | Some ws =>
      if bool_decide (readyState s !! ws = Some OPEN) then
        let n := increment (nextId s) in
        let id := pretty n in
        let command := {| command_id := id; command_method := method;
                          command_params := params |} in
        let p := promisesMade s in
        let t := timersSet s in
        (Returned p,
         {| plugin := plugin s;
            pendingRequests :=
              Map_set (pendingRequests s) id {| promise := p; timer := t |};
            nextId := n;
            readyState := readyState s;
            socketsAccepted := socketsAccepted s;
            timers := <[t := {| task_id := id; task_reject := p;
                                task_method := method;
                                task_delay := REQUEST_TIMEOUT_MS |}]> (timers s);
            timersSet := S t;
            promisesMade := S p;
            settled := settled s;
            sent := (sent s ++ [(ws, command)])%list |})
      else
        (Threw "Not connected to Figma plugin. Is the Forage plugin running in Figma?", s)
  | None =>
      (Threw "Not connected to Figma plugin. Is the Forage plugin running in Figma?", s)
  end.

(** What can happen to a bridge: the server accepts a socket; a socket
    the bridge has handlers on delivers a frame, closes, reports an error
    or starts closing; a timeout that is set fires; [send] or [close] is
    called. *)
Inductive Event :=
  | EvConnection
  | EvMessage (ws : WebSocket) (data : string)
  | EvClose (ws : WebSocket)
  | EvError (ws : WebSocket) (message : string)
  | EvClosing (ws : WebSocket)
  | EvTimer (t : Timer)
  | EvSend (method : string) (params : option value)
  | EvShutdown.

Definition known (ws : WebSocket) (s : State) : bool :=
  bool_decide (is_Some (readyState s !! ws)).

Section WithRuntime.
Context {R : Runtime}.

Definition step (ev : Event) (s : State) : State :=
  match ev with
  | EvConnection => handleConnection (socketsAccepted s) (accept s)
  | EvMessage ws data => if known ws s then onMessage data s else s
  | EvClose ws =>
      if known ws s
      then onClose ws (with_readyState (<[ws := CLOSED]> (readyState s)) s)
      else s
  | EvError ws message => if known ws s then onError ws message s else s
  | EvClosing ws =>
      if bool_decide (readyState s !! ws = Some OPEN) then ws_close ws s else s
  | EvTimer t =>
      match timers s !! t with
      | Some task => onTimeout task (with_timers (delete t (timers s)) s)
      | None => s
      end
  | EvSend method params => (send method params s).2
  | EvShutdown => close s
  end.

(** The state after a sequence of events, oldest first. *)
Definition run (evs : list Event) (s : State) : State :=
  foldl (fun s ev => step ev s) s evs.

End WithRuntime.
End Bridge.

(** ** More JavaScript built-ins *)

Module JSMore.
Import JS.

Definition newline : string := String (ascii_of_nat 10) "".

(** [s.includes(sub)] on strings. *)
Fixpoint String_includes (sub s : string) : bool :=
  String.prefix sub s
  || match s with
     | EmptyString => false
     | String _ s' => String_includes sub s'
     end.

Fixpoint String_drop (n : nat) (s : string) : string :=
  match n, s with
  | S k, String _ s' => String_drop k s'
  | _, _ => s
  end.

(** [s.replace(from, to)] for a string [from] and a [to] without [$]:
    the first occurrence is replaced. *)
Fixpoint replace_first (from to s : string) : string :=
  if String.prefix from s then to ++ String_drop (String.length from) s
  else match s with
       | EmptyString => EmptyString
       | String c s' => String c (replace_first from to s')
       end.

(** [parts.join(sep)]. *)
Definition join (sep : string) (parts : list string) : string :=
  String.concat sep parts.

(** [Object.fromEntries(entries)]. *)
Definition Object_fromEntries (entries : list (string * value)) : obj :=
  foldl (fun o entry => obj_put o entry.1 entry.2) [] entries.

(** *** The regular expressions of the naming lint

    [/^word\s+\d+$/i] for a [word] of ASCII letters.  A string is the
    UTF-8 text of the JavaScript string; [\s] is [white_space]. *)

Definition is_decimal_digit (c : ascii) : bool :=
  let n := nat_of_ascii c in (48 <=? n)%nat && (n <=? 57)%nat.

(** [\d+$]. *)
Fixpoint digits_to_end (s : string) : bool :=
  match s with
  | EmptyString => false
  | String c s' =>
      is_decimal_digit c
      && match s' with
         | EmptyString => true
         | _ => digits_to_end s'
         end
  end.

(** [\s+\d+$], or [\s*\d+$] once white space has been [seen]; [skip]
    counts the bytes of a white-space character still to be passed. *)
Fixpoint spaces_digits (skip : nat) (seen : bool) (s : string) : bool :=
  match s with
  | EmptyString => false
  | String _ s' =>
      match skip with
      | S k => spaces_digits k seen s'
      | O =>
          match white_space s with
          | S k => spaces_digits k true s'
          | O => seen && digits_to_end s
          end
      end
  end.

(** The rest of [s] after [word], letter case ignored. *)
Fixpoint after_word (word s : string) : option string :=
  match word, s with
  | EmptyString, _ => Some s
  | String w word', String c s' =>
      if Ascii.eqb (lower_ascii w) (lower_ascii c) then after_word word' s'
      else None
  | String _ _, EmptyString => None
  end.

(** [/^word\s+\d+$/i.test(s)]. *)
Definition test_generic (word s : string) : bool :=
  match after_word word s with
  | Some rest => spaces_digits 0 false rest
  | None => false
  end.

Section WithRuntime.
Context {R : Runtime}.

(** [JSON.stringify(v, null, 2)] at the indentation [indent]; [None] is
    the result [undefined]. *)
Fixpoint JSON_stringify_indented (indent : string) (v : value) : option string :=
  match v with
  | VUndefined => None
  | VNull => Some "null"
  | VBool b => Some (if b then "true" else "false")
  | VNum x => Some (if PrimFloat.is_finite x then Number_toString 10 x else "null")
  | VStr s => Some (JSON_quote s)
  | VArr xs =>
      let inner := indent ++ "  " in
      match map (fun x => default "null" (JSON_stringify_indented inner x)) xs with
      | [] => Some "[]"
      | partial =>
          Some ("[" ++ newline ++ inner
                    ++ join ("," ++ newline ++ inner) partial
                    ++ newline ++ indent ++ "]")
      end
  | VObj fields =>
      let inner := indent ++ "  " in
      match omap (fun kv =>
                    match JSON_stringify_indented inner kv.2 with
                    | Some t => Some (JSON_quote kv.1 ++ ": " ++ t)
                    | None => None
                    end) fields with
      | [] => Some "{}"
      | partial =>
          Some ("{" ++ newline ++ inner
                    ++ join ("," ++ newline ++ inner) partial
                    ++ newline ++ indent ++ "}")
      end
  end.

End WithRuntime.
End JSMore.

(** ** The plugin's other handlers and its dispatcher *)

Module Handlers.
Import JS JSMore Figma Plugin.

(** *** Helpers *)

Definition findPageById (figma : API) (pageId : string) : Result PageNode :=
  match getNodeByIdAsync figma pageId with
  | Some (IsPage page) => Ok page
  | _ => Throw {| code := "PAGE_NOT_FOUND";
                  message := "Page not found: " ++ pageId |}
  end.

(** [page.findAllWithCriteria({ types })]: the nodes [findAll] visits
    whose type is one of [types]. *)
Definition findAllWithCriteria (p : PageNode) (types : list string)
  : list SceneNode :=
  findAll p (fun n => includes types (type n)).

(** [params.key] of a request, when it is truthy: a string that is not
    empty. *)
Definition given (param : option string) : option string :=
  match param with
  | Some s => if negb (String.eqb s "") then Some s else None
  | None => None
  end.

(** [node.setSharedPluginData(namespace, key, data)]: the node with the
    id [target] holds [data] from now on, wherever the document holds
    it. *)
Fixpoint store (target namespace key data : string) (n : SceneNode) : SceneNode :=
  mkSceneNode (id n) (name n) (type n) (visible n) (width n) (height n)
    (match children n with
     | Some cs => Some (map (store target namespace key data) cs)
     | None => None
     end)
    (autoLayout n) (layoutChild n) (mainComponent n) (variantProperties n)
    (componentPropertyDefinitions n) (fills n) (strokes n) (effects n)
    (opacity n) (corner n) (text n) (reactions n)
    (if String.eqb (id n) target
     then fun namespace' key' =>
            if String.eqb namespace' namespace && String.eqb key' key then data
            else getSharedPluginData n namespace' key'
     else getSharedPluginData n).

Definition store_page (target namespace key data : string) (p : PageNode)
  : PageNode :=
  {| page_id := page_id p; page_name := page_name p;
     page_children := map (store target namespace key data) (page_children p) |}.

Definition setSharedPluginData (figma : API) (node : SceneNode)
    (namespace key data : string) : API :=
  {| getNodeByIdAsync := fun i =>
       match getNodeByIdAsync figma i with
       | Some (IsScene n) => Some (IsScene (store (id node) namespace key data n))
       | Some (IsPage p) => Some (IsPage (store_page (id node) namespace key data p))
       | other => other
       end;
     currentPage := store_page (id node) namespace key data (currentPage figma) |}.

Section WithRuntime.
Context {R : Runtime}.

(** *** Tier 1: Discovery *)

Definition handleGetFrames (figma : API) (pageId : string) : Result (list obj) :=
  let! page := findPageById figma pageId in
  Ok (map (fun child => simplifyNode child false) (page_children page)).

(** *** Tier 2: Navigation *)

(** The entry [[key, rest.join("=")]] of a [key=value] pair. *)
Definition pair_entry (pair : string) : string * value :=
  match split "=" pair with
  | key :: rest => (key, VStr (join "=" rest))
  | [] => ("undefined", VStr "")
  end.

Record Variant := {
  variant_id : string;
  variant_name : string;
  variant_properties : option obj
}.

Record VariantsResult := {
  set_id : string;
  set_name : string;
  properties : value;
  variants : list Variant
}.

(** A component set has [componentPropertyDefinitions] and [children]. *)
Definition handleGetVariants (figma : API) (nodeId : string)
  : Result VariantsResult :=
  let! node := findNodeById figma nodeId in
  if negb (String.eqb (type node) "COMPONENT_SET") then
    Throw {| code := "NOT_COMPONENT_SET";
             message := "Node " ++ nodeId ++ " is a " ++ type node
                        ++ ", not a COMPONENT_SET. Use this tool on a component set to list its variants." |}
  else
    let componentSet := node in
    let propertyDefs :=
      match componentPropertyDefinitions componentSet with
      | Some defs => VObj defs
      | None => VUndefined
      end in
    Ok {| set_id := id componentSet;
          set_name := name componentSet;
          properties := propertyDefs;
          variants :=
            map (fun variant =>
                   {| variant_id := id variant;
                      variant_name := name variant;
                      variant_properties :=
                        if String.eqb (type variant) "COMPONENT"
                        then Some (Object_fromEntries
                                     (map pair_entry (split ", " (name variant))))
                        else None |})
                (default [] (children componentSet)) |}.

Record SearchResult := {
  results : list obj;
  search_total : nat;
  capped : bool
}.

Definition handleSearchNodes (figma : API) (query type pageId : option string)
  : Result SearchResult :=
  let! page :=
    match given pageId with
    | Some p => findPageById figma p
    | None => Ok (currentPage figma)
    end in
  let results :=
    match given type with
    | Some t => findAllWithCriteria page [t]
    | None => findAll page (fun _ => true)
    end in
  let results :=
    match given query with
    | Some query =>
        let q := String_toLowerCase query in
        List.filter (fun n => String_includes q (String_toLowerCase (name n))) results
    | None => results
    end in
  (* Cap results to prevent flooding context *)
  let capped := take 100 results in
  Ok {| results := map (fun n => simplifyNode n false) capped;
        search_total := length results;
        capped := (100 <? length results)%nat |}.

(** *** Tier 3: Detail *)

(** The [reactions] of a detail; [navigation a] is [a.navigation],
    [undefined] for an action that has none. *)
Definition detailReactions (navigation : Action -> value) (rs : list Reaction)
  : value :=
  VArr (map (fun r =>
               VObj [("trigger",
                      match trigger r with
                      | Some trigger_type => VStr trigger_type
                      | None => VUndefined
                      end);
                     ("actions",
                      match actions r with
                      | Some acts =>
                          VArr (map (fun a =>
                                       VObj [("type", VStr (action_type a));
                                             ("navigation", navigation a);
                                             ("destinationId",
                                              match destinationId a with
                                              | Some (Some d) => VStr d
                                              | Some None => VNull
                                              | None => VUndefined
                                              end)])
                                    acts)
                      | None => VUndefined
                      end)])
            rs).

(** [handleGetNodeDetail].  Of the node it reads, besides what
    [SceneNode] holds: [boundVariables node] ([None] when the node has no
    bound variables to read) and [getCSSAsync node] -- [None] when the
    node has no such method, [Some None] when the call throws.
    [includeCss] is [params.includeCss]. *)
Definition handleGetNodeDetail (figma : API) (nodeId : string)
    (includeCss : option bool)
    (boundVariables : SceneNode -> option obj)
    (navigation : Action -> value)
    (getCSSAsync : SceneNode -> option (option obj)) : Result obj :=
  let! node := findNodeById figma nodeId in
  let detail := simplifyNode node true in
  (* Add bound variables if available *)
  let detail :=
    match boundVariables node with
    | Some bv =>
        if (0 <? length (Object_keys bv))%nat
        then obj_set detail "boundVariables" (VObj bv)
        else detail
    | None => detail
    end in
  (* Add reactions (prototype interactions) *)
  let detail :=
    match reactions node with
    | Some rs =>
        if (0 <? length rs)%nat
        then obj_set detail "reactions" (detailReactions navigation rs)
        else detail
    | None => detail
    end in
  (* Optionally include CSS *)
  let detail :=
    if default false includeCss then
      match getCSSAsync node with
      | Some (Some css) => obj_set detail "css" (VObj css)
      | Some None => detail
      | None => detail
      end
    else detail in
  Ok detail.

(** [handleGetCss]; [getCSSAsync node] is [None] when the node has no
    such method, and otherwise what the call comes to: the CSS, or the
    error it throws. *)
Definition handleGetCss (figma : API) (nodeId : string)
    (getCSSAsync : SceneNode -> option (Result obj)) : Result obj :=
  let! node := findNodeById figma nodeId in
  match getCSSAsync node with
  | None =>
      Throw {| code := "CSS_NOT_SUPPORTED";
               message := "CSS generation is not supported for "
                          ++ type node ++ " nodes" |}
  | Some call =>
      let! css := call in
      Ok [("nodeId", VStr nodeId); ("css", VObj css)]
  end.

(** The [ExportSettings] of [handleGetImages]; [constraint] is the
    [type] and the [value] of the constraint, when there is one. *)
Record ExportSettings := {
  export_format : string;
  constraint : option (string * float)
}.

(** [handleGetImages]; [format] and [scale] are [params.format] and
    [params.scale].  [exportAsync node] is [None] when the node has no
    such method, and otherwise what the call comes to on the settings:
    the bytes, or the error it throws; [base64Encode] is
    [figma.base64Encode]. *)
Definition handleGetImages (figma : API) (nodeId : string)
    (format : option string) (scale : option float)
    (exportAsync : SceneNode -> option (ExportSettings -> Result (list Byte.byte)))
    (base64Encode : list Byte.byte -> string) : Result obj :=
  let! node := findNodeById figma nodeId in
  let format := default "PNG" format in
  let scale := default 2%float scale in
  match exportAsync node with
  | None =>
      Throw {| code := "EXPORT_NOT_SUPPORTED";
               message := "Export is not supported for " ++ type node ++ " nodes" |}
  | Some exportAsync =>
      let settings :=
        if String.eqb format "SVG"
        then {| export_format := "SVG"; constraint := None |}
        else {| export_format := format; constraint := Some ("SCALE", scale) |} in
      let! bytes := exportAsync settings in
      let base64 := base64Encode bytes in
      let mimeType :=
        if String.eqb format "SVG" then "image/svg+xml"
        else if String.eqb format "PNG" then "image/png"
        else if String.eqb format "JPG" then "image/jpeg"
        else "application/pdf" in
      Ok [("nodeId", VStr nodeId);
          ("format", VStr format);
          ("mimeType", VStr mimeType);
          ("data", VStr base64);
          ("size", VNum (nat2float (length bytes)))]
  end.

(** *** Tier 5: Intelligence *)

Record Usage := {
  component : string * string;
  count : nat;
  instanceIds : list string
}.

Record ReusableResult := {
  reusableComponents : list Usage;
  reusable_total : nat
}.

(** The loop over the instances; [mainComponentName instance] is
    [instance.mainComponent.name]. *)
Definition componentUsage (mainComponentName : SceneNode -> string)
    (instances : list SceneNode) : list (string * Usage) :=
  foldl (fun componentUsage instance =>
           match mainComponent instance with
           | None => componentUsage
           | Some compId =>
               match Map_get componentUsage compId with
               | Some existing =>
                   Map_set componentUsage compId
                     {| component := component existing;
                        count := S (count existing);
                        instanceIds := (instanceIds existing ++ [id instance])%list |}
               | None =>
                   Map_set componentUsage compId
                     {| component := (compId, mainComponentName instance);
                        count := 1;
                        instanceIds := [id instance] |}
               end
           end)
        [] instances.

Definition handleFindReusable (figma : API)
    (mainComponentName : SceneNode -> string) : ReusableResult :=
  let page := currentPage figma in
  let instances := findAllWithCriteria page ["INSTANCE"] in
  let componentUsage := componentUsage mainComponentName instances in
  (* Only return components used more than once, sorted by usage *)
  let reusable :=
    Array_sort (fun a b => (nat2float (count b) - nat2float (count a))%float)
               (List.filter (fun c => (1 <? count c)%nat) componentUsage.*2) in
  {| reusableComponents := reusable;
     reusable_total := length reusable |}.

Record Issue := {
  issue_nodeId : string;
  issue_name : string;
  issue_type : string;
  issue : string;
  suggestion : string
}.

Record LintResult := {
  lint_pageId : string;
  lint_pageName : string;
  issues : list Issue;
  issueCount : nat;
  totalNodes : nat
}.

(** The words of [genericPatterns]: the pattern of [word] is
    [/^word\s+\d+$/i]. *)
Definition genericPatterns : list string :=
  ["Frame"; "Group"; "Rectangle"; "Ellipse"; "Line"; "Vector"; "Text";
   "Image"; "Component"; "Instance"].

Definition quoted (s : string) : string :=
  String quote_char (s ++ String quote_char "").

(** The body of the loop over the nodes: the patterns are tried in turn
    and the first that matches ends the inner loop. *)
Definition lint (issues : list Issue) (node : SceneNode) : list Issue :=
  match List.find (fun pattern => test_generic pattern (name node)) genericPatterns with
  | Some _ =>
      let typeLower := replace_first "_" " " (String_toLowerCase (type node)) in
      (issues ++
       [{| issue_nodeId := id node;
           issue_name := name node;
           issue_type := type node;
           issue := "generic-name";
           suggestion :=
             "Rename " ++ quoted (name node)
             ++ " to describe its purpose (e.g., " ++ quoted "hero-section"
             ++ ", " ++ quoted "nav-item" ++ ", " ++ quoted "cta-button"
             ++ " instead of generic " ++ typeLower ++ " names)" |}])%list
  | None => issues
  end.

Definition handleLintNaming (figma : API) (pageId : option string)
  : Result LintResult :=
  let! page :=
    match given pageId with
    | Some p => findPageById figma p
    | None => Ok (currentPage figma)
    end in
  let allNodes := findAll page (fun _ => true) in
  let issues := foldl lint [] allNodes in
  Ok {| lint_pageId := page_id page;
        lint_pageName := page_name page;
        issues := issues;
        issueCount := length issues;
        totalNodes := length allNodes |}.

(** *** Tier 6: Annotations *)

Definition handleGetAnnotations (figma : API) (nodeId : string) : Result obj :=
  let! node := findNodeById figma nodeId in
  let raw := getSharedPluginData node "forage" "state-rules" in
  if String.eqb raw "" then
    Ok [("nodeId", VStr nodeId);
        ("nodeName", VStr (name node));
        ("annotations", VNull);
        ("message", VStr "No annotations found on this node. Use forage_annotate_state to add state rules.")]
  else
    match JSON_parse raw with
    | Some parsed =>
        Ok [("nodeId", VStr nodeId);
            ("nodeName", VStr (name node));
            ("annotations", parsed)]
    | None =>
        Ok [("nodeId", VStr nodeId);
            ("nodeName", VStr (name node));
            ("annotations", VNull);
            ("rawData", VStr raw);
            ("message", VStr "Found annotation data but it is not valid JSON")]
    end.

(** [params.annotation] is a string, as its type says; the handler
    returns its result and leaves the document as it is after it. *)
Definition handleAnnotateState (figma : API) (nodeId annotation : string)
  : Result obj * API :=
  match findNodeById figma nodeId with
  | Throw e => (Throw e, figma)
  | Ok node =>
      (* Validate that annotation is valid JSON *)
      match JSON_parse annotation with
      | None =>
          (Throw {| code := "INVALID_ANNOTATION";
                    message := "Annotation must be valid JSON with states and transitions arrays" |},
           figma)
      | Some parsed =>
          let json := annotation in
          (Ok [("nodeId", VStr nodeId);
               ("nodeName", VStr (name node));
               ("annotation", parsed);
               ("message", VStr "State annotation saved successfully. It will persist in the Figma file.")],
           setSharedPluginData figma node "forage" "state-rules" json)
      end
  end.

(** *** Command dispatcher *)

(** What a handler can throw: a value, or an instance of [Error] with
    its [message] and its [code] ([undefined] when it has none). *)
Inductive Thrown :=
  | ThrownValue (v : value)
  | ThrownError (message : string) (code : value).

(** What the promise of a handler comes to. *)
Inductive Outcome :=
  | Returns (result : value)
  | Throws (error : Thrown).

(** The object a handler of this file throws. *)
Definition thrown (e : ForageError) : Thrown :=
  ThrownValue (VObj [("code", VStr (code e)); ("message", VStr (message e))]).

(** The outcome of a handler embedded above, its result written as a
    value by [encode]. *)
Definition outcome {A : Type} (encode : A -> value) (r : Result A) : Outcome :=
  match r with
  | Ok a => Returns (encode a)
  | Throw e => Throws (thrown e)
  end.

(** The labels of the [switch]. *)
Definition methods : list string :=
  ["getPages"; "getFrames"; "getSelection"; "getChildren"; "getVariants";
   "searchNodes"; "getNodeDetail"; "getCss"; "getImages"; "getDesignTokens";
   "getVariables"; "getStyles"; "compareVariants"; "findReusable";
   "findSimilar"; "inferStates"; "lintNaming"; "getAnnotations";
   "annotateState"].

(** [dispatch]: [handler method params] is what the handler the case
    [method] calls comes to on [params]. *)
Definition dispatch (handler : string -> option value -> Outcome)
    (method : string) (params : option value) : Outcome :=
  if includes methods method then handler method params
  else Throws (ThrownValue
                 (VObj [("code", VStr "UNKNOWN_METHOD");
                        ("message", VStr ("Unknown method: " ++ method))])).

(** [error.code ?? "INTERNAL_ERROR"]. *)
Definition code_or_internal (code : value) : value :=
  match code with
  | VUndefined | VNull => VStr "INTERNAL_ERROR"
  | _ => code
  end.

(** [figma.ui.onmessage]: the response it posts, if it posts one.  The
    [catch] block reads [error.code] and converts a thrown value that is
    no [Error] to text; when [null] or [undefined] was thrown the read
    throws, when the value is not [convertible] the conversion throws,
    and nothing is posted. *)
Definition onmessage (handler : string -> option value -> Outcome)
    (msg : Bridge.ForageCommand) : option value :=
  let id := Bridge.command_id msg in
  match dispatch handler (Bridge.command_method msg) (Bridge.command_params msg) with
  | Returns result =>
      Some (VObj [("id", VStr id); ("type", VStr "response"); ("result", result)])
  | Throws (ThrownValue VNull) | Throws (ThrownValue VUndefined) => None
  | Throws (ThrownValue error) =>
      if convertible error then
        Some (VObj [("id", VStr id); ("type", VStr "response");
                    ("error",
                     VObj [("code", code_or_internal (prop error "code"));
                           ("message", VStr (ToString error))])])
      else None
  | Throws (ThrownError message code) =>
      Some (VObj [("id", VStr id); ("type", VStr "response");
                  ("error",
                   VObj [("code", code_or_internal code);
                         ("message", VStr message)])])
  end.

End WithRuntime.
End Handlers.

(** ** The MCP server's tools *)

Module Server.
Import JS JSMore Bridge.

(** *** Helpers *)

(** [textResult(text)]; [text] is [undefined] when [JSON.stringify]
    returned [undefined]. *)
Definition textResult (text : value) : value :=
  VObj [("content", VArr [VObj [("type", VStr "text"); ("text", text)]])].

Definition errorResult (message : string) : value :=
  VObj [("content",
         VArr [VObj [("type", VStr "text"); ("text", VStr ("Error: " ++ message))]]);
        ("isError", VBool true)].

(** The settlement a promise got: its first, later ones have no
    effect. *)
Definition outcome_of (p : Promise) (s : State) : option Settlement :=
  snd <$> List.find (fun call => bool_decide (call.1 = p)) (settled s).

Section WithRuntime.
Context {R : Runtime}.

(** [callPlugin], from the value [bridge.send]'s promise resolved
    with. *)
Definition callPlugin (result : value) : value :=
  match JSON_stringify_indented "" result with
  | Some text => VStr text
  | None => VUndefined
  end.

(** [safeCall(method, params)] calls [bridge.send] on the bridge [s]: the
    state of the bridge after the call, and what the tool answers once the
    bridge has come to the state [later] ([None] while the promise is
    pending).  Every error the bridge throws or rejects with is an
    [Error]. *)
Definition safeCall (method : string) (params : option value) (s : State)
  : State * (State -> option value) :=
  match send method params s with
  | (Threw message, s') => (s', fun _ => Some (errorResult message))
  | (Returned p, s') =>
      (s', fun later =>
             match outcome_of p later with
             | Some (Resolved result) => Some (textResult (callPlugin result))
             | Some (Rejected message) => Some (errorResult message)
             | None => None
             end)
  end.

End WithRuntime.

(** *** The registered tools *)

Record Annotations := {
  readOnlyHint : bool;
  destructiveHint : bool
}.

Definition readOnly : Annotations :=
  {| readOnlyHint := true; destructiveHint := false |}.
Definition writeable : Annotations :=
  {| readOnlyHint := false; destructiveHint := false |}.

(** A tool: its name, the method its callback passes to [safeCall], the
    arguments the callback copies into the parameters of the command, and
    its annotations. *)
Record Tool := {
  tool_name : string;
  tool_method : string;
  tool_arguments : list string;
  annotations : Annotations
}.

Definition tools : list Tool :=
  [ (* Tier 1: Discovery *)
    {| tool_name := "forage_list_pages"; tool_method := "getPages";
       tool_arguments := []; annotations := readOnly |};
    {| tool_name := "forage_list_frames"; tool_method := "getFrames";
       tool_arguments := ["pageId"]; annotations := readOnly |};
    {| tool_name := "forage_get_selection"; tool_method := "getSelection";
       tool_arguments := []; annotations := readOnly |};
    (* Tier 2: Navigation *)
    {| tool_name := "forage_get_children"; tool_method := "getChildren";
       tool_arguments := ["nodeId"; "depth"]; annotations := readOnly |};
    {| tool_name := "forage_get_variants"; tool_method := "getVariants";
       tool_arguments := ["nodeId"]; annotations := readOnly |};
    {| tool_name := "forage_search_nodes"; tool_method := "searchNodes";
       tool_arguments := ["query"; "type"; "pageId"]; annotations := readOnly |};
    (* Tier 3: Detail *)
    {| tool_name := "forage_get_node_detail"; tool_method := "getNodeDetail";
       tool_arguments := ["nodeId"; "includeCss"]; annotations := readOnly |};
    {| tool_name := "forage_get_css"; tool_method := "getCss";
       tool_arguments := ["nodeId"]; annotations := readOnly |};
    {| tool_name := "forage_get_images"; tool_method := "getImages";
       tool_arguments := ["nodeId"; "format"; "scale"]; annotations := readOnly |};
    (* Tier 4: Design System *)
    {| tool_name := "forage_get_design_tokens"; tool_method := "getDesignTokens";
       tool_arguments := ["format"]; annotations := readOnly |};
    {| tool_name := "forage_get_variables"; tool_method := "getVariables";
       tool_arguments := []; annotations := readOnly |};
    {| tool_name := "forage_get_styles"; tool_method := "getStyles";
       tool_arguments := []; annotations := readOnly |};
    (* Tier 5: Intelligence *)
    {| tool_name := "forage_compare_variants"; tool_method := "compareVariants";
       tool_arguments := ["nodeIdA"; "nodeIdB"]; annotations := readOnly |};
    {| tool_name := "forage_find_reusable"; tool_method := "findReusable";
       tool_arguments := []; annotations := readOnly |};
    {| tool_name := "forage_find_similar"; tool_method := "findSimilar";
       tool_arguments := ["nodeId"; "threshold"]; annotations := readOnly |};
    {| tool_name := "forage_infer_states"; tool_method := "inferStates";
       tool_arguments := ["nodeId"]; annotations := readOnly |};
    {| tool_name := "forage_lint_naming"; tool_method := "lintNaming";
       tool_arguments := ["pageId"]; annotations := readOnly |};
    (* Tier 6: Annotations *)
    {| tool_name := "forage_get_annotations"; tool_method := "getAnnotations";
       tool_arguments := ["nodeId"]; annotations := readOnly |};
    {| tool_name := "forage_annotate_state"; tool_method := "annotateState";
       tool_arguments := ["nodeId"; "annotation"]; annotations := writeable |} ].

End Server.

(** ** The design system: variables, styles and design tokens *)

Module Tokens.
Import JS JSMore Figma Plugin.

(** *** What the file holds *)

(** A [VariableValue]: a boolean, a string, a number, a colour or the
    alias of another variable. *)
Inductive VariableValue :=
  | BooleanValue (b : bool)
  | StringValue (s : string)
  | NumberValue (x : float)
  | ColorValue (color : RGBA)
  | AliasValue (alias : string).

(** The mode of a collection. *)
Record Mode := {
  modeId : string;
  mode_name : string
}.

Record VariableCollection := {
  collection_id : string;
  collection_name : string;
  modes : list Mode
}.

(** A [Variable] of the file; [valuesByMode] lists the mode ids in the
    order of the object's keys. *)
Record FigmaVariable := {
  variable_id : string;
  variable_name : string;
  resolvedType : string;
  valuesByMode : list (string * VariableValue);
  scopes : list string;
  variableCollectionId : string
}.

Record FontName := {
  family : string;
  style : string
}.

(** A [LineHeight]: a number with its unit, or [AUTO]. *)
Inductive LineHeight :=
  | Pixels (v : float)
  | Percent (v : float)
  | Auto.

Record TextStyle := {
  style_id : string;
  style_name : string;
  style_fontSize : float;
  style_fontName : FontName;
  style_lineHeight : LineHeight;
  style_letterSpacing : value
}.

Record PaintStyle := {
  paint_style_id : string;
  paint_style_name : string;
  paints : list Paint
}.

Record EffectStyle := {
  effect_style_id : string;
  effect_style_name : string;
  style_effects : list Effect
}.

(** The local variables and styles of the file, as the calls of [figma]
    and [figma.variables] return them. *)
Record Library := {
  getLocalVariablesAsync : list FigmaVariable;
  getLocalVariableCollectionsAsync : list VariableCollection;
  getLocalPaintStylesAsync : list PaintStyle;
  getLocalTextStylesAsync : list TextStyle;
  getLocalEffectStylesAsync : list EffectStyle
}.

(** *** Built-ins *)

(** [o[key] = v] by assignment, for a [v] that is an object or a string:
    the key [__proto__] is the accessor of [Object.prototype] and creates
    no property of the object. *)
Definition obj_assign (o : obj) (key : string) (v : value) : obj :=
  if String.eqb key "__proto__" then o else obj_put o key v.

(** [s.replace(/\//g, "-")]. *)
Fixpoint dashed (s : string) : string :=
  match s with
  | EmptyString => EmptyString
  | String c s' =>
      if Ascii.eqb c "/"%char then String "-"%char (dashed s')
      else String c (dashed s')
  end.

(** [new Map(entries)]. *)
Definition new_Map {V : Type} (entries : list (string * V)) : list (string * V) :=
  foldl (fun m entry => Map_set m entry.1 entry.2) [] entries.

(** *** The values as the response carries them *)

Definition variable_value (v : VariableValue) : value :=
  match v with
  | BooleanValue b => VBool b
  | StringValue s => VStr s
  | NumberValue x => VNum x
  | ColorValue c =>
      VObj ([("r", VNum (red c)); ("g", VNum (green c)); ("b", VNum (blue c))]
              ++ match alpha c with
                 | Some a => [("a", VNum a)]
                 | None => []
                 end)
  | AliasValue alias => VObj [("type", VStr "VARIABLE_ALIAS"); ("id", VStr alias)]
  end.

Definition line_height_value (lh : LineHeight) : value :=
  match lh with
  | Pixels v => VObj [("unit", VStr "PIXELS"); ("value", VNum v)]
  | Percent v => VObj [("unit", VStr "PERCENT"); ("value", VNum v)]
  | Auto => VObj [("unit", VStr "AUTO")]
  end.

(** [v.valuesByMode[modeId]]. *)
Definition value_in_mode (v : FigmaVariable) (mode : string) : option VariableValue :=
  Map_get (valuesByMode v) mode.

(** [v.valuesByMode[Object.keys(v.valuesByMode)[0]]]; without a key the
    name read is [undefined], which is no key either. *)
Definition first_value (v : FigmaVariable) : option VariableValue :=
  match head (valuesByMode v).*1 with
  | Some firstMode => value_in_mode v firstMode
  | None => None
  end.

Section WithRuntime.
Context {R : Runtime}.

(** *** Tier 4: Design System *)

(** The loop over the modes of the variable's collection. *)
Definition mode_values (collectionMap : list (string * VariableCollection))
    (v : FigmaVariable) : obj :=
  let collection := Map_get collectionMap (variableCollectionId v) in
  let modes := match collection with
               | Some c => modes c
               | None => []
               end in
  foldl (fun values mode =>
           obj_assign values (mode_name mode)
             (match value_in_mode v (modeId mode) with
              | Some x => variable_value x
              | None => VUndefined
              end))
        [] modes.

Definition token (collectionMap : list (string * VariableCollection))
    (v : FigmaVariable) : value :=
  VObj [("name", VStr (variable_name v));
        ("type", VStr (resolvedType v));
        ("values", VObj (mode_values collectionMap v));
        ("scopes", VArr (VStr <$> scopes v))].

(** The groups [colors], [spacing] and [other] of the loop over the
    variables. *)
Record Groups := {
  colors : obj;
  spacing : obj;
  other : obj
}.

Definition file_token (collectionMap : list (string * VariableCollection))
    (g : Groups) (v : FigmaVariable) : Groups :=
  let token := token collectionMap v in
  if String.eqb (resolvedType v) "COLOR" then
    {| colors := obj_assign (colors g) (variable_name v) token;
       spacing := spacing g; other := other g |}
  else if String.eqb (resolvedType v) "FLOAT" then
    {| colors := colors g;
       spacing := obj_assign (spacing g) (variable_name v) token;
       other := other g |}
  else
    {| colors := colors g; spacing := spacing g;
       other := obj_assign (other g) (variable_name v) token |}.

Definition typography_entry (s : TextStyle) : value :=
  VObj [("name", VStr (style_name s));
        ("fontSize", VNum (style_fontSize s));
        ("fontFamily", VStr (family (style_fontName s)));
        ("fontWeight", VStr (style (style_fontName s)));
        ("lineHeight", line_height_value (style_lineHeight s));
        ("letterSpacing", style_letterSpacing s)].

(** The [lineHeight] text of both formats. *)
Definition line_height_text (lh : LineHeight) : string :=
  match lh with
  | Pixels v => ToString (VNum v) ++ "px"
  | Percent v => ToString (VNum v) ++ "%"
  | Auto => "normal"
  end.

(** The [colors] of [formatTailwind]. *)
Definition tailwind_colors (variables : list FigmaVariable) : obj :=
  foldl (fun colors v =>
           if String.eqb (resolvedType v) "COLOR" then
             match first_value v with
             | Some (ColorValue val) =>
                 obj_assign colors (dashed (variable_name v)) (VStr (rgbToHex val))
             | _ => colors
             end
           else colors)
        [] variables.

(** The [fontSize] of [formatTailwind]. *)
Definition tailwind_fontSize (textStyles : list TextStyle) : obj :=
  foldl (fun fontSize s =>
           obj_assign fontSize (dashed (style_name s))
             (VArr [VStr (ToString (VNum (style_fontSize s)) ++ "px");
                    VObj [("lineHeight", VStr (line_height_text (style_lineHeight s)));
                          ("fontWeight", VStr (style (style_fontName s)))]]))
        [] textStyles.

Definition formatTailwind (raw : obj) (variables : list FigmaVariable)
    (textStyles : list TextStyle) : obj :=
  [("format", VStr "tailwind");
   ("theme", VObj [("colors", VObj (tailwind_colors variables));
                   ("fontSize", VObj (tailwind_fontSize textStyles))])].

(** The custom property [formatCss] pushes for a variable, if it pushes
    one. *)
Definition css_variable (v : FigmaVariable) : option string :=
  if String.eqb (resolvedType v) "COLOR" then
    match first_value v with
    | Some (ColorValue val) =>
        Some ("  --" ++ dashed (variable_name v) ++ ": " ++ rgbToHex val ++ ";")
    | _ => None
    end
  else if String.eqb (resolvedType v) "FLOAT" then
    match first_value v with
    | Some (NumberValue val) =>
        Some ("  --" ++ dashed (variable_name v) ++ ": " ++ ToString (VNum val) ++ "px;")
    | _ => None
    end
  else None.

(** The custom property [formatCss] pushes for a text style. *)
Definition css_font (s : TextStyle) : string :=
  "  --font-" ++ dashed (style_name s) ++ ": " ++ style (style_fontName s) ++ " "
    ++ ToString (VNum (style_fontSize s)) ++ "px/"
    ++ line_height_text (style_lineHeight s)
    ++ " '" ++ family (style_fontName s) ++ "';".

(** The [properties] of [formatCss]. *)
Definition css_properties (variables : list FigmaVariable)
    (textStyles : list TextStyle) : list string :=
  (omap css_variable variables ++ map css_font textStyles)%list.

Definition formatCss (raw : obj) (variables : list FigmaVariable)
    (textStyles : list TextStyle) : obj :=
  [("format", VStr "css");
   ("css", VStr (":root {" ++ newline
                   ++ join newline (css_properties variables textStyles)
                   ++ newline ++ "}"))].

(** [handleGetDesignTokens]; [format] is [params.format]. *)
Definition handleGetDesignTokens (figma : Library) (format : option string) : obj :=
  let format := default "json" format in
  let variables := getLocalVariablesAsync figma in
  let paintStyles := getLocalPaintStylesAsync figma in
  let textStyles := getLocalTextStylesAsync figma in
  let effectStyles := getLocalEffectStylesAsync figma in
  let collections := getLocalVariableCollectionsAsync figma in
  let collectionMap := new_Map (map (fun c => (collection_id c, c)) collections) in
  (* Build structured token data *)
  let groups :=
    foldl (file_token collectionMap)
          {| colors := []; spacing := []; other := [] |} variables in
  let typography :=
    foldl (fun typography s => obj_assign typography (style_name s) (typography_entry s))
          [] textStyles in
  let raw := [("colors", VObj (colors groups));
              ("spacing", VObj (spacing groups));
              ("typography", VObj typography);
              ("paintStyles", VNum (nat2float (length paintStyles)));
              ("effectStyles", VNum (nat2float (length effectStyles)));
              ("other", VObj (other groups))] in
  if String.eqb format "tailwind" then formatTailwind raw variables textStyles
  else if String.eqb format "css" then formatCss raw variables textStyles
  else raw.

(** [handleGetVariables]. *)
Definition handleGetVariables (figma : Library) : list value :=
  let variables := getLocalVariablesAsync figma in
  let collections := getLocalVariableCollectionsAsync figma in
  let collectionMap := new_Map (map (fun c => (collection_id c, c)) collections) in
  map (fun v =>
         let collection := Map_get collectionMap (variableCollectionId v) in
         VObj [("id", VStr (variable_id v));
               ("name", VStr (variable_name v));
               ("resolvedType", VStr (resolvedType v));
               ("valuesByMode", VObj (mode_values collectionMap v));
               ("scopes", VArr (VStr <$> scopes v));
               ("collectionName",
                match collection with
                | Some c => VStr (collection_name c)
                | None => VUndefined
                end)])
      variables.

End WithRuntime.
End Tokens.


(** ** Vocabulary of the bridge's properties *)

Module BridgeSpec.
Import JS Bridge.

(** How many times a [resolve] or [reject] of promise [p] was called. *)
Definition settlements (p : Promise) (s : State) : nat :=
  length (filter (fun call => call.1 = p) (settled s)).

(** A response whose error the bridge cannot write into the message of
    an [Error]: the [code] or the [message] of the error is an object
    with a property [toString] of its own, or an array that holds one.
    The type [ForageResponse] has strings there. *)
Definition unconvertible (response : value) : bool :=
  truthy (prop response "error")
  && negb (convertible (prop (prop response "error") "code")
           && convertible (prop (prop response "error") "message")).

Section WithRuntime.
Context {R : Runtime}.

(** The states a bridge can be in. *)
Inductive reachable : State -> Prop :=
  | reachable_init : reachable init
  | reachable_step s ev : reachable s -> reachable (step ev s).

(** The events that can take an entry from the map without settling its
    promise: a call of [close()], and a frame that holds a response whose
    error cannot be converted. *)
Definition forgets (ev : Event) : bool :=
  match ev with
  | EvShutdown => true
  | EvMessage _ data =>
      match JSON_parse data with
      | Some response => unconvertible response
      | None => false
      end
  | _ => false
  end.


End WithRuntime.

(** One entry of the map meets its end: its timeout is cleared, it is
    deleted, and its promise is settled with [outcome]. *)
Definition settle (id : string) (req : PendingRequest) (outcome : Settlement)
    (s : State) : State :=
  with_settled (settled s ++ [(promise req, outcome)])%list
    (delete_pending id (clearTimeout (timer req) s)).

(** One entry of the map is deleted and its timeout cleared, and its
    promise is left as it is. *)
Definition forget (id : string) (req : PendingRequest) (s : State) : State :=
  delete_pending id (clearTimeout (timer req) s).

(** The call the [close] handler makes for an entry. *)
Definition disconnect_call (entry : string * PendingRequest)
  : Promise * Settlement :=
  (promise entry.2, Rejected "Figma plugin disconnected").

(** The loop of the [close] handler and the loop of [close()], over any
    list of entries. *)
Definition reject_loop (l : list (string * PendingRequest)) (s : State) : State :=
  foldl (fun s entry =>
           let '(id, req) := entry in
           let s := clearTimeout (timer req) s in
           let s := reject (promise req) "Figma plugin disconnected" s in
           delete_pending id s)
        s l.

Definition clear_loop (l : list (string * PendingRequest)) (s : State) : State :=
  foldl (fun s entry => clearTimeout (timer entry.2) s) s l.

(** The sockets the bridge knows are those the server accepted. *)
Record sockets_ok (s : State) : Prop := {
  known_accepted : forall ws,
    is_Some (readyState s !! ws) -> ws < socketsAccepted s;
  plugin_accepted : forall ws, plugin s = Some ws -> ws < socketsAccepted s
}.

(** The pending entries and the timeouts that are set mirror each other,
    and an entry's promise has not been settled. *)
Record consistent (s : State) : Prop := {
  keys_once : NoDup (pendingRequests s).*1;
  entry_timer : forall id req,
    Map_get (pendingRequests s) id = Some req ->
    exists task, timers s !! timer req = Some task
                 /\ task_id task = id /\ task_reject task = promise req;
  timer_entry : forall t task,
    timers s !! t = Some task ->
    Map_get (pendingRequests s) (task_id task)
    = Some {| promise := task_reject task; timer := t |};
  timer_promise : forall t task,
    timers s !! t = Some task ->
    task_reject task = t /\ t < timersSet s
    /\ settlements (task_reject task) s = 0;
  made_together : timersSet s = promisesMade s;
  ids_issued : forall id,
    id ∈ (pendingRequests s).*1 -> exists k : N, id = pretty k /\ (k <= nextId s)%N;
  settled_once : forall p, settlements p s <= 1;
  settled_made : forall p, 0 < settlements p s -> p < promisesMade s
}.


End BridgeSpec.

(** ** The projection as a table *)

Module ProjectionTable.
Import JS Figma Plugin.

(** A slot is a key with the value assigned to it, if any. *)
Definition assign_all (slots : list (string * option value)) (o : obj) : obj :=
  foldl (fun o slot => match slot.2 with
                       | Some v => obj_set o slot.1 v
                       | None => o
                       end) o slots.

(** The members a list of slots contributes. *)
Definition present (slots : list (string * option value)) : obj :=
  omap (fun slot => pair slot.1 <$> slot.2) slots.

Definition when (c : bool) (v : value) : option value :=
  if c then Some v else None.

Definition single {A : Type} (m : mixed A) : option A :=
  match m with
  | Single x => Some x
  | Mixed => None
  end.

Section WithRuntime.
Context {R : Runtime}.

Definition identity (node : SceneNode) : obj :=
  [("id", VStr (id node)); ("name", VStr (name node)); ("type", VStr (type node))].

Definition visibility_slots (node : SceneNode) : list (string * option value) :=
  [("visible", when (negb (visible node)) (VBool false))].

Definition size_slots (node : SceneNode) : list (string * option value) :=
  [("width", (fun w => VNum (Math_round w)) <$> width node);
   ("height", (fun h => VNum (Math_round h)) <$> height node)].

Definition childrenCount_slots (simplifyChild : SceneNode -> obj)
    (node : SceneNode) (includeChildren : bool) : list (string * option value) :=
  [("childCount", (fun cs => VNum (nat2float (length cs))) <$> children node);
   ("children",
    cs ← children node;
    when includeChildren (VArr (map (fun c => VObj (simplifyChild c)) cs)))].

Definition autoLayout_slots (node : SceneNode) : list (string * option value) :=
  let frame :=
    f ← autoLayout node;
    if negb (String.eqb (layoutMode f) "NONE") then Some f else None in
  [("layoutMode", (fun f => VStr (layoutMode f)) <$> frame);
   ("primaryAxisAlignItems", (fun f => VStr (primaryAxisAlignItems f)) <$> frame);
   ("counterAxisAlignItems", (fun f => VStr (counterAxisAlignItems f)) <$> frame);
   ("paddingLeft", (fun f => VNum (paddingLeft f)) <$> frame);
   ("paddingRight", (fun f => VNum (paddingRight f)) <$> frame);
   ("paddingTop", (fun f => VNum (paddingTop f)) <$> frame);
   ("paddingBottom", (fun f => VNum (paddingBottom f)) <$> frame);
   ("itemSpacing", (fun f => VNum (itemSpacing f)) <$> frame);
   ("counterAxisSpacing", f ← frame; VNum <$> counterAxisSpacing f)].

Definition layoutChild_slots (node : SceneNode) : list (string * option value) :=
  [("layoutAlign",
    c ← layoutChild node;
    when (negb (String.eqb (layoutAlign c) "INHERIT")) (VStr (layoutAlign c)));
   ("layoutGrow",
    c ← layoutChild node;
    when (negb (num_eq (layoutGrow c) 0)) (VNum (layoutGrow c)))].

Definition componentInfo_slots (node : SceneNode) : list (string * option value) :=
  [("isComponent", when (String.eqb (type node) "COMPONENT") (VBool true));
   ("isComponentSet", when (String.eqb (type node) "COMPONENT_SET") (VBool true));
   ("isInstance", when (String.eqb (type node) "INSTANCE") (VBool true));
   ("mainComponentId",
    when (String.eqb (type node) "INSTANCE")
         (match mainComponent node with
          | Some i => VStr i
          | None => VUndefined
          end))].

Definition variantProps_slots (node : SceneNode) : list (string * option value) :=
  [("variantProperties",
    match variantProperties node with
    | Some (Some props) => Some (VObj (map (fun kv => (kv.1, VStr kv.2)) props))
    | _ => None
    end)].

Definition componentProps_slots (node : SceneNode) : list (string * option value) :=
  [("componentProperties",
    defs ← componentPropertyDefinitions node;
    when (0 <? length (Object_keys defs))%nat (VObj defs))].

Definition paints_slot (paints : list Paint) : option value :=
  let shown := List.filter (fun f => not_hidden (paint_visible f)) paints in
  when (0 <? length shown)%nat (VArr (map (fun f => VObj (simplifyPaint f)) shown)).

Definition fills_slots (node : SceneNode) : list (string * option value) :=
  [("fills", match fills node with
             | Some (Single paints) => paints_slot paints
             | _ => None
             end)].

Definition strokes_slots (node : SceneNode) : list (string * option value) :=
  [("strokes", strokes node ≫= paints_slot)].

Definition effects_slots (node : SceneNode) : list (string * option value) :=
  [("effects",
    es ← effects node;
    let shown := List.filter (fun e => not_hidden (effect_visible e)) es in
    when (0 <? length shown)%nat (VArr (map (fun e => VObj (simplifyEffect e)) shown)))].

Definition opacity_slots (node : SceneNode) : list (string * option value) :=
  [("opacity", o ← opacity node; when (negb (num_eq o 1)) (VNum o))].

Definition cornerRadius_slots (node : SceneNode) : list (string * option value) :=
  [("cornerRadius",
    r ← corner node;
    match cornerRadius r with
    | Single x => when (0 <? x)%float (VNum x)
    | Mixed => None
    end);
   ("borderRadius",
    r ← corner node;
    match cornerRadius r with
    | Single _ => None
    | Mixed =>
        Some (VStr (ToString (opt_num (topLeftRadius r)) ++ " "
                    ++ ToString (opt_num (topRightRadius r)) ++ " "
                    ++ ToString (opt_num (bottomRightRadius r)) ++ " "
                    ++ ToString (opt_num (bottomLeftRadius r))))
    end)].

Definition text_slots (node : SceneNode) : list (string * option value) :=
  let t := text node in
  let on := String.eqb (type node) "TEXT" in
  [("textContent", when on (VStr (characters t)));
   ("fontSize", if on then VNum <$> single (fontSize t) else None);
   ("fontName", if on then single (fontName t) else None);
   ("fontWeight", if on then VNum <$> single (fontWeight t) else None);
   ("lineHeight", if on then single (lineHeight t) else None);
   ("letterSpacing", if on then single (letterSpacing t) else None);
   ("textAlignHorizontal", when on (VStr (textAlignHorizontal t)));
   ("textAlignVertical", when on (VStr (textAlignVertical t)))].

(** All the slots of a projection, in the order of the source. *)
Definition slots (node : SceneNode) (includeChildren : bool)
  : list (string * option value) :=
  (visibility_slots node ++ size_slots node
   ++ childrenCount_slots (fun c => simplifyNode c false) node includeChildren
   ++ autoLayout_slots node ++ layoutChild_slots node
   ++ componentInfo_slots node ++ variantProps_slots node
   ++ componentProps_slots node ++ fills_slots node ++ strokes_slots node
   ++ effects_slots node ++ opacity_slots node ++ cornerRadius_slots node
   ++ text_slots node)%list.

End WithRuntime.

(** The keys a projection can have besides [id], [name] and [type], in
    the order in which it has them. *)
Definition attribute_keys : list string :=
  ["visible"; "width"; "height"; "childCount"; "children";
   "layoutMode"; "primaryAxisAlignItems"; "counterAxisAlignItems";
   "paddingLeft"; "paddingRight"; "paddingTop"; "paddingBottom";
   "itemSpacing"; "counterAxisSpacing"; "layoutAlign"; "layoutGrow";
   "isComponent"; "isComponentSet"; "isInstance"; "mainComponentId";
   "variantProperties"; "componentProperties"; "fills"; "strokes";
   "effects"; "opacity"; "cornerRadius"; "borderRadius";
   "textContent"; "fontSize"; "fontName"; "fontWeight"; "lineHeight";
   "letterSpacing"; "textAlignHorizontal"; "textAlignVertical"].

End ProjectionTable.

(** ** Vocabulary of the navigator's properties *)

Module NavigatorSpec.
Import JS Figma Plugin.

(** The values found [k] levels down the [children] arrays of [v]. *)
Fixpoint descend (k : nat) (v : value) : list value :=
  match k with
  | O => [v]
  | S k' =>
      match v with
      | VObj o =>
          match obj_get o "children" with
          | VArr xs => concat (map (descend k') xs)
          | _ => []
          end
      | _ => []
      end
  end.

(** The nodes found [k] levels down the [children] of [node]. *)
Fixpoint descendants (k : nat) (node : SceneNode) : list SceneNode :=
  match k with
  | O => [node]
  | S k' =>
      match children node with
      | Some cs => concat (map (descendants k') cs)
      | None => []
      end
  end.

Section WithRuntime.
Context {R : Runtime}.

(** [getChildrenAtDepth] with the levels left counted by a natural. *)
Fixpoint expand (j : nat) (n : SceneNode) : obj :=
  match j with
  | O => simplifyNode n false
  | S j' =>
      match children n with
      | Some ch =>
          obj_set (simplifyNode n false) "children"
            (VArr (map (fun c => VObj (expand j' c)) ch))
      | None => simplifyNode n false
      end
  end.

End WithRuntime.
End NavigatorSpec.

(** ** Vocabulary of the differ's and the scorer's properties *)

Module ScorerSpec.
Import JS Figma Plugin.

Section WithRuntime.
Context {R : Runtime}.

(** The keys of [keys] under which [a] and [b] serialize differently. *)
Definition differing (a b : obj) (keys : list string) : list string :=
  List.filter (fun k => negb (same_json (obj_get a k) (obj_get b k))) keys.

(** The member the differ reports under [key]. *)
Definition difference (a b : obj) (key : string) : string * value :=
  (key, VObj [("a", obj_get a key); ("b", obj_get b key)]).

(** The keys the scorer's loop counts: all but [id], [name] and
    [children]. *)
Definition counted (a b : obj) : list string :=
  List.filter (fun k => negb (includes ["id"; "name"; "children"] k))
              (new_Set (Object_keys a ++ Object_keys b)%list).

(** The counted keys under which [a] and [b] serialize alike. *)
Definition agreeing (a b : obj) : list string :=
  List.filter (fun k => same_json (obj_get a k) (obj_get b k)) (counted a b).

(** Modelled from the spec: the score as the design document words it.
    The attribute keys of a projection are its keys other than the
    identity keys [id], [name], [type] and the child-count key; the score
    is the number of attribute keys under which both projections
    serialize alike, divided by the number of attribute keys of either,
    and 0 when there is none. *)
Definition documented_similarity (a b : obj) : float :=
  let attributes o :=
    List.filter (fun k => negb (includes ["id"; "name"; "type"; "childCount"] k))
                (Object_keys o) in
  let union := new_Set (attributes a ++ attributes b)%list in
  let equal :=
    List.filter (fun k => same_json (obj_get a k) (obj_get b k)) union in
  if (0 <? length union)%nat
  then (nat2float (length equal) / nat2float (length union))%float
  else 0%float.

(** The entry [handleFindSimilar] keeps for a candidate. *)
Definition scored (target : obj) (threshold : float) (candidate : SceneNode)
  : option Similar :=
  let simplified := simplifyNode candidate false in
  let similarity := computeSimilarity target simplified in
  if (threshold <=? similarity)%float
  then Some {| similar_node := simplified;
               similarity := (Math_round (similarity * 100) / 100)%float |}
  else None.

End WithRuntime.
End ScorerSpec.

(** ** Vocabulary of the further properties *)

Module BridgeMoreSpec.
Import JS Bridge.

(** The ids of the frames written so far. *)
Definition frame_ids (s : State) : list string :=
  (fun frame => command_id frame.2) <$> sent s.

(** The ids [String(1)], ..., [String(n)]. *)
Definition issued (n : nat) : list string :=
  (fun k => pretty (N.of_nat (S k))) <$> seq 0 n.

(** The promise [p] was made and no entry holds it. *)
Definition detached (p : Promise) (s : State) : Prop :=
  p < promisesMade s
  /\ forall id req, Map_get (pendingRequests s) id = Some req -> promise req <> p.

End BridgeMoreSpec.

Module HandlersSpec.
Import JS JSMore Figma Plugin Handlers.

Section WithRuntime.
Context {R : Runtime}.

(** The nodes [handleSearchNodes] looks for: those of the type asked
    for whose name, in lower case, contains the query in lower case. *)
Definition sought (query type : option string) (n : SceneNode) : bool :=
  match given type with
  | Some t => String.eqb (Figma.type n) t
  | None => true
  end
  && match given query with
     | Some q => String_includes (String_toLowerCase q) (String_toLowerCase (name n))
     | None => true
     end.

End WithRuntime.

(** A node whose name one of the patterns of the lint matches. *)
Definition generic (n : SceneNode) : bool :=
  existsb (fun pattern => test_generic pattern (name n)) genericPatterns.

(** The instances of the component [compId] among [instances]. *)
Definition instances_of (compId : string) (instances : list SceneNode)
  : list SceneNode :=
  List.filter (fun i => bool_decide (mainComponent i = Some compId)) instances.

(** The usage the loop of [handleFindReusable] holds for the instances
    [found] of [compId], the first of which names the component. *)
Definition usage_of (mainComponentName : SceneNode -> string) (compId : string)
    (found : list SceneNode) : option Usage :=
  match found with
  | [] => None
  | first :: _ =>
      Some {| component := (compId, mainComponentName first);
              count := length found;
              instanceIds := id <$> found |}
  end.

(** A string whose last character is a decimal digit. *)
Definition ends_in_digit (s : string) : Prop :=
  exists front d, s = front ++ String d "" /\ is_decimal_digit d = true.

(** A string of decimal digits, at least one. *)
Fixpoint decimal (s : string) : bool :=
  match s with
  | EmptyString => false
  | String c EmptyString => is_decimal_digit c
  | String c s' => is_decimal_digit c && decimal s'
  end.

(** The sources the first two steps of [handleInferStates] record. *)
Definition early_sources (node : SceneNode) : list string :=
  ((if String.eqb (Figma.type node) "COMPONENT_SET" then ["variant-names"] else [])
   ++ match reactions node with
      | Some rs => if (0 <? length rs)%nat then ["prototype-reactions"] else []
      | None => []
      end)%list.

(** The step of the loop over the pairs of a variant's name. *)
Definition add_state (states : list string) (pair : string) : list string :=
  match split "=" pair with
  | _ :: value :: _ =>
      if negb (String.eqb value "") then
        let normalized := trim value in
        if includes states normalized then states
        else (states ++ [normalized])%list
      else states
  | _ => states
  end.

(** The state a pair names. *)
Definition names_state (pair s : string) : Prop :=
  exists value, split "=" pair !! 1 = Some value /\ value <> "" /\ s = trim value.

(** The character [c] occurs in [s]. *)
Definition occurs (c : ascii) (s : string) : Prop :=
  c ∈ list_ascii_of_string s.

End HandlersSpec.

Module TokensSpec.
Import JS JSMore Figma Plugin Tokens.

(** The last element of [l] that [select] keeps and whose key is [k]. *)
Definition last_with {A : Type} (key : A -> string) (select : A -> bool)
    (l : list A) (k : string) : option A :=
  List.find (fun a => select a && String.eqb (key a) k) (rev l).

Definition is_color (v : FigmaVariable) : bool := String.eqb (resolvedType v) "COLOR".
Definition is_float (v : FigmaVariable) : bool := String.eqb (resolvedType v) "FLOAT".
Definition is_other (v : FigmaVariable) : bool := negb (is_color v) && negb (is_float v).

(** The collections by their id. *)
Definition collections_of (figma : Library) : list (string * VariableCollection) :=
  new_Map (map (fun c => (collection_id c, c)) (getLocalVariableCollectionsAsync figma)).

(** The collection of a variable: the last of the file's collections
    that has the id the variable names. *)
Definition collection_of (figma : Library) (v : FigmaVariable)
  : option VariableCollection :=
  last_with collection_id (fun _ => true) (getLocalVariableCollectionsAsync figma)
            (variableCollectionId v).

(** The value a variable has under the mode name [k]: its value in the
    last mode of [modes] that has the name. *)
Definition value_by_name (v : FigmaVariable) (modes : list Mode) (k : string)
  : value :=
  if String.eqb k "__proto__" then VUndefined
  else match last_with mode_name (fun _ => true) modes k with
       | Some mode =>
           match value_in_mode v (modeId mode) with
           | Some x => variable_value x
           | None => VUndefined
           end
       | None => VUndefined
       end.

(** What a group of tokens holds under the key [k], the variables of
    the group being those [select] keeps. *)
Definition filed (figma : Library) (select : FigmaVariable -> bool) (k : string)
  : value :=
  if String.eqb k "__proto__" then VUndefined
  else match last_with variable_name select (getLocalVariablesAsync figma) k with
       | Some v => token (collections_of figma) v
       | None => VUndefined
       end.

(** What [typography] holds under the key [k]. *)
Definition set_in_type (figma : Library) (k : string) : value :=
  if String.eqb k "__proto__" then VUndefined
  else match last_with style_name (fun _ => true) (getLocalTextStylesAsync figma) k with
       | Some s => typography_entry s
       | None => VUndefined
       end.

Section WithRuntime.
Context {R : Runtime}.

(** The entry a variable gives the colours of the Tailwind theme, if it
    gives one. *)
Definition color_entry (v : FigmaVariable) : option (string * value) :=
  if String.eqb (resolvedType v) "COLOR" then
    match first_value v with
    | Some (ColorValue val) => Some (dashed (variable_name v), VStr (rgbToHex val))
    | _ => None
    end
  else None.

(** The entry a text style gives the font sizes of the Tailwind
    theme. *)
Definition font_entry (s : TextStyle) : option (string * value) :=
  Some (dashed (style_name s),
        VArr [VStr (ToString (VNum (style_fontSize s)) ++ "px");
              VObj [("lineHeight", VStr (line_height_text (style_lineHeight s)));
                    ("fontWeight", VStr (style (style_fontName s)))]]).

End WithRuntime.
End TokensSpec.


(** ** Data of the worked examples *)

Module ExampleData.
Import JS Figma Plugin Bridge.

Abbreviation reference := ReferenceRuntime.runtime.

(** The bridge after a plugin connected and one request was sent. *)
Definition one_pending : State :=
  run (R := reference)
      [EvConnection; EvSend "getPages" None] init.

(** The bridge with one live connection and nothing pending. *)
Definition connected_once : State :=
  run (R := reference) [EvConnection] init.

Definition no_text : TextProps :=
  {| characters := ""; fontSize := Mixed; fontName := Mixed;
     fontWeight := Mixed; lineHeight := Mixed; letterSpacing := Mixed;
     textAlignHorizontal := "LEFT"; textAlignVertical := "TOP" |}.

(** A node with the three identity properties, visible, and nothing
    else; [data] is what [getSharedPluginData] returns for every key. *)
Definition bare (i n t data : string) : SceneNode :=
  {| id := i; name := n; type := t; visible := true;
     width := None; height := None; children := None;
     autoLayout := None; layoutChild := None; mainComponent := None;
     variantProperties := None; componentPropertyDefinitions := None;
     fills := None; strokes := None; effects := None; opacity := None;
     corner := None; text := no_text; reactions := None;
     getSharedPluginData := fun _ _ => data |}.

(** The same with a size, an opacity and children. *)
Definition container (i n t data : string) (w h o : float)
    (cs : list SceneNode) : SceneNode :=
  {| id := i; name := n; type := t; visible := true;
     width := Some w; height := Some h; children := Some cs;
     autoLayout := None; layoutChild := None; mainComponent := None;
     variantProperties := None; componentPropertyDefinitions := None;
     fills := None; strokes := None; effects := None; opacity := Some o;
     corner := None; text := no_text; reactions := None;
     getSharedPluginData := fun _ _ => data |}.

(** A document of one page with the given top-level nodes. *)
Definition document (nodes : list SceneNode) : API :=
  let page := {| page_id := "0:1"; page_name := "Page 1";
                 page_children := nodes |} in
  {| getNodeByIdAsync := fun i =>
       if String.eqb i "0:0" then Some IsDocument
       else if String.eqb i "0:1" then Some (IsPage page)
       else IsScene <$> List.find (fun n => String.eqb (id n) i)
                                  (concat (map subtree nodes));
     currentPage := page |}.

(** Two frames with nothing but their identity. *)
Definition plainA : SceneNode := bare "1:1" "Card" "FRAME" "".
Definition plainB : SceneNode := bare "1:2" "Card copy" "FRAME" "".

(** A tree four levels deep. *)
Definition leaf4 : SceneNode := bare "2:4" "Label" "RECTANGLE" "".
Definition level3 : SceneNode := container "2:3" "Row" "FRAME" "" 80 20 1 [leaf4].
Definition level2 : SceneNode := container "2:2" "Body" "FRAME" "" 90 40 1 [level3].
Definition level1 : SceneNode := container "2:1" "Card" "FRAME" "" 100.4 60.5 0.5 [level2].
Definition tree : SceneNode := container "2:0" "Screen" "FRAME" "" 320 640 1 [level1].

(** Two variants that differ in size and opacity. *)
Definition variantA : SceneNode :=
  container "3:1" "State=Default" "COMPONENT" "" 120 40 1 [].
Definition variantB : SceneNode :=
  container "3:2" "State=Hover" "COMPONENT" "" 120 44 0.8 [].

(** Component sets; [data] is the text stored under the annotation
    key. *)
Definition buttonSet (data : string) : SceneNode :=
  container "3:0" "Button" "COMPONENT_SET" data 300 100 1 [variantA; variantB].

Definition hoverFocusSet : SceneNode :=
  container "4:0" "Field" "COMPONENT_SET" "" 300 100 1
    [container "4:1" "State=Hover" "COMPONENT" "" 120 40 1 [];
     container "4:2" "State=Focus" "COMPONENT" "" 120 40 1 []].

End ExampleData.

(** ** Data of the further examples *)

Module MoreData.
Import JS JSMore Figma Plugin Bridge Handlers Tokens Server ExampleData.


Definition answer : value := VObj [("id", VStr "1"); ("result", VBool true)].

(** A handler that finds no node. *)
Definition not_found : ForageError :=
  {| code := "NODE_NOT_FOUND"; message := "Node not found: 9:9" |}.

Definition failing (method : string) (params : option value) : Outcome :=
  Throws (thrown not_found).

Definition first_command : ForageCommand :=
  {| command_id := "1"; command_method := "getChildren";
     command_params := Some (VObj [("nodeId", VStr "9:9")]) |}.

Definition failure : value :=
  VObj [("id", VStr "1"); ("type", VStr "response");
        ("error", VObj [("code", VStr "NODE_NOT_FOUND");
                        ("message", VStr "[object Object]")])].

Definition failure_text : string :=
  default "" (JSON_stringify (R := reference) failure).

(** An annotation that names one state and one transition. *)
Definition rules_text : string :=
  "{" ++ JSON_quote "states" ++ ":[" ++ JSON_quote "Loading" ++ "],"
      ++ JSON_quote "transitions" ++ ":[{" ++ JSON_quote "from" ++ ":"
      ++ JSON_quote "Default" ++ "," ++ JSON_quote "to" ++ ":"
      ++ JSON_quote "Loading" ++ "," ++ JSON_quote "trigger" ++ ":"
      ++ JSON_quote "ON_CLICK" ++ "}]}".

Definition rules : value :=
  VObj [("states", VArr [VStr "Loading"]);
        ("transitions",
         VArr [VObj [("from", VStr "Default"); ("to", VStr "Loading");
                     ("trigger", VStr "ON_CLICK")]])].



(** A file with one collection of two modes, a colour, a spacing and a
    text style. *)
Definition themes : VariableCollection :=
  {| collection_id := "VariableCollectionId:1:1"; collection_name := "Themes";
     modes := [ {| modeId := "1:0"; mode_name := "Light" |};
                {| modeId := "1:1"; mode_name := "Dark" |} ] |}.

Definition brand : FigmaVariable :=
  {| variable_id := "VariableID:1:2"; variable_name := "brand/primary";
     resolvedType := "COLOR";
     valuesByMode :=
       [("1:0", ColorValue {| red := 1; green := 0.5; blue := 0; alpha := Some 1%float |});
        ("1:1", AliasValue "VariableID:1:9")];
     scopes := ["ALL_SCOPES"];
     variableCollectionId := "VariableCollectionId:1:1" |}.

Definition gap : FigmaVariable :=
  {| variable_id := "VariableID:1:3"; variable_name := "space/gap";
     resolvedType := "FLOAT";
     valuesByMode := [("1:0", NumberValue 8); ("1:1", NumberValue 8)];
     scopes := ["GAP"];
     variableCollectionId := "VariableCollectionId:1:1" |}.

Definition heading : TextStyle :=
  {| style_id := "S:1"; style_name := "heading/large"; style_fontSize := 24;
     style_fontName := {| family := "Inter"; style := "Bold" |};
     style_lineHeight := Pixels 32;
     style_letterSpacing := VObj [("unit", VStr "PERCENT"); ("value", VNum 0)] |}.

Definition palette : Library :=
  {| getLocalVariablesAsync := [brand; gap];
     getLocalVariableCollectionsAsync := [themes];
     getLocalPaintStylesAsync := [];
     getLocalTextStylesAsync := [heading];
     getLocalEffectStylesAsync := [] |}.

End MoreData.


(** * Properties *)

(** ** Maps and objects *)

Module JSFacts.
Import JS.

Section Maps.
Context {V : Type}.
Implicit Types (m : list (string * V)) (k : string) (v : V).

Lemma Map_get_set_eq m k v : Map_get (Map_set m k v) k = Some v.
Proof.
  induction m as [|[k' w] m IH]; simpl.
  - by rewrite String.eqb_refl.
  - destruct (String.eqb_spec k' k) as [->|Hne]; simpl.
    + by rewrite String.eqb_refl.
    + by destruct (String.eqb_spec k' k).
Qed.

Lemma Map_get_set_ne m k k' v :
  k ≠ k' → Map_get (Map_set m k v) k' = Map_get m k'.
Proof.
  intros Hne. induction m as [|[k0 w] m IH]; simpl.
  - by destruct (String.eqb_spec k k').
  - destruct (String.eqb_spec k0 k) as [->|Hk]; simpl.
    + by destruct (String.eqb_spec k k').
    + by rewrite IH.
Qed.

Lemma Map_get_delete_eq m k : Map_get (Map_delete m k) k = None.
Proof.
  induction m as [|[k0 w] m IH]; simpl; [done|].
  destruct (String.eqb_spec k0 k) as [->|Hk]; simpl; [done|].
  by destruct (String.eqb_spec k0 k).
Qed.

Lemma Map_get_delete_ne m k k' :
  k ≠ k' → Map_get (Map_delete m k) k' = Map_get m k'.
Proof.
  intros Hne. induction m as [|[k0 w] m IH]; simpl; [done|].
  destruct (String.eqb_spec k0 k) as [->|Hk]; simpl.
  - by destruct (String.eqb_spec k k').
  - by rewrite IH.
Qed.

Lemma Map_get_elem m k v : Map_get m k = Some v → (k, v) ∈ m.
Proof.
  induction m as [|[k0 w] m IH]; simpl; [done|].
  destruct (String.eqb_spec k0 k) as [->|Hk].
  - intros [= ->]. left.
  - intros H. right. by apply IH.
Qed.

Lemma Map_get_key m k : is_Some (Map_get m k) ↔ k ∈ m.*1.
Proof.
  induction m as [|[k0 w] m IH]; simpl.
  - split; [by intros [? ?]|by intros ?%elem_of_nil].
  - destruct (String.eqb_spec k0 k) as [->|Hk].
    + split; [intros _; left|by eauto].
    + rewrite IH. split; [by right|].
      intros [?|?]%elem_of_cons; [congruence|done].
Qed.

Lemma Map_get_NoDup m k v :
  NoDup m.*1 → (k, v) ∈ m → Map_get m k = Some v.
Proof.
  induction m as [|[k0 w] m IH]; simpl.
  - by intros _ ?%elem_of_nil.
  - intros [Hk0 Hm]%NoDup_cons [Heq|Hin]%elem_of_cons.
    + injection Heq as -> ->. by rewrite String.eqb_refl.
    + destruct (String.eqb_spec k0 k) as [->|Hk]; [|by apply IH].
      exfalso. apply Hk0. apply list_elem_of_fmap. by exists (k, v).
Qed.

Lemma Map_set_fresh m k v :
  k ∉ m.*1 → Map_set m k v = (m ++ [(k, v)])%list.
Proof.
  induction m as [|[k0 w] m IH]; [done|].
  rewrite fmap_cons, not_elem_of_cons. intros [Hk Hm]. simpl in *.
  destruct (String.eqb_spec k0 k) as [->|_]; [done|].
  by rewrite IH.
Qed.

Lemma Map_delete_elem m k kv :
  kv ∈ Map_delete m k ↔ kv ∈ m ∧ kv.1 ≠ k.
Proof.
  unfold Map_delete. rewrite !list_elem_of_In, filter_In, negb_true_iff.
  destruct (String.eqb_spec kv.1 k); intuition congruence.
Qed.

Lemma Map_delete_sublist m k : sublist (Map_delete m k) m.
Proof.
  induction m as [|kv m IH]; simpl; [done|].
  destruct (negb _); by constructor.
Qed.

Lemma Map_delete_absent m k : k ∉ m.*1 → Map_delete m k = m.
Proof.
  induction m as [|[k0 w] m IH]; [done|].
  rewrite fmap_cons, not_elem_of_cons. intros [Hk Hm]. simpl in *.
  destruct (String.eqb_spec k0 k) as [->|_]; [done|]. simpl.
  by rewrite IH.
Qed.

End Maps.
End JSFacts.

(** ** The correlation bridge *)

Module BridgeProps.
Import JS JSFacts Bridge BridgeSpec.

Lemma settlements_snoc p q o s l :
  settled s = (l ++ [(q, o)])%list ->
  length (filter (fun call => call.1 = p) (settled s))
  = length (filter (fun call : Promise * Settlement => call.1 = p) l) + (if decide (q = p) then 1 else 0).
Proof.
  intros ->. rewrite filter_app, length_app. f_equal.
  rewrite filter_cons. simpl. destruct (decide (q = p)); done.
Qed.

Lemma settlements_settle p id req o s :
  settlements p (settle id req o s)
  = settlements p s + (if decide (promise req = p) then 1 else 0).
Proof. unfold settlements. by erewrite settlements_snoc. Qed.

Lemma consistent_init : consistent init.
Proof.
  split; simpl; try done.
  - apply NoDup_nil_2.
  - intros ? ?%elem_of_nil. done.
  - intros p. unfold settlements. simpl. lia.
  - intros p. unfold settlements. simpl. lia.
Qed.

Lemma consistent_settle id req o s :
  consistent s -> Map_get (pendingRequests s) id = Some req ->
  consistent (settle id req o s).
Proof.
  intros Hs Hreq.
  destruct (entry_timer s Hs id req Hreq) as (task & Htask & Hid & Hp).
  destruct (timer_promise s Hs _ _ Htask) as (Heq & Hlt & Hzero).
  split; simpl.
  - eapply sublist_NoDup; [apply (keys_once s Hs)|].
    apply fmap_sublist, Map_delete_sublist.
  - intros id' req' Hget.
    destruct (decide (id = id')) as [<-|Hne]; [by rewrite Map_get_delete_eq in Hget|].
    rewrite Map_get_delete_ne in Hget by done.
    destruct (entry_timer s Hs id' req' Hget) as (task' & Htask' & Hid' & Hp').
    exists task'. split_and!; [|done..].
    rewrite lookup_delete_ne; [done|].
    intros Ht. rewrite Ht in Htask. congruence.
  - intros t' task' Hget.
    apply lookup_delete_Some in Hget as [Hne Hget].
    pose proof (timer_entry s Hs _ _ Hget) as Hentry.
    rewrite Map_get_delete_ne; [done|].
    intros Hid'. rewrite <- Hid' in Hentry. rewrite Hreq in Hentry.
    injection Hentry as ->. done.
  - intros t' task' Hget.
    apply lookup_delete_Some in Hget as [Hne Hget].
    destruct (timer_promise s Hs _ _ Hget) as (Heq' & Hlt' & Hzero').
    split_and!; [done..|].
    change (settlements (task_reject task') (settle id req o s) = 0).
    rewrite settlements_settle, Hzero'.
    destruct (decide _) as [Hp'|]; [|done]. congruence.
  - apply (made_together s Hs).
  - intros id' Hin. apply (ids_issued s Hs).
    eapply elem_of_sublist; [done|]. apply fmap_sublist, Map_delete_sublist.
  - intros p. change (settlements p (settle id req o s) <= 1).
    rewrite settlements_settle.
    destruct (decide _) as [<-|].
    + rewrite <- Hp, Hzero. lia.
    + pose proof (settled_once s Hs p). lia.
  - intros p. change (0 < settlements p (settle id req o s) -> p < promisesMade s).
    rewrite settlements_settle.
    destruct (decide _) as [<-|].
    + intros _. rewrite <- (made_together s Hs). congruence.
    + intros ?. apply (settled_made s Hs). lia.
Qed.

Lemma consistent_forget id req s :
  consistent s -> Map_get (pendingRequests s) id = Some req ->
  consistent (forget id req s).
Proof.
  intros Hs Hreq.
  destruct (entry_timer s Hs id req Hreq) as (task & Htask & Hid & Hp).
  split; simpl.
  - eapply sublist_NoDup; [apply (keys_once s Hs)|].
    apply fmap_sublist, Map_delete_sublist.
  - intros id' req' Hget.
    destruct (decide (id = id')) as [<-|Hne]; [by rewrite Map_get_delete_eq in Hget|].
    rewrite Map_get_delete_ne in Hget by done.
    destruct (entry_timer s Hs id' req' Hget) as (task' & Htask' & Hid' & Hp').
    exists task'. split_and!; [|done..].
    rewrite lookup_delete_ne; [done|].
    intros Ht. rewrite Ht in Htask. congruence.
  - intros t' task' Hget.
    apply lookup_delete_Some in Hget as [Hne Hget].
    pose proof (timer_entry s Hs _ _ Hget) as Hentry.
    rewrite Map_get_delete_ne; [done|].
    intros Hid'. rewrite <- Hid' in Hentry. rewrite Hreq in Hentry.
    injection Hentry as ->. done.
  - intros t' task' Hget.
    apply lookup_delete_Some in Hget as [Hne Hget].
    apply (timer_promise s Hs _ _ Hget).
  - apply (made_together s Hs).
  - intros id' Hin. apply (ids_issued s Hs).
    eapply elem_of_sublist; [done|]. apply fmap_sublist, Map_delete_sublist.
  - apply (settled_once s Hs).
  - apply (settled_made s Hs).
Qed.

Lemma increment_below n : (n < 2 ^ 53)%N -> increment n = (n + 1)%N.
Proof. intros H. unfold increment. by apply N.ltb_lt in H as ->. Qed.

Lemma increment_ge n : (n <= increment n)%N.
Proof. unfold increment. destruct (N.ltb_spec n (2 ^ 53)); lia. Qed.

Lemma fresh_id s :
  consistent s -> (nextId s < 2 ^ 53)%N ->
  pretty (increment (nextId s)) ∉ (pendingRequests s).*1.
Proof.
  intros Hs Hb Hin. destruct (ids_issued s Hs _ Hin) as (k & Heq & Hle).
  apply (inj pretty) in Heq. rewrite increment_below in Heq by done. lia.
Qed.

(** The state [send] leaves when it accepts the request. *)
Lemma send_connected method params s :
  connected s = true ->
  exists ws, plugin s = Some ws /\
  send method params s =
    (Returned (promisesMade s),
     {| plugin := plugin s;
        pendingRequests :=
          Map_set (pendingRequests s) (pretty (increment (nextId s)))
            {| promise := promisesMade s; timer := timersSet s |};
        nextId := increment (nextId s);
        readyState := readyState s;
        socketsAccepted := socketsAccepted s;
        timers := <[timersSet s :=
                     {| task_id := pretty (increment (nextId s));
                        task_reject := promisesMade s;
                        task_method := method;
                        task_delay := REQUEST_TIMEOUT_MS |}]> (timers s);
        timersSet := S (timersSet s);
        promisesMade := S (promisesMade s);
        settled := settled s;
        sent := (sent s ++ [(ws, {| command_id := pretty (increment (nextId s));
                                    command_method := method;
                                    command_params := params |})])%list |}).
Proof.
  unfold connected, send. destruct (plugin s) as [ws|]; [|done].
  intros H. rewrite H. by exists ws.
Qed.

Lemma send_not_connected method params s :
  connected s = false ->
  send method params s =
    (Threw "Not connected to Figma plugin. Is the Forage plugin running in Figma?", s).
Proof.
  unfold connected, send. destruct (plugin s) as [ws|]; [|done].
  by intros ->.
Qed.

Lemma consistent_send method params s :
  consistent s -> (nextId s < 2 ^ 53)%N ->
  consistent (send method params s).2.
Proof.
  intros Hs Hb. destruct (connected s) eqn:Hc.
  2:{ by rewrite send_not_connected. }
  destruct (send_connected method params s Hc) as (ws & _ & ->). simpl.
  pose proof (fresh_id s Hs Hb) as Hfresh.
  pose proof (made_together s Hs) as Hmade.
  assert (Hnew : timers s !! timersSet s = None).
  { destruct (timers s !! timersSet s) as [task|] eqn:E; [|done].
    destruct (timer_promise s Hs _ _ E) as (_ & ? & _). lia. }
  assert (Hunsettled : settlements (promisesMade s) s = 0).
  { destruct (settlements (promisesMade s) s) eqn:E; [done|].
    pose proof (settled_made s Hs (promisesMade s)). lia. }
  split; simpl.
  - rewrite Map_set_fresh by done. rewrite fmap_app. apply NoDup_app.
    split_and!; [apply (keys_once s Hs)| |apply NoDup_singleton].
    intros x Hx ->%list_elem_of_singleton. done.
  - intros id req Hget.
    destruct (decide (pretty (increment (nextId s)) = id)) as [<-|Hne].
    + rewrite Map_get_set_eq in Hget. injection Hget as <-. simpl.
      rewrite lookup_insert_eq. by eexists.
    + rewrite Map_get_set_ne in Hget by done.
      destruct (entry_timer s Hs _ _ Hget) as (task & Htask & ? & ?).
      exists task. split_and!; [|done..].
      rewrite lookup_insert_ne; [done|]. intros Heq. congruence.
  - intros t task Hget. apply lookup_insert_Some in Hget as [ [<- <-] | [Hne Hget] ]; simpl.
    + by rewrite Map_get_set_eq, Hmade.
    + rewrite Map_get_set_ne; [by apply (timer_entry s Hs)|].
      intros Heq. apply Hfresh. rewrite Heq. apply Map_get_key.
      rewrite (timer_entry s Hs _ _ Hget). by eexists.
  - intros t task Hget. change (settlements (task_reject task) s) with (settlements (task_reject task) s).
    apply lookup_insert_Some in Hget as [ [<- <-] | [Hne Hget] ]; simpl.
    + split_and!; [done|lia|]. apply Hunsettled.
    + destruct (timer_promise s Hs _ _ Hget) as (? & ? & ?).
      split_and!; [done|lia|done].
  - by rewrite Hmade.
  - intros id. rewrite Map_set_fresh by done. rewrite fmap_app.
    intros [Hin | ->%list_elem_of_singleton]%elem_of_app.
    + destruct (ids_issued s Hs _ Hin) as (k & -> & Hle).
      exists k. split; [done|]. pose proof (increment_ge (nextId s)). lia.
    + eexists. split; [done|]. lia.
  - apply (settled_once s Hs).
  - intros p Hp. pose proof (settled_made s Hs p Hp). lia.
Qed.

(** *** The loops of the [close] handler and of [close()] *)

Lemma delete_all_elem {V : Type} (m : list (string * V)) ks kv :
  kv ∈ foldl Map_delete m ks <-> kv ∈ m /\ kv.1 ∉ ks.
Proof.
  revert m. induction ks as [|k ks IH]; intros m; simpl.
  - split; [intros ?; split; [done|apply not_elem_of_nil]|by intros [? _]].
  - rewrite IH, Map_delete_elem, not_elem_of_cons. tauto.
Qed.

Lemma delete_all_keys {V : Type} (m : list (string * V)) :
  foldl Map_delete m m.*1 = [].
Proof.
  destruct (foldl Map_delete m m.*1) as [|kv l] eqn:E; [done|].
  assert (H : kv ∈ foldl Map_delete m m.*1) by (rewrite E; left).
  apply delete_all_elem in H as [Hin Hnot].
  exfalso. apply Hnot. apply list_elem_of_fmap. by exists kv.
Qed.

Lemma clear_all_lookup (m : gmap Timer TimerTask) ts t :
  foldl (fun m t => delete t m) m ts !! t
  = if decide (t ∈ ts) then None else m !! t.
Proof.
  revert m. induction ts as [|t0 ts IH]; intros m.
  - by rewrite decide_False by apply not_elem_of_nil.
  - simpl. rewrite IH. destruct (decide (t ∈ ts)).
    + by rewrite decide_True by (by right).
    + destruct (decide (t0 = t)) as [->|Hne].
      * rewrite lookup_delete_eq. by rewrite decide_True by left.
      * rewrite lookup_delete_ne by done.
        rewrite decide_False; [done|].
        intros [?|?]%elem_of_cons; congruence.
Qed.

Lemma reject_all_loop s : reject_all s = reject_loop (pendingRequests s) s.
Proof. done. Qed.

Lemma reject_loop_cons id req l s :
  reject_loop ((id, req) :: l) s
  = reject_loop l (settle id req (Rejected "Figma plugin disconnected") s).
Proof. done. Qed.

Lemma reject_loop_fields l s :
  let s' := reject_loop l s in
  plugin s' = plugin s /\ nextId s' = nextId s
  /\ readyState s' = readyState s /\ socketsAccepted s' = socketsAccepted s
  /\ timersSet s' = timersSet s /\ promisesMade s' = promisesMade s
  /\ sent s' = sent s
  /\ settled s' = (settled s ++ (disconnect_call <$> l))%list
  /\ pendingRequests s' = foldl Map_delete (pendingRequests s) l.*1
  /\ timers s' = foldl (fun m t => delete t m) (timers s) ((fun e => timer e.2) <$> l).
Proof.
  revert s. induction l as [|[id req] l IH]; intros s s'; subst s'.
  - simpl. by rewrite app_nil_r.
  - rewrite reject_loop_cons.
    destruct (IH (settle id req (Rejected "Figma plugin disconnected") s))
      as (-> & -> & -> & -> & -> & -> & -> & -> & -> & ->).
    simpl. by rewrite <- app_assoc.
Qed.

Lemma reject_loop_consistent l s :
  consistent s -> NoDup l.*1 ->
  (forall id req, (id, req) ∈ l -> Map_get (pendingRequests s) id = Some req) ->
  consistent (reject_loop l s).
Proof.
  revert s. induction l as [|[id req] l IH]; intros s Hs Hl Hin; [done|].
  rewrite reject_loop_cons. rewrite fmap_cons in Hl. apply NoDup_cons in Hl as [Hid Hl].
  apply IH; [|done|].
  - apply consistent_settle; [done|]. apply Hin. left.
  - intros id' req' Hin'. simpl.
    rewrite Map_get_delete_ne; [apply Hin; by right|].
    intros ->. apply Hid. apply list_elem_of_fmap. by exists (id', req').
Qed.

Lemma reject_all_consistent s : consistent s -> consistent (reject_all s).
Proof.
  intros Hs. rewrite reject_all_loop.
  apply reject_loop_consistent; [done|apply (keys_once s Hs)|].
  intros id req. apply Map_get_NoDup, (keys_once s Hs).
Qed.

Lemma reject_all_pending s : pendingRequests (reject_all s) = [].
Proof.
  rewrite reject_all_loop.
  destruct (reject_loop_fields (pendingRequests s) s) as (_&_&_&_&_&_&_&_&->&_).
  apply delete_all_keys.
Qed.

Lemma clear_loop_fields l s :
  let s' := clear_loop l s in
  plugin s' = plugin s /\ nextId s' = nextId s
  /\ readyState s' = readyState s /\ socketsAccepted s' = socketsAccepted s
  /\ timersSet s' = timersSet s /\ promisesMade s' = promisesMade s
  /\ sent s' = sent s /\ settled s' = settled s
  /\ pendingRequests s' = pendingRequests s
  /\ timers s' = foldl (fun m t => delete t m) (timers s) ((fun e => timer e.2) <$> l).
Proof.
  revert s. induction l as [|e l IH]; intros s s'; subst s'; [done|].
  change (clear_loop (e :: l) s) with (clear_loop l (clearTimeout (timer e.2) s)).
  by destruct (IH (clearTimeout (timer e.2) s))
    as (-> & -> & -> & -> & -> & -> & -> & -> & -> & ->).
Qed.

Lemma close_fields s :
  let s' := close s in
  plugin s' = plugin s /\ nextId s' = nextId s
  /\ readyState s' = readyState s /\ socketsAccepted s' = socketsAccepted s
  /\ timersSet s' = timersSet s /\ promisesMade s' = promisesMade s
  /\ sent s' = sent s /\ settled s' = settled s
  /\ pendingRequests s' = []
  /\ timers s' = foldl (fun m t => delete t m) (timers s)
                    ((fun e => timer e.2) <$> pendingRequests s).
Proof.
  change (close s) with (with_pending [] (clear_loop (pendingRequests s) s)).
  simpl.
  by destruct (clear_loop_fields (pendingRequests s) s)
    as (-> & -> & -> & -> & -> & -> & -> & -> & _ & ->).
Qed.

(** A state with the same requests is as consistent. *)
Lemma consistent_frame s s' :
  pendingRequests s' = pendingRequests s -> timers s' = timers s ->
  timersSet s' = timersSet s -> promisesMade s' = promisesMade s ->
  settled s' = settled s -> nextId s' = nextId s ->
  consistent s -> consistent s'.
Proof.
  intros H1 H2 H3 H4 H5 H6 [? ? ? ? ? ? ? ?].
  split; unfold settlements in *; rewrite ?H1, ?H2, ?H3, ?H4, ?H5, ?H6; done.
Qed.

Lemma close_consistent s : consistent s -> consistent (close s).
Proof.
  intros Hs.
  destruct (close_fields s) as (_ & Hn & _ & _ & Ht & Hp & _ & Hsettled & Hpending & Htimers).
  assert (Hnone : forall t, timers (close s) !! t = None).
  { intros t. rewrite Htimers, clear_all_lookup.
    destruct (decide _) as [|Hnot]; [done|].
    destruct (timers s !! t) as [task|] eqn:E; [|done].
    exfalso. apply Hnot. apply list_elem_of_fmap.
    exists (task_id task, {| promise := task_reject task; timer := t |}).
    split; [done|]. apply Map_get_elem, (timer_entry s Hs _ _ E). }
  split; unfold settlements; rewrite ?Hpending, ?Hsettled, ?Ht, ?Hp, ?Hn.
  - apply NoDup_nil_2.
  - done.
  - intros t task. by rewrite Hnone.
  - intros t task. by rewrite Hnone.
  - apply (made_together s Hs).
  - by intros id ?%elem_of_nil.
  - apply (settled_once s Hs).
  - apply (settled_made s Hs).
Qed.

(** *** No promise is lost while the bridge runs *)




Section WithRuntime.
Context {R : Runtime}.

(** A frame changes nothing, ends one entry with a call of [resolve] or
    [reject], or -- the error of its response cannot be converted --
    ends one entry with no call. *)
Lemma onMessage_cases data s :
  onMessage data s = s
  \/ (exists id req outcome,
        Map_get (pendingRequests s) id = Some req
        /\ onMessage data s = settle id req outcome s)
  \/ (exists id req,
        Map_get (pendingRequests s) id = Some req
        /\ forgets (EvMessage 0 data) = true
        /\ onMessage data s = forget id req s).
Proof.
  unfold onMessage, forgets, unconvertible.
  destruct (JSON_parse data) as [response|]; [|by left].
  destruct response; try (by left);
    (destruct (prop _ "id") as [| | | |id| |]; try (by left);
     destruct (Map_get (pendingRequests s) id) as [req|] eqn:E; [|by left];
     right;
     destruct (truthy _);
       [destruct (convertible _ && convertible _);
          [left; exists id, req; eexists; split; [done|reflexivity]
          |right; exists id, req; split_and!; done]
       |left; exists id, req; eexists; split; [done|reflexivity]]).
Qed.


Lemma step_consistent ev s :
  consistent s -> (nextId s < 2 ^ 53)%N -> consistent (step ev s).
Proof.
  intros Hs Hb. destruct ev as [|ws data|ws|ws msg|ws|t|method params|]; simpl.
  - unfold handleConnection. simpl.
    destruct (plugin s); [case_bool_decide|]; by apply (consistent_frame s).
  - destruct (known ws s); [|done].
    destruct (onMessage_cases data s)
      as [->|[(id & req & o & Hget & ->)|(id & req & Hget & _ & ->)]]; [done| |].
    + by apply consistent_settle.
    + by apply consistent_forget.
  - destruct (known ws s); [|done]. unfold onClose. simpl.
    apply reject_all_consistent.
    case_bool_decide; by apply (consistent_frame s).
  - by destruct (known ws s).
  - case_bool_decide; [|done]. by apply (consistent_frame s).
  - destruct (timers s !! t) as [task|] eqn:E; [|done].
    pose proof (timer_entry s Hs _ _ E) as Hentry.
    apply (consistent_settle (task_id task) _
             (Rejected ("Request timed out after 10s: " ++ task_method task)) s Hs Hentry).
  - by apply consistent_send.
  - by apply close_consistent.
Qed.

Lemma step_nextId ev s : (nextId s <= nextId (step ev s))%N.
Proof.
  destruct ev as [|ws data|ws|ws msg|ws|t|method params|];
    unfold step.
  - unfold handleConnection.
    destruct (plugin (accept s)); [case_bool_decide|]; apply N.le_refl.
  - destruct (known ws s); [|apply N.le_refl].
    destruct (onMessage_cases data s)
      as [->|[(id & req & o & Hget & ->)|(id & req & Hget & _ & ->)]];
      apply N.le_refl.
  - destruct (known ws s); [|apply N.le_refl]. unfold onClose.
    rewrite reject_all_loop.
    match goal with |- context [reject_loop ?l ?s0] =>
      destruct (reject_loop_fields l s0) as (_ & -> & _) end.
    case_bool_decide; apply N.le_refl.
  - destruct (known ws s); apply N.le_refl.
  - case_bool_decide; apply N.le_refl.
  - destruct (timers s !! t); apply N.le_refl.
  - destruct (connected s) eqn:Hc.
    + destruct (send_connected method params s Hc) as (ws & _ & ->).
      apply increment_ge.
    + rewrite send_not_connected by done. apply N.le_refl.
  - destruct (close_fields s) as (_ & -> & _). apply N.le_refl.
Qed.

Lemma reachable_consistent s :
  reachable s -> (nextId s < 2 ^ 53)%N -> consistent s.
Proof.
  induction 1 as [|s ev Hs IH]; intros Hb; [apply consistent_init|].
  pose proof (step_nextId ev s).
  apply step_consistent; [apply IH|]; lia.
Qed.


Lemma sockets_ok_frame s s' :
  readyState s' = readyState s -> socketsAccepted s' = socketsAccepted s ->
  (plugin s' = plugin s \/ plugin s' = None) ->
  sockets_ok s -> sockets_ok s'.
Proof.
  intros H1 H2 H3 [Hk Hp]. split; rewrite ?H1, ?H2; [done|].
  intros ws. destruct H3 as [->| ->]; [apply Hp|done].
Qed.

Lemma sockets_ok_mark ws st s :
  is_Some (readyState s !! ws) ->
  sockets_ok s -> sockets_ok (with_readyState (<[ws := st]> (readyState s)) s).
Proof.
  intros Hws [Hk Hp]. split; simpl; [|done].
  intros ws'. destruct (decide (ws = ws')) as [<-|Hne].
  - intros _. by apply Hk.
  - rewrite lookup_insert_ne by done. apply Hk.
Qed.

Lemma step_sockets_ok ev s : sockets_ok s -> sockets_ok (step ev s).
Proof.
  intros Hs. destruct ev as [|ws data|ws|ws msg|ws|t|method params|];
    unfold step.
  - assert (Hacc : sockets_ok (accept s)).
    { destruct Hs as [Hk Hp]. split; simpl.
      - intros ws. destruct (decide (socketsAccepted s = ws)) as [<-|Hne]; [lia|].
        rewrite lookup_insert_ne by done. intros ?%Hk. lia.
      - intros ws ?%Hp. lia. }
    unfold handleConnection.
    assert (Hnew : forall s0, socketsAccepted s0 = S (socketsAccepted s) ->
                     sockets_ok s0 -> sockets_ok (with_plugin (Some (socketsAccepted s)) s0)).
    { intros s0 Hn [Hk Hp]. split; simpl; [done|]. intros ws [= <-]. lia. }
    destruct (plugin (accept s)) as [old|] eqn:E; [|by apply Hnew].
    case_bool_decide as Hopen; [|by apply Hnew].
    apply Hnew; [done|]. apply sockets_ok_mark; [|done]. rewrite Hopen. by eexists.
  - destruct (known ws s); [|done].
    destruct (onMessage_cases data s)
      as [->|[(id & req & o & Hget & ->)|(id & req & Hget & _ & ->)]]; [done|..];
      by apply (sockets_ok_frame s); [..|left|].
  - unfold known. case_bool_decide as Hk; [|done]. unfold onClose.
    rewrite reject_all_loop.
    match goal with |- context [reject_loop ?l ?s0] =>
      destruct (reject_loop_fields l s0) as (Hp & _ & Hr & Ha & _);
      apply (sockets_ok_frame s0); [done|done|by left|]
    end.
    pose proof (sockets_ok_mark ws CLOSED s Hk Hs) as Hmark.
    case_bool_decide; [|done].
    by apply (sockets_ok_frame (with_readyState (<[ws:=CLOSED]> (readyState s)) s));
      [..|right|].
  - by destruct (known ws s).
  - case_bool_decide as Hopen; [|done].
    apply sockets_ok_mark; [|done]. rewrite Hopen. by eexists.
  - destruct (timers s !! t); [|done]. by apply (sockets_ok_frame s); [..|left|].
  - destruct (connected s) eqn:Hc.
    + destruct (send_connected method params s Hc) as (ws & _ & ->).
      by apply (sockets_ok_frame s); [..|left|].
    + by rewrite send_not_connected.
  - destruct (close_fields s) as (Hp & _ & Hr & Ha & _).
    by apply (sockets_ok_frame s); [..|left|].
Qed.

Lemma reachable_sockets_ok s : reachable s -> sockets_ok s.
Proof.
  induction 1 as [|s ev Hs IH]; [|by apply step_sockets_ok].
  split; simpl; [|done]. intros ws [? H]. by rewrite lookup_empty in H.
Qed.





(** *** The three ends of an entry *)


Lemma onMessage_response data response id req s :
  JSON_parse data = Some response -> prop response "id" = VStr id ->
  Map_get (pendingRequests s) id = Some req ->
  unconvertible response = false ->
  onMessage data s
  = settle id req
      (if truthy (prop response "error")
       then Rejected ("[" ++ ToString (prop (prop response "error") "code") ++ "] "
                          ++ ToString (prop (prop response "error") "message"))
       else Resolved (prop response "result")) s.
Proof.
  intros Hparse Hid Hget Hok. unfold onMessage. rewrite Hparse.
  unfold unconvertible in Hok.
  destruct response; try done; rewrite Hid, Hget;
    destruct (truthy _); [|done];
    by destruct (convertible _ && convertible _).
Qed.

Lemma onMessage_unconvertible data response id req s :
  JSON_parse data = Some response -> prop response "id" = VStr id ->
  Map_get (pendingRequests s) id = Some req ->
  unconvertible response = true ->
  onMessage data s = forget id req s.
Proof.
  intros Hparse Hid Hget Hbad. unfold onMessage. rewrite Hparse.
  unfold unconvertible in Hbad.
  destruct response; try done; rewrite Hid, Hget;
    destruct (truthy _); [|done];
    by destruct (convertible _ && convertible _).
Qed.

Lemma onClose_ends ws s :
  let s' := onClose ws (with_readyState (<[ws := CLOSED]> (readyState s)) s) in
  pendingRequests s' = []
  /\ settled s' = (settled s ++ (disconnect_call <$> pendingRequests s))%list
  /\ (forall id req, (id, req) ∈ pendingRequests s -> timers s' !! timer req = None)
  /\ plugin s' = (if bool_decide (plugin s = Some ws) then None else plugin s)
  /\ readyState s' = <[ws := CLOSED]> (readyState s).
Proof.
  intros s'. subst s'. unfold onClose. split.
  { apply reject_all_pending. }
  rewrite reject_all_loop.
  match goal with |- context [reject_loop ?l ?s0] =>
    destruct (reject_loop_fields l s0) as (-> & _ & -> & _ & _ & _ & _ & -> & _ & ->)
  end.
  simpl. case_bool_decide; simpl; (split_and!; [done| |done..]);
    intros id req Hin; rewrite clear_all_lookup, decide_True; try done;
    apply list_elem_of_fmap; by exists (id, req).
Qed.



(** C2.  When no plugin socket is set, or the socket that is set is not
    open, [send] throws the connection error and leaves the bridge as it
    was: no entry is added to the map, no id is taken, no timeout is
    set. *)
Theorem send_without_connection method params s :
  connected s = false ->
  send method params s
  = (Threw "Not connected to Figma plugin. Is the Forage plugin running in Figma?", s)
  /\ pendingRequests (send method params s).2 = pendingRequests s
  /\ nextId (send method params s).2 = nextId s
  /\ timers (send method params s).2 = timers s
  /\ timersSet (send method params s).2 = timersSet s.
Proof. intros Hc. by rewrite send_not_connected. Qed.

(** C3, as amended.  When the [close] event of a connection the bridge has
    handlers on occurs, every entry still in the map is rejected with the
    disconnection error, in the order of the map, its timeout is cleared,
    and the map is left empty; the [error] event of a connection changes
    nothing. *)
Theorem close_event_rejects_all ws s :
  known ws s = true ->
  (let s' := step (EvClose ws) s in
   pendingRequests s' = []
   /\ settled s' = (settled s ++ (disconnect_call <$> pendingRequests s))%list
   /\ (forall id req, (id, req) ∈ pendingRequests s -> timers s' !! timer req = None))
  /\ (forall message, step (EvError ws message) s = s).
Proof.
  intros Hws. split.
  - simpl. rewrite Hws.
    destruct (onClose_ends ws s) as (? & ? & ? & _). done.
  - intros message. simpl. by rewrite Hws.
Qed.

(** C10.  Let connection [a] be the live connection, let the server accept
    a new connection [b], and let a request be sent afterwards: it is
    written to [b].  When the [close] event of [a] then occurs, [b] is
    still the plugin socket and is still open, and yet every entry of the
    map, the request written to [b] included, is rejected with the
    disconnection error and the map is left empty. *)
Theorem stale_close_rejects_current s a method params :
  reachable s -> plugin s = Some a -> readyState s !! a = Some OPEN ->
  let b := socketsAccepted s in
  let s1 := step EvConnection s in
  let s2 := (send method params s1).2 in
  let s3 := step (EvClose a) s2 in
  b <> a
  /\ plugin s1 = Some b /\ readyState s1 !! a = Some CLOSING
  /\ (send method params s1).1 = Returned (promisesMade s)
  /\ (exists command, sent s2 = (sent s ++ [(b, command)])%list
                      /\ is_Some (Map_get (pendingRequests s2) (command_id command)))
  /\ plugin s3 = Some b /\ readyState s3 !! b = Some OPEN
  /\ pendingRequests s3 = []
  /\ (forall id req, (id, req) ∈ pendingRequests s2 ->
       (promise req, Rejected "Figma plugin disconnected") ∈ settled s3)
  /\ (promisesMade s, Rejected "Figma plugin disconnected") ∈ settled s3.
Proof.
  intros Hreach Hplugin Hopen b s1 s2 s3.
  pose proof (plugin_accepted s (reachable_sockets_ok s Hreach) a Hplugin) as Hlt.
  assert (Hne : b <> a) by (subst b; lia).
  assert (Hs1 : s1 = with_plugin (Some b) (ws_close a (accept s))).
  { subst s1. simpl. unfold handleConnection. simpl. rewrite Hplugin.
    rewrite bool_decide_eq_true_2; [done|]. by rewrite lookup_insert_ne. }
  assert (Hc1 : connected (with_plugin (Some b) (ws_close a (accept s))) = true).
  { unfold connected. simpl. apply bool_decide_eq_true_2.
    rewrite lookup_insert_ne by done. apply lookup_insert_eq. }
  destruct (send_connected method params _ Hc1) as (ws & Hws & Hsend).
  simpl in Hws. injection Hws as <-. simpl in Hsend.
  assert (Hs2 : s2 = (send method params (with_plugin (Some b) (ws_close a (accept s)))).2)
    by (subst s2; by rewrite Hs1).
  rewrite Hsend in Hs2. simpl in Hs2.
  clearbody s2. rewrite Hs1, Hsend. clearbody s1. subst s1 s2.
  match type of Hsend with _ = (_, ?st) => set (s2 := st) in * end.
  assert (Hknown : known a s2 = true).
  { apply bool_decide_eq_true_2. simpl. rewrite lookup_insert_eq. by eexists. }
  assert (Hentry : Map_get (pendingRequests s2) (pretty (increment (nextId s)))
                   = Some {| promise := promisesMade s; timer := timersSet s |}).
  { apply Map_get_set_eq. }
  assert (Hs3 : s3 = onClose a (with_readyState (<[a := CLOSED]> (readyState s2)) s2)).
  { subst s3. simpl. by rewrite Hknown. }
  clearbody s3.
  destruct (onClose_ends a s2) as (Hpend & Hsettled & _ & Hplug & Hready).
  rewrite <- Hs3 in *.
  assert (Hall : forall id req, (id, req) ∈ pendingRequests s2 ->
                   (promise req, Rejected "Figma plugin disconnected") ∈ settled s3).
  { intros id req Hin. rewrite Hsettled. apply elem_of_app. right.
    apply list_elem_of_fmap. by exists (id, req). }
  split_and!; try done.
  - simpl. apply lookup_insert_eq.
  - exists {| command_id := pretty (increment (nextId s));
               command_method := method; command_params := params |}.
    split; [done|]. by exists {| promise := promisesMade s; timer := timersSet s |}.
  - rewrite Hplug. simpl. rewrite bool_decide_eq_false_2; [done|]. congruence.
  - rewrite Hready. rewrite lookup_insert_ne by done. simpl.
    rewrite lookup_insert_ne by done. apply lookup_insert_eq.
  - apply (Hall _ _ (Map_get_elem _ _ _ Hentry)).
Qed.

End WithRuntime.
End BridgeProps.

(** ** Worked examples of the bridge *)

Module BridgeExamples.
Import JS Bridge BridgeSpec BridgeProps ExampleData.



Lemma send_without_connection_witness :
  connected init = false
  /\ send "getPages" None init
     = (Threw "Not connected to Figma plugin. Is the Forage plugin running in Figma?", init).
Proof.
  split; [reflexivity|].
  apply (send_without_connection "getPages" None init). reflexivity.
Defined.

(** C3, the claim as stated fails: with one request pending on the
    current connection, the [error] event of that connection rejects
    nothing and leaves the entry in the map. *)
Lemma error_event_rejects_nothing :
  plugin one_pending = Some 0
  /\ pendingRequests one_pending = [("1", {| promise := 0; timer := 0 |})]
  /\ pendingRequests
       (step (R := ReferenceRuntime.runtime) (EvError 0 "socket hang up") one_pending)
     = [("1", {| promise := 0; timer := 0 |})]
  /\ settled
       (step (R := ReferenceRuntime.runtime) (EvError 0 "socket hang up") one_pending)
     = [].
Proof. vm_compute. done. Qed.

Lemma close_event_rejects_all_witness :
  known 0 one_pending = true
  /\ pendingRequests (step (R := ReferenceRuntime.runtime) (EvClose 0) one_pending) = []
  /\ settled (step (R := ReferenceRuntime.runtime) (EvClose 0) one_pending)
     = [(0, Rejected "Figma plugin disconnected")].
Proof.
  assert (Hk : known 0 one_pending = true) by (vm_compute; reflexivity).
  split; [exact Hk|].
  destruct (close_event_rejects_all (R := ReferenceRuntime.runtime) 0 one_pending Hk)
    as [(H1 & H2 & _) _].
  split; [exact H1|]. rewrite H2. reflexivity.
Defined.

Lemma connected_once_reachable :
  reachable (R := ReferenceRuntime.runtime) connected_once.
Proof. exact (reachable_step _ EvConnection reachable_init). Defined.

Lemma stale_close_rejects_current_witness :
  plugin connected_once = Some 0
  /\ readyState connected_once !! 0 = Some OPEN
  /\ (let s2 := run (R := ReferenceRuntime.runtime)
                    [EvConnection; EvSend "getPages" None] connected_once in
      let s3 := step (R := ReferenceRuntime.runtime) (EvClose 0) s2 in
      plugin s3 = Some 1 /\ readyState s3 !! 1 = Some OPEN
      /\ pendingRequests s3 = []
      /\ (0, Rejected "Figma plugin disconnected") ∈ settled s3).
Proof.
  assert (Hp : plugin connected_once = Some 0) by reflexivity.
  assert (Ho : readyState connected_once !! 0 = Some OPEN) by (vm_compute; reflexivity).
  split; [exact Hp|]. split; [exact Ho|].
  destruct (stale_close_rejects_current (R := ReferenceRuntime.runtime)
              connected_once 0 "getPages" None connected_once_reachable Hp Ho)
    as (_ & _ & _ & _ & _ & H1 & H2 & H3 & _ & H4).
  exact (conj H1 (conj H2 (conj H3 H4))).
Defined.

End BridgeExamples.

(** ** The query engine *)

Module PluginProps.
Import JS JSFacts Figma Plugin ProjectionTable NavigatorSpec ScorerSpec.

Lemma assign_all_fresh slots o :
  NoDup (o.*1 ++ slots.*1) -> assign_all slots o = (o ++ present slots)%list.
Proof.
  revert o. induction slots as [|[k [v|]] slots IH]; intros o Hnd.
  - simpl. by rewrite app_nil_r.
  - change (assign_all ((k, Some v) :: slots) o)
      with (assign_all slots (obj_set o k v)).
    change (present ((k, Some v) :: slots)) with ((k, v) :: present slots).
    rewrite fmap_cons in Hnd. simpl in Hnd.
    apply NoDup_app in Hnd as (Ho & Hdisj & [Hk Hs]%NoDup_cons).
    assert (Hfresh : k ∉ o.*1) by (intros Hin; apply (Hdisj _ Hin); left).
    unfold obj_set. rewrite Map_set_fresh by done.
    rewrite IH; [by rewrite <- app_assoc|].
    rewrite fmap_app. simpl. rewrite <- app_assoc. simpl.
    apply NoDup_app. split_and!; [done| |by apply NoDup_cons].
    intros x Hx [->|Hin]%elem_of_cons; [done|].
    apply (Hdisj _ Hx). by right.
  - change (assign_all ((k, None) :: slots) o) with (assign_all slots o).
    change (present ((k, None) :: slots)) with (present slots).
    apply IH. rewrite fmap_cons in Hnd. simpl in Hnd.
    apply NoDup_app in Hnd as (Ho & Hdisj & [Hk Hs]%NoDup_cons).
    apply NoDup_app. split_and!; [done| |done].
    intros x Hx Hin. apply (Hdisj _ Hx). by right.
Qed.

Lemma assign_all_app s1 s2 o :
  assign_all (s1 ++ s2) o = assign_all s2 (assign_all s1 o).
Proof. apply foldl_app. Qed.

Lemma present_keys slots : (present slots).*1 `sublist_of` slots.*1.
Proof.
  induction slots as [|[k [v|]] slots IH]; simpl; [done|by constructor..].
Qed.

Lemma present_get slots k :
  NoDup slots.*1 ->
  Map_get (present slots) k = mjoin (Map_get slots k).
Proof.
  induction slots as [|[k0 [v|]] slots IH]; [done|..];
    rewrite fmap_cons; intros [Hk Hs]%NoDup_cons; simpl in *.
  - destruct (String.eqb_spec k0 k); [done|by apply IH].
  - destruct (String.eqb_spec k0 k) as [->|]; [|by apply IH].
    simpl. destruct (Map_get (present slots) k) eqn:E; [|done].
    exfalso. apply Hk. eapply elem_of_sublist; [|apply present_keys].
    apply Map_get_key. by eexists.
Qed.

(** [new Set(keys)] holds the keys of [keys], each once. *)
Lemma new_Set_from seen keys :
  NoDup seen ->
  let r := foldl (fun seen k => if bool_decide (k ∈ seen) then seen
                                else (seen ++ [k])%list) seen keys in
  NoDup r /\ forall k : string, k ∈ r <-> k ∈ seen \/ k ∈ keys.
Proof.
  revert seen. induction keys as [|k0 keys IH]; intros seen Hseen r; subst r.
  - split; [done|]. intros k. rewrite elem_of_nil. tauto.
  - simpl. case_bool_decide as Hin.
    + destruct (IH seen Hseen) as [Hnd Hel]. split; [done|].
      intros k. rewrite Hel, elem_of_cons.
      split; [tauto|]. intros [?|[->|?]]; auto.
    + assert (Hseen' : NoDup (seen ++ [k0])).
      { apply NoDup_app. split_and!; [done| |apply NoDup_singleton].
        by intros x Hx ->%list_elem_of_singleton. }
      destruct (IH _ Hseen') as [Hnd Hel]. split; [done|].
      intros k. rewrite Hel, elem_of_app, list_elem_of_singleton, elem_of_cons.
      tauto.
Qed.

Lemma new_Set_NoDup keys : NoDup (new_Set keys).
Proof. apply (new_Set_from [] keys), NoDup_nil_2. Qed.

Lemma new_Set_elem keys k : k ∈ new_Set keys <-> k ∈ keys.
Proof.
  destruct (new_Set_from [] keys NoDup_nil_2) as [_ H].
  unfold new_Set. rewrite H, elem_of_nil. tauto.
Qed.

Lemma filter_elem {A : Type} (f : A -> bool) l x :
  x ∈ List.filter f l <-> x ∈ l /\ f x = true.
Proof. by rewrite !list_elem_of_In, filter_In. Qed.

Lemma filter_NoDup {A : Type} (f : A -> bool) l :
  NoDup l -> NoDup (List.filter f l).
Proof.
  intros Hl. eapply sublist_NoDup; [done|].
  clear Hl. induction l as [|x l IH]; simpl; [done|].
  destruct (f x); by constructor.
Qed.

Lemma sort_insert_elem {A : Type} (compare : A -> A -> float) x l y :
  y ∈ sort_insert compare x l <-> y = x \/ y ∈ l.
Proof.
  induction l as [|z l IH]; simpl.
  - by rewrite list_elem_of_singleton, elem_of_nil; tauto.
  - destruct (0 <? compare x z)%float.
    + rewrite !elem_of_cons, IH. tauto.
    + rewrite !elem_of_cons. tauto.
Qed.

Lemma Array_sort_elem {A : Type} (compare : A -> A -> float) l y :
  y ∈ Array_sort compare l <-> y ∈ l.
Proof.
  unfold Array_sort. induction l as [|x l IH]; simpl; [done|].
  rewrite sort_insert_elem, elem_of_cons, IH. tauto.
Qed.

Lemma Array_sort_length {A : Type} (compare : A -> A -> float) l :
  length (Array_sort compare l) = length l.
Proof.
  unfold Array_sort. induction l as [|x l IH]; simpl; [done|].
  rewrite <- IH. generalize (foldr (sort_insert compare) [] l). intros l'.
  induction l' as [|z l' IH']; simpl; [done|].
  destruct (0 <? compare x z)%float; simpl; by rewrite ?IH'.
Qed.

Section WithRuntime.
Context {R : Runtime}.

(** Unfold the option combinators the slots are written with. *)
Ltac open_slots :=
  cbv [mbind option_bind fmap option_fmap option_map when single paints_slot].

Lemma simplifyNode_unfold node includeChildren :
  simplifyNode node includeChildren
  = textProps node (cornerRadiusProp node (opacityProp node (effectsProp node
      (strokesProp node (fillsProp node (componentProps node (variantProps node
        (componentInfo node (layoutChildProps node (autoLayoutProps node
          (childrenCount (fun c => simplifyNode c false) node includeChildren
             (size node (visibility node (identity node)))))))))))))).
Proof. by destruct node. Qed.

Lemma visibility_table node o :
  visibility node o = assign_all (visibility_slots node) o.
Proof. unfold visibility, visibility_slots. by destruct (negb _). Qed.

Lemma size_table node o : size node o = assign_all (size_slots node) o.
Proof.
  unfold size, size_slots. open_slots. by destruct (width node), (height node).
Qed.

Lemma childrenCount_table f node b o :
  childrenCount f node b o = assign_all (childrenCount_slots f node b) o.
Proof.
  unfold childrenCount, childrenCount_slots. open_slots.
  by destruct (children node), b.
Qed.

Lemma autoLayoutProps_table node o :
  autoLayoutProps node o = assign_all (autoLayout_slots node) o.
Proof.
  unfold autoLayoutProps, autoLayout_slots.
  open_slots. destruct (autoLayout node) as [frame|]; [|done].
  destruct (negb _); [|done]. by destruct (counterAxisSpacing frame).
Qed.

Lemma layoutChildProps_table node o :
  layoutChildProps node o = assign_all (layoutChild_slots node) o.
Proof.
  unfold layoutChildProps, layoutChild_slots.
  open_slots. destruct (layoutChild node) as [child|]; [|done].
  by destruct (negb (String.eqb _ _)), (negb (num_eq _ _)).
Qed.

Lemma componentInfo_table node o :
  componentInfo node o = assign_all (componentInfo_slots node) o.
Proof.
  unfold componentInfo, componentInfo_slots. open_slots.
  by destruct (String.eqb _ "COMPONENT"), (String.eqb _ "COMPONENT_SET"),
       (String.eqb _ "INSTANCE").
Qed.

Lemma variantProps_table node o :
  variantProps node o = assign_all (variantProps_slots node) o.
Proof.
  unfold variantProps, variantProps_slots.
  by destruct (variantProperties node) as [[props|]|].
Qed.

Lemma componentProps_table node o :
  componentProps node o = assign_all (componentProps_slots node) o.
Proof.
  unfold componentProps, componentProps_slots.
  open_slots. destruct (componentPropertyDefinitions node) as [defs|]; [|done].
  by destruct (0 <? _)%nat.
Qed.

Lemma fillsProp_table node o :
  fillsProp node o = assign_all (fills_slots node) o.
Proof.
  unfold fillsProp, fills_slots. open_slots.
  destruct (fills node) as [[|paints]|]; [done| |done].
  by destruct (0 <? _)%nat.
Qed.

Lemma strokesProp_table node o :
  strokesProp node o = assign_all (strokes_slots node) o.
Proof.
  unfold strokesProp, strokes_slots, paints_slot.
  open_slots. destruct (strokes node) as [paints|]; [|done].
  by destruct (0 <? _)%nat.
Qed.

Lemma effectsProp_table node o :
  effectsProp node o = assign_all (effects_slots node) o.
Proof.
  unfold effectsProp, effects_slots.
  open_slots. destruct (effects node) as [es|]; [|done].
  by destruct (0 <? _)%nat.
Qed.

Lemma opacityProp_table node o :
  opacityProp node o = assign_all (opacity_slots node) o.
Proof.
  unfold opacityProp, opacity_slots.
  open_slots. destruct (opacity node) as [x|]; [|done]. by destruct (negb _).
Qed.

Lemma cornerRadiusProp_table node o :
  cornerRadiusProp node o = assign_all (cornerRadius_slots node) o.
Proof.
  unfold cornerRadiusProp, cornerRadius_slots.
  open_slots. destruct (corner node) as [r|]; [|done].
  destruct (cornerRadius r) as [|x]; [done|]. by destruct (0 <? x)%float.
Qed.

Lemma textProps_table node o :
  textProps node o = assign_all (text_slots node) o.
Proof.
  unfold textProps, text_slots, mixed_set. open_slots.
  destruct (String.eqb _ "TEXT"); [|done].
  by destruct (fontSize _), (fontName _), (fontWeight _), (lineHeight _),
       (letterSpacing _).
Qed.

Lemma slots_keys node includeChildren :
  (slots node includeChildren).*1 = attribute_keys.
Proof. done. Qed.

Lemma attribute_keys_NoDup :
  NoDup (["id"; "name"; "type"] ++ attribute_keys)%list.
Proof. by apply (bool_decide_unpack _). Qed.

(** The projection is its three identity members followed by the members
    its slots contribute. *)
Lemma simplifyNode_table node includeChildren :
  simplifyNode node includeChildren
  = (identity node ++ present (slots node includeChildren))%list.
Proof.
  rewrite simplifyNode_unfold.
  rewrite textProps_table, cornerRadiusProp_table, opacityProp_table,
    effectsProp_table, strokesProp_table, fillsProp_table, componentProps_table,
    variantProps_table, componentInfo_table, layoutChildProps_table,
    autoLayoutProps_table, childrenCount_table, size_table, visibility_table.
  rewrite <- !assign_all_app, <- ?app_assoc.
  apply assign_all_fresh. rewrite slots_keys. apply attribute_keys_NoDup.
Qed.


Lemma Map_get_app {V : Type} (l1 l2 : list (string * V)) k :
  Map_get (l1 ++ l2) k
  = match Map_get l1 k with
    | Some v => Some v
    | None => Map_get l2 k
    end.
Proof.
  induction l1 as [|[k0 v] l1 IH]; simpl; [done|].
  by destruct (String.eqb k0 k).
Qed.

(** The member of a projection under a key that is none of [id], [name],
    [type], read off its slot. *)
Lemma projection_get node includeChildren k :
  k ∉ ["id"; "name"; "type"] ->
  Map_get (simplifyNode node includeChildren) k
  = mjoin (Map_get (slots node includeChildren) k).
Proof.
  intros Hk. rewrite simplifyNode_table, Map_get_app.
  assert (Map_get (identity node) k = None) as ->.
  { destruct (Map_get (identity node) k) eqn:E; [|done].
    exfalso. apply Hk. change (k ∈ (identity node).*1).
    apply Map_get_key. by eexists. }
  apply present_get. rewrite slots_keys.
  pose proof attribute_keys_NoDup as H. by apply NoDup_app in H as (_ & _ & H).
Qed.

Lemma projection_children node includeChildren :
  Map_get (simplifyNode node includeChildren) "children"
  = cs ← children node;
    when includeChildren
         (VArr (map (fun c => VObj (simplifyNode c false)) cs)).
Proof. rewrite projection_get; [done|]. by apply (bool_decide_unpack _). Qed.

Lemma projection_no_children node :
  "children" ∉ Object_keys (simplifyNode node false).
Proof.
  intros [v Hv]%Map_get_key. rewrite projection_children in Hv.
  by destruct (children node).
Qed.

Lemma projection_keys_NoDup node includeChildren :
  NoDup (Object_keys (simplifyNode node includeChildren)).
Proof.
  rewrite simplifyNode_table. unfold Object_keys. rewrite fmap_app.
  eapply sublist_NoDup; [apply attribute_keys_NoDup|].
  apply sublist_app; [done|].
  rewrite <- (slots_keys node includeChildren). apply present_keys.
Qed.

Lemma projection_keys_order node includeChildren :
  Object_keys (simplifyNode node includeChildren)
  `sublist_of` (["id"; "name"; "type"] ++ attribute_keys)%list.
Proof.
  rewrite simplifyNode_table. unfold Object_keys. rewrite fmap_app.
  apply sublist_app; [done|].
  rewrite <- (slots_keys node includeChildren). apply present_keys.
Qed.


(** *** Navigation *)

Lemma getChildrenAtDepth_unfold n d :
  getChildrenAtDepth n d
  = if (0 <? d)%float then
      match children n with
      | Some ch =>
          obj_set (simplifyNode n false) "children"
            (VArr (map (fun c => VObj (getChildrenAtDepth c (d - 1)%float)) ch))
      | None => simplifyNode n false
      end
    else simplifyNode n false.
Proof. by destruct n. Qed.

(** The arithmetic of the depths the tool accepts, on doubles. *)
Lemma depth_arith j :
  j < 10 ->
  (0 <? nat2float (S j))%float = true
  /\ (nat2float (S j) - 1)%float = nat2float j.
Proof.
  intros Hj. do 10 (destruct j as [|j]; [by vm_compute|]). lia.
Qed.

Lemma getChildrenAtDepth_expand j n :
  j <= 10 -> getChildrenAtDepth n (nat2float j) = expand j n.
Proof.
  revert n. induction j as [|j IH]; intros n Hj.
  - rewrite getChildrenAtDepth_unfold. done.
  - rewrite getChildrenAtDepth_unfold.
    destruct (depth_arith j) as [-> ->]; [lia|]. simpl.
    destruct (children n) as [ch|]; [|done].
    do 2 f_equal. apply map_ext. intros c. rewrite IH; [done|lia].
Qed.

Lemma expand_children j n :
  Map_get (expand j n) "children"
  = match j with
    | O => None
    | S j' => (fun ch => VArr (map (fun c => VObj (expand j' c)) ch)) <$> children n
    end.
Proof.
  destruct j as [|j]; simpl.
  - destruct (Map_get _ _) eqn:E; [|done].
    exfalso. apply (projection_no_children n), Map_get_key. by eexists.
  - destruct (children n) as [ch|] eqn:E; simpl.
    + apply Map_get_set_eq.
    + rewrite projection_children, E. done.
Qed.

Lemma expand_rest j n :
  Map_delete (expand j n) "children" = simplifyNode n false.
Proof.
  pose proof (projection_no_children n) as Hno.
  destruct j as [|j]; simpl; [by apply Map_delete_absent|].
  destruct (children n); [|by apply Map_delete_absent].
  unfold obj_set. rewrite Map_set_fresh by done.
  unfold Map_delete. rewrite List.filter_app. simpl.
  rewrite app_nil_r. by apply Map_delete_absent.
Qed.

Lemma descend_expand k j n :
  k <= j ->
  descend k (VObj (expand j n))
  = map (fun m => VObj (expand (j - k) m)) (descendants k n).
Proof.
  revert j n. induction k as [|k IH]; intros j n Hk.
  - simpl. by rewrite Nat.sub_0_r.
  - destruct j as [|j]; [lia|].
    change (descend (S k) (VObj (expand (S j) n)))
      with (match obj_get (expand (S j) n) "children" with
            | VArr xs => concat (map (descend k) xs)
            | _ => []
            end).
    unfold obj_get. rewrite expand_children.
    change (descendants (S k) n)
      with (match children n with
            | Some cs => concat (map (descendants k) cs)
            | None => []
            end).
    destruct (children n) as [ch|]; [|done]. simpl.
    induction ch as [|c ch IHch]; [done|].
    simpl. rewrite map_app, IHch. f_equal. apply IH. lia.
Qed.

Lemma descend_beyond k j n : j < k -> descend k (VObj (expand j n)) = [].
Proof.
  revert k n. induction j as [|j IH]; intros k n Hk;
    (destruct k as [|k]; [lia|]);
    change (descend (S k) (VObj (expand ?j n)))
      with (match obj_get (expand j n) "children" with
            | VArr xs => concat (map (descend k) xs)
            | _ => []
            end);
    unfold obj_get; rewrite expand_children; [done|].
  destruct (children n) as [ch|]; [|done]. simpl.
  induction ch as [|c ch IHch]; [done|].
  simpl. rewrite IHch, app_nil_r. apply IH. lia.
Qed.


(** C9.  For a node that has children and a requested depth [N] between 1
    and 10, [get_children] returns without error; the values found [k]
    levels down the result, for every [k] from 1 to [N], are the
    projections of the nodes found [k] levels down the node, one for one
    and in order; such a projection carries a [children] field exactly when
    [k < N] and its node has children, so at level [N] none does, and
    nothing is returned below level [N].  Without a depth the depth is 1. *)
Theorem get_children_depth figma nodeId node cs N :
  getNodeByIdAsync figma nodeId = Some (IsScene node) ->
  children node = Some cs ->
  1 <= N <= 10 ->
  handleGetChildren figma nodeId None
  = handleGetChildren figma nodeId (Some 1%float)
  /\ exists r,
      handleGetChildren figma nodeId (Some (nat2float N)) = Ok r
      /\ (forall k, 1 <= k <= N ->
            Forall2 (fun v n =>
                       exists o, v = VObj o
                         /\ Map_delete o "children" = simplifyNode n false
                         /\ (obj_has o "children" = true
                             <-> k < N /\ is_Some (children n)))
                    (descend k (VObj r)) (descendants k node))
      /\ descend (S N) (VObj r) = [].
Proof.
  intros Hfind Hcs HN. split; [done|].
  unfold handleGetChildren, findNodeById. rewrite Hfind. simpl. rewrite Hcs.
  eexists. split; [reflexivity|]. simpl default.
  destruct N as [|j]; [lia|].
  destruct (depth_arith j) as [_ ->]; [lia|].
  assert (Hlevel : forall k, descend (S k)
            (VObj [("id", VStr (id node)); ("name", VStr (name node));
                   ("type", VStr (type node));
                   ("children",
                    VArr (map (fun c => VObj (getChildrenAtDepth c (nat2float j))) cs))])
          = concat (map (fun c => descend k (VObj (expand j c))) cs)).
  { intros k. simpl. f_equal. rewrite map_map. apply map_ext.
    intros c. rewrite getChildrenAtDepth_expand; [done|lia]. }
  split.
  - intros k Hk. destruct k as [|k]; [lia|].
    rewrite (Hlevel k). simpl descendants. rewrite Hcs.
    clear Hlevel Hcs Hfind.
    induction cs as [|c cs IH]; simpl; [constructor|].
    apply Forall2_app; [|done].
    rewrite descend_expand by lia.
    apply Forall2_fmap_l, Forall_Forall2_diag, Forall_forall.
    intros n _. exists (expand (j - k) n). split_and!; [done|apply expand_rest|].
    unfold obj_has. rewrite bool_decide_eq_true.
    change ((expand (j - k) n).*1) with (Object_keys (expand (j - k) n)).
    unfold Object_keys. rewrite <- Map_get_key, expand_children.
    destruct (j - k) as [|d] eqn:E.
    + split; [by intros [? ?]|]. intros [? _]. lia.
    + rewrite fmap_is_Some. split; [intros ?; split; [lia|done]|by intros [_ ?]].
  - etrans; [apply (Hlevel (S j))|]. clear Hlevel Hcs.
    induction cs as [|c cs IH]; [done|]. cbn [map concat].
    rewrite IH, app_nil_r. apply descend_beyond. lia.
Qed.

(** C4.  The projection is a function of the node alone: projecting the
    same node twice gives the same object, with the same serialization;
    its keys are pairwise different and always come in the one order of
    the source, [id], [name] and [type] first. *)
Theorem projection_deterministic node1 node2 includeChildren :
  node1 = node2 ->
  simplifyNode node1 includeChildren = simplifyNode node2 includeChildren
  /\ JSON_stringify (VObj (simplifyNode node1 includeChildren))
     = JSON_stringify (VObj (simplifyNode node2 includeChildren))
  /\ Object_keys (simplifyNode node1 includeChildren)
     = Object_keys (simplifyNode node2 includeChildren)
  /\ NoDup (Object_keys (simplifyNode node1 includeChildren))
  /\ Object_keys (simplifyNode node1 includeChildren)
     `sublist_of` (["id"; "name"; "type"] ++ attribute_keys)%list
  /\ take 3 (simplifyNode node1 includeChildren) = identity node1.
Proof.
  intros <-. split_and!; [done..| | |].
  - apply projection_keys_NoDup.
  - apply projection_keys_order.
  - by rewrite simplifyNode_table.
Qed.


(** *** The differ *)

Lemma same_json_refl v : same_json v v = true.
Proof. by apply bool_decide_eq_true_2. Qed.

Lemma same_json_sym a b : same_json a b = same_json b a.
Proof. unfold same_json. apply bool_decide_ext. split; by intros ->. Qed.

Lemma compare_loop a b acc keys :
  NoDup (acc.*1 ++ keys) ->
  foldl (fun differences key =>
           let valA := obj_get a key in
           let valB := obj_get b key in
           if negb (same_json valA valB)
           then obj_set differences key (VObj [("a", valA); ("b", valB)])
           else differences) acc keys
  = (acc ++ (difference a b <$> differing a b keys))%list.
Proof.
  revert acc. induction keys as [|k keys IH]; intros acc Hnd.
  - simpl. by rewrite app_nil_r.
  - apply NoDup_app in Hnd as (Hacc & Hdisj & [Hk Hkeys]%NoDup_cons).
    assert (Hfresh : k ∉ acc.*1) by (intros Hin; apply (Hdisj _ Hin); left).
    simpl. unfold differing in *. simpl.
    destruct (negb (same_json (obj_get a k) (obj_get b k))).
    + unfold obj_set. rewrite Map_set_fresh by done. rewrite IH.
      * by rewrite <- app_assoc.
      * rewrite fmap_app. simpl. rewrite <- app_assoc. simpl.
        apply NoDup_app. split_and!; [done| |by apply NoDup_cons].
        intros x Hx [->|Hin]%elem_of_cons; [done|].
        apply (Hdisj _ Hx). by right.
    + apply IH. apply NoDup_app. split_and!; [done| |done].
      intros x Hx Hin. apply (Hdisj _ Hx). by right.
Qed.

Lemma difference_keys a b keys : (difference a b <$> keys).*1 = keys.
Proof. induction keys as [|k keys IH]; simpl; by f_equal. Qed.

Lemma difference_get a b keys k :
  k ∈ keys ->
  obj_get (difference a b <$> keys) k
  = VObj [("a", obj_get a k); ("b", obj_get b k)].
Proof.
  unfold obj_get at 1.
  induction keys as [|k0 keys IH]; [by intros ?%elem_of_nil|].
  intros Hin. simpl. destruct (String.eqb_spec k0 k) as [->|Hne]; [done|].
  apply IH. apply elem_of_cons in Hin as [?|?]; [congruence|done].
Qed.

(** What [handleCompareVariants] returns for two nodes that are found. *)
Lemma handleCompareVariants_found figma idA idB a b :
  getNodeByIdAsync figma idA = Some (IsScene a) ->
  getNodeByIdAsync figma idB = Some (IsScene b) ->
  let keys := new_Set (Object_keys (simplifyNode a true)
                       ++ Object_keys (simplifyNode b true))%list in
  let differences :=
    difference (simplifyNode a true) (simplifyNode b true)
    <$> differing (simplifyNode a true) (simplifyNode b true) keys in
  handleCompareVariants figma idA idB
  = Ok {| nodeA := (id a, name a); nodeB := (id b, name b);
          differences := differences;
          differenceCount := length (Object_keys differences) |}.
Proof.
  intros Ha Hb keys differences. subst differences.
  unfold handleCompareVariants, findNodeById. rewrite Ha, Hb. simpl.
  rewrite (compare_loop _ _ []); [done|]. apply new_Set_NoDup.
Qed.

(** C8.  Comparing a node with itself returns no difference and the count
    0.  Comparing [a] with [b] and [b] with [a] reports the same keys,
    hence the same count, and under each of them the two values with [a]
    and [b] exchanged. *)
Theorem compare_variants_symmetric figma idA idB a b :
  getNodeByIdAsync figma idA = Some (IsScene a) ->
  getNodeByIdAsync figma idB = Some (IsScene b) ->
  handleCompareVariants figma idA idA
  = Ok {| nodeA := (id a, name a); nodeB := (id a, name a);
          differences := []; differenceCount := 0 |}
  /\ exists ab ba,
      handleCompareVariants figma idA idB = Ok ab
      /\ handleCompareVariants figma idB idA = Ok ba
      /\ nodeA ab = nodeB ba /\ nodeB ab = nodeA ba
      /\ (forall key, key ∈ Object_keys (differences ab)
                      <-> key ∈ Object_keys (differences ba))
      /\ differenceCount ab = differenceCount ba
      /\ (forall key, key ∈ Object_keys (differences ab) ->
            exists valA valB,
              obj_get (differences ab) key = VObj [("a", valA); ("b", valB)]
              /\ obj_get (differences ba) key = VObj [("a", valB); ("b", valA)]).
Proof.
  intros Ha Hb. split.
  - rewrite (handleCompareVariants_found _ _ _ _ _ Ha Ha). simpl.
    assert (differing (simplifyNode a true) (simplifyNode a true)
              (new_Set (Object_keys (simplifyNode a true)
                        ++ Object_keys (simplifyNode a true))) = []) as ->; [|done].
    unfold differing. generalize (new_Set (Object_keys (simplifyNode a true)
                                           ++ Object_keys (simplifyNode a true))).
    intros l. induction l as [|k l IH]; [done|].
    simpl. by rewrite same_json_refl.
  - rewrite (handleCompareVariants_found _ _ _ _ _ Ha Hb),
      (handleCompareVariants_found _ _ _ _ _ Hb Ha).
    do 2 eexists. split; [reflexivity|]. split; [reflexivity|]. simpl.
    set (pa := simplifyNode a true). set (pb := simplifyNode b true).
    unfold Object_keys at 1 3 5 6 7. rewrite !difference_keys.
    assert (Hsame : forall key,
               key ∈ differing pa pb (new_Set (Object_keys pa ++ Object_keys pb))
               <-> key ∈ differing pb pa (new_Set (Object_keys pb ++ Object_keys pa))).
    { intros key. unfold differing. rewrite !filter_elem, !new_Set_elem, !elem_of_app.
      rewrite (same_json_sym (obj_get pa key)). tauto. }
    split_and!; [done|done|done| |].
    + apply Permutation_length, NoDup_Permutation;
        [apply filter_NoDup, new_Set_NoDup..|done].
    + intros key Hkey. do 2 eexists.
      split; [by apply difference_get|].
      apply difference_get. by apply Hsame.
Qed.

(** *** The scorer *)

Lemma count_matches_loop a b keys matches total :
  foldl (fun counters key =>
           let '(matches, total) := counters in
           if includes ["id"; "name"; "children"] key then (matches, total)
           else
             let total := S total in
             if same_json (obj_get a key) (obj_get b key)
             then (S matches, total)
             else (matches, total))
        (matches, total) keys
  = (matches
     + length (List.filter (fun k => same_json (obj_get a k) (obj_get b k))
                 (List.filter (fun k => negb (includes ["id"; "name"; "children"] k))
                    keys)),
     total
     + length (List.filter (fun k => negb (includes ["id"; "name"; "children"] k))
                 keys)).
Proof.
  revert matches total. induction keys as [|k keys IH]; intros matches total.
  - simpl. f_equal; lia.
  - simpl. destruct (includes _ k); simpl.
    + apply IH.
    + destruct (same_json _ _); simpl; rewrite IH; f_equal; lia.
Qed.

(** C7, as amended.  The score of two projections is the number of keys
    other than [id], [name] and [children] under which both serialize
    alike, divided by the number of keys other than [id], [name] and
    [children] that either has, and 0 when there is no such key.  For the
    projections of two nodes, [type] is such a key (and so is
    [childCount] when either has it), no key is [children], and the
    division is never by zero. *)
Theorem similarity_score targetNode candidate :
  let target := simplifyNode targetNode false in
  let simplified := simplifyNode candidate false in
  computeSimilarity target simplified
  = (if (0 <? length (counted target simplified))%nat
     then (nat2float (length (agreeing target simplified))
           / nat2float (length (counted target simplified)))%float
     else 0%float)
  /\ (forall k, k ∈ counted target simplified
                <-> (k ∈ Object_keys target \/ k ∈ Object_keys simplified)
                    /\ k <> "id" /\ k <> "name")
  /\ "type" ∈ counted target simplified
  /\ ("childCount" ∈ counted target simplified
      <-> is_Some (children targetNode) \/ is_Some (children candidate))
  /\ 0 < length (counted target simplified)
  /\ (type targetNode = type candidate -> "type" ∈ agreeing target simplified).
Proof.
  intros target simplified.
  assert (Hcounted : forall k, k ∈ counted target simplified
                <-> (k ∈ Object_keys target \/ k ∈ Object_keys simplified)
                    /\ k <> "id" /\ k <> "name").
  { intros k. unfold counted. rewrite filter_elem, new_Set_elem, elem_of_app.
    unfold includes. rewrite negb_true_iff, bool_decide_eq_false.
    rewrite !elem_of_cons, elem_of_nil.
    split; [intros [? Hnot]; split_and!; [done|intros ->; apply Hnot; auto..]|].
    intros (Hin & ? & ?). split; [done|].
    intros [?|[?|[->|[]]]]; [done..|].
    destruct Hin as [Hin|Hin]; by apply projection_no_children in Hin. }
  assert (Htype : forall n, "type" ∈ Object_keys (simplifyNode n false)).
  { intros n. rewrite simplifyNode_table. unfold Object_keys.
    rewrite fmap_app. apply elem_of_app. left. simpl. right. right. left. }
  assert (Hin : "type" ∈ counted target simplified).
  { apply Hcounted. split_and!; [left; apply Htype|done..]. }
  split_and!; [|done|done| | |].
  - unfold computeSimilarity, count_matches.
    rewrite (count_matches_loop _ _ _ 0 0). done.
  - rewrite Hcounted. unfold Object_keys.
    rewrite <- !Map_get_key. subst target simplified.
    rewrite !projection_get by (by apply (bool_decide_unpack _)).
    change (mjoin (Map_get (slots targetNode false) "childCount"))
      with ((fun cs => VNum (nat2float (length cs))) <$> children targetNode).
    change (mjoin (Map_get (slots candidate false) "childCount"))
      with ((fun cs => VNum (nat2float (length cs))) <$> children candidate).
    rewrite !fmap_is_Some. split; [tauto|]. intros H. by split_and!.
  - destruct (counted target simplified); [by apply elem_of_nil in Hin|simpl; lia].
  - intros Htypes. unfold agreeing. apply filter_elem. split; [done|].
    apply bool_decide_eq_true_2. subst target simplified.
    unfold obj_get. rewrite !simplifyNode_table, !Map_get_app. simpl.
    by rewrite Htypes.
Qed.

(** *** The scores [handleFindSimilar] reports *)

Lemma similar_loop target threshold candidates acc :
  foldl (fun similar candidate =>
           let simplified := simplifyNode candidate false in
           let similarity := computeSimilarity target simplified in
           if (threshold <=? similarity)%float
           then (similar ++ [{| similar_node := simplified;
                                similarity :=
                                  (Math_round (similarity * 100) / 100)%float |}])%list
           else similar)
        acc candidates
  = (acc ++ omap (scored target threshold) candidates)%list.
Proof.
  revert acc. induction candidates as [|c cs IH]; intros acc; simpl.
  - by rewrite app_nil_r.
  - rewrite IH. unfold scored at 2.
    destruct (threshold <=? _)%float; simpl; [by rewrite <- app_assoc|done].
Qed.

Lemma handleFindSimilar_found figma nodeId threshold targetNode :
  getNodeByIdAsync figma nodeId = Some (IsScene targetNode) ->
  let target := simplifyNode targetNode false in
  let candidates :=
    findAll (currentPage figma)
            (fun n => String.eqb (type n) (type targetNode)
                      && negb (String.eqb (id n) (id targetNode))) in
  let kept := omap (scored target (default 0.7%float threshold)) candidates in
  handleFindSimilar figma nodeId threshold
  = Ok {| Plugin.target := (id targetNode, name targetNode, type targetNode);
          similar := take 20 (Array_sort (fun a b => (similarity b - similarity a)%float) kept);
          total := length kept |}.
Proof.
  intros Hfind target candidates kept. unfold handleFindSimilar, findNodeById.
  rewrite Hfind. simpl. rewrite similar_loop. simpl.
  by rewrite Array_sort_length.
Qed.

Lemma handleFindSimilar_entries figma nodeId threshold targetNode r e :
  getNodeByIdAsync figma nodeId = Some (IsScene targetNode) ->
  handleFindSimilar figma nodeId threshold = Ok r ->
  e ∈ similar r ->
  exists candidate,
    candidate ∈ concat (map subtree (page_children (currentPage figma)))
    /\ type candidate = type targetNode /\ id candidate <> id targetNode
    /\ similar_node e = simplifyNode candidate false
    /\ (default 0.7%float threshold
        <=? computeSimilarity (simplifyNode targetNode false)
                              (simplifyNode candidate false))%float = true
    /\ similarity e
       = (Math_round (computeSimilarity (simplifyNode targetNode false)
                                        (simplifyNode candidate false) * 100)
          / 100)%float.
Proof.
  intros Hfind Hr He. rewrite (handleFindSimilar_found _ _ _ _ Hfind) in Hr.
  injection Hr as <-. simpl in He.
  apply elem_of_take in He as (i & He & _). apply list_elem_of_lookup_2 in He.
  apply Array_sort_elem in He. apply list_elem_of_omap in He as (c & Hc & Hscored).
  unfold findAll in Hc. apply list_elem_of_filter in Hc as [Hcb Hc].
  apply andb_true_iff in Hcb as [Ht Hi].
  apply String.eqb_eq in Ht. apply negb_true_iff, String.eqb_neq in Hi.
  exists c. unfold scored in Hscored.
  destruct (_ <=? _)%float eqn:E; [|done]. injection Hscored as <-.
  by split_and!.
Qed.
(** *** The annotation source of the state inference *)

(** An annotation text that is not empty is recorded as a source before
    it is parsed: when it does not parse, the states and the transitions
    stay as they were and the source stays recorded. *)
Lemma annotationSource_unparseable node states transitions sources :
  getSharedPluginData node "forage" "state-rules" <> "" ->
  JSON_parse (getSharedPluginData node "forage" "state-rules") = None ->
  annotationSource node (states, transitions, sources)
  = (states, transitions, (sources ++ ["annotations"])%list).
Proof.
  intros Hne Hparse. unfold annotationSource. rewrite Hparse.
  destruct (String.eqb_spec (getSharedPluginData node "forage" "state-rules") "");
    [done|reflexivity].
Qed.

(** Whatever the annotation text, a non-empty one is counted. *)
Lemma annotationSource_sources node st :
  getSharedPluginData node "forage" "state-rules" <> "" ->
  (annotationSource node st).2 = (st.2 ++ ["annotations"])%list.
Proof.
  intros Hne. destruct st as [[states transitions] sources].
  unfold annotationSource.
  destruct (String.eqb_spec (getSharedPluginData node "forage" "state-rules") "");
    [done|]. simpl.
  destruct (JSON_parse _) as [parsed|]; [|done].
  destruct parsed; try done;
    repeat (match goal with |- context [if ?b then _ else _] => destruct b end
            || match goal with |- context [match ?x with Some _ => _ | None => _ end] => destruct x end);
    done.
Qed.
End WithRuntime.
End PluginProps.

(** ** Worked examples of the query engine *)

Module PluginExamples.
Import JS Figma Plugin ProjectionTable NavigatorSpec ScorerSpec PluginProps.
Import ExampleData.

Lemma projection_deterministic_witness :
  JSON_stringify (R := reference) (VObj (simplifyNode (R := reference) level1 true))
  = JSON_stringify (R := reference) (VObj (simplifyNode (R := reference) level1 true))
  /\ NoDup (Object_keys (simplifyNode (R := reference) level1 true)).
Proof.
  destruct (projection_deterministic (R := reference) level1 level1 true eq_refl)
    as (_ & H1 & _ & H2 & _).
  exact (conj H1 H2).
Defined.

(** C7, the claim as stated fails: two frames with no attribute at all
    score 1, where the documented score is 0. *)
Lemma bare_nodes_score_one :
  computeSimilarity (R := reference) (simplifyNode (R := reference) plainA false)
                    (simplifyNode (R := reference) plainB false) = 1%float
  /\ documented_similarity (R := reference)
       (simplifyNode (R := reference) plainA false)
       (simplifyNode (R := reference) plainB false) = 0%float
  /\ (exists r, handleFindSimilar (R := reference) (document [plainA; plainB]) "1:1" None = Ok r
                /\ similarity <$> similar r = [1%float]).
Proof. split_and!; [by vm_compute..|]. eexists. split; by vm_compute. Qed.

Lemma compare_variants_symmetric_witness :
  handleCompareVariants (R := reference) (document [buttonSet ""]) "3:1" "3:1"
  = Ok {| nodeA := ("3:1", "State=Default"); nodeB := ("3:1", "State=Default");
          differences := []; differenceCount := 0 |}.
Proof.
  assert (Ha : getNodeByIdAsync (document [buttonSet ""]) "3:1" = Some (IsScene variantA))
    by reflexivity.
  assert (Hb : getNodeByIdAsync (document [buttonSet ""]) "3:2" = Some (IsScene variantB))
    by reflexivity.
  exact (proj1 (compare_variants_symmetric (R := reference) _ "3:1" "3:2" _ _ Ha Hb)).
Defined.

Lemma get_children_depth_witness :
  exists r,
    handleGetChildren (R := reference) (document [tree]) "2:0" (Some 2%float) = Ok r
    /\ descend 3 (VObj r) = [].
Proof.
  assert (Hfind : getNodeByIdAsync (document [tree]) "2:0" = Some (IsScene tree))
    by reflexivity.
  assert (Hcs : children tree = Some [level1]) by reflexivity.
  assert (HN : 1 <= 2 <= 10) by lia.
  destruct (get_children_depth (R := reference) _ _ _ _ 2 Hfind Hcs HN)
    as (_ & r & Hr & _ & Hend).
  exists r. exact (conj Hr Hend).
Defined.

(** With depth 2 the grandchild is returned and has no [children]. *)
Example get_children_depth_two :
  (fun r => JSON_stringify (R := reference) <$> descend 2 (VObj r))
  <$> (match handleGetChildren (R := reference) (document [tree]) "2:0"
               (Some 2%float) with
       | Ok r => Some r
       | Throw _ => None
       end)
  = Some [Some ("{" ++ JSON_quote "id" ++ ":" ++ JSON_quote "2:2" ++ ","
                    ++ JSON_quote "name" ++ ":" ++ JSON_quote "Body" ++ ","
                    ++ JSON_quote "type" ++ ":" ++ JSON_quote "FRAME" ++ ","
                    ++ JSON_quote "width" ++ ":90,"
                    ++ JSON_quote "height" ++ ":40,"
                    ++ JSON_quote "childCount" ++ ":1}")].
Proof. by vm_compute. Qed.

(** C5, the code departs from the claim: the variants [Hover] and [Focus]
    alone, with no [Default] among them, yield the two transitions between
    [Default] and [Focus]. *)
Lemma focus_without_default :
  variantStates (default [] (children hoverFocusSet)) = ["Hover"; "Focus"]
  /\ namedTransitions ["Hover"; "Focus"]
     = [transition "Default" "Focus" "ON_FOCUS";
        transition "Focus" "Default" "ON_BLUR"]
  /\ (exists r, handleInferStates (R := reference) (document [hoverFocusSet]) "4:0" = Ok r
                /\ states r = [VStr "Hover"; VStr "Focus"]
                /\ transitions r = [transition "Default" "Focus" "ON_FOCUS";
                                    transition "Focus" "Default" "ON_BLUR"]).
Proof. split_and!; [by vm_compute..|]. eexists. split_and!; by vm_compute. Qed.

(** C6, the code departs from the claim: an annotation text that does not
    parse is counted as a source, adds its 0.3 to the confidence (0.7
    where the node without an annotation has 0.4) and withholds the
    question that asks for an annotation. *)
Lemma unparseable_annotation_counts :
  JSON_parse (Runtime := reference) "{oops" = None
  /\ (exists r, handleInferStates (R := reference) (document [buttonSet "{oops"]) "3:0" = Ok r
                /\ sources r = ["variant-names"; "annotations"]
                /\ confidence r = (0.4 + 0.3)%float
                /\ openQuestions r = [])
  /\ (exists r, handleInferStates (R := reference) (document [buttonSet ""]) "3:0" = Ok r
                /\ sources r = ["variant-names"]
                /\ confidence r = 0.4%float
                /\ length (openQuestions r) = 1).
Proof.
  split_and!; [by vm_compute| |]; eexists; split_and!; by vm_compute.
Qed.

End PluginExamples.

(** * Further properties of the code *)

Module BridgeMore.
Import JS JSFacts Bridge BridgeSpec BridgeProps BridgeMoreSpec.

Section WithRuntime.
Context {R : Runtime}.

(** *** What an event does to the counters and to the log *)

Lemma settle_fields id req o s :
  let s' := settle id req o s in
  plugin s' = plugin s /\ nextId s' = nextId s
  /\ readyState s' = readyState s /\ socketsAccepted s' = socketsAccepted s
  /\ timersSet s' = timersSet s /\ promisesMade s' = promisesMade s
  /\ sent s' = sent s.
Proof. done. Qed.

(** An event other than an accepted [send] writes no frame and takes no
    id; an accepted [send] writes one frame, under the next id. *)
Lemma step_counters ev s :
  let s' := step ev s in
  (sent s' = sent s /\ nextId s' = nextId s /\ promisesMade s' = promisesMade s)
  \/ (exists ws method params,
        ev = EvSend method params /\ plugin s = Some ws
        /\ sent s' = (sent s ++ [(ws, {| command_id := pretty (increment (nextId s));
                                         command_method := method;
                                         command_params := params |})])%list
        /\ nextId s' = increment (nextId s)
        /\ promisesMade s' = S (promisesMade s)).
Proof.
  intros s'. subst s'.
  destruct ev as [|ws data|ws|ws msg|ws|t|method params|]; unfold step.
  - left. unfold handleConnection.
    destruct (plugin (accept s)); [case_bool_decide|]; done.
  - left. destruct (known ws s); [|done].
    destruct (onMessage_cases data s)
      as [->|[(id & req & o & _ & ->)|(id & req & _ & _ & ->)]]; done.
  - left. destruct (known ws s); [|done]. unfold onClose. rewrite reject_all_loop.
    match goal with |- context [reject_loop ?l ?s0] =>
      destruct (reject_loop_fields l s0) as (_ & -> & _ & _ & _ & -> & -> & _)
    end.
    by case_bool_decide.
  - left. by destruct (known ws s).
  - left. by case_bool_decide.
  - left. by destruct (timers s !! t).
  - destruct (connected s) eqn:Hc.
    + right. destruct (send_connected method params s Hc) as (ws & Hws & ->).
      by exists ws, method, params.
    + left. by rewrite send_not_connected.
  - left. by destruct (close_fields s) as (_ & -> & _ & _ & _ & -> & -> & _).
Qed.

(** The log of calls only grows. *)
Lemma step_settled ev s : exists calls, settled (step ev s) = (settled s ++ calls)%list.
Proof.
  destruct ev as [|ws data|ws|ws msg|ws|t|method params|]; unfold step.
  - exists []. rewrite app_nil_r. unfold handleConnection.
    destruct (plugin (accept s)); [case_bool_decide|]; done.
  - destruct (known ws s); [|by exists []; rewrite app_nil_r].
    destruct (onMessage_cases data s)
      as [->|[(id & req & o & _ & ->)|(id & req & _ & _ & ->)]];
      [by exists []; rewrite app_nil_r|by eexists|by exists []; rewrite app_nil_r].
  - destruct (known ws s); [|by exists []; rewrite app_nil_r].
    destruct (onClose_ends ws s) as (_ & -> & _). by eexists.
  - exists []. rewrite app_nil_r. by destruct (known ws s).
  - exists []. rewrite app_nil_r. by case_bool_decide.
  - destruct (timers s !! t); [by eexists|by exists []; rewrite app_nil_r].
  - exists []. rewrite app_nil_r.
    destruct (connected s) eqn:Hc.
    + by destruct (send_connected method params s Hc) as (ws & Hws & ->).
    + by rewrite send_not_connected.
  - exists []. rewrite app_nil_r.
    by destruct (close_fields s) as (_ & _ & _ & _ & _ & _ & _ & -> & _).
Qed.

Lemma run_settled evs s : exists calls, settled (run evs s) = (settled s ++ calls)%list.
Proof.
  revert s. induction evs as [|ev evs IH]; intros s.
  - exists []. by rewrite app_nil_r.
  - destruct (IH (step ev s)) as (l2 & H2). destruct (step_settled ev s) as (l1 & H1).
    exists (l1 ++ l2)%list. change (run (ev :: evs) s) with (run evs (step ev s)).
    by rewrite H2, H1, app_assoc.
Qed.

Lemma issued_S n : issued (S n) = (issued n ++ [pretty (N.of_nat (S n))])%list.
Proof. unfold issued. by rewrite seq_S, fmap_app. Qed.

Lemma reachable_numbered s :
  reachable s -> (nextId s < 2 ^ 53)%N ->
  nextId s = N.of_nat (promisesMade s) /\ frame_ids s = issued (promisesMade s).
Proof.
  induction 1 as [|s ev Hs IH]; intros Hb; [done|].
  pose proof (step_nextId ev s) as Hle.
  destruct IH as [Hn Hf]; [lia|].
  destruct (step_counters ev s) as [(Hsent & Hnext & Hmade)|
    (ws & method & params & -> & Hws & Hsent & Hnext & Hmade)].
  - unfold frame_ids. by rewrite Hsent, Hnext, Hmade.
  - unfold frame_ids. rewrite Hsent, Hnext, Hmade, fmap_app, issued_S.
    fold (frame_ids s). rewrite Hf. simpl.
    rewrite increment_below by (rewrite Hnext in Hb; unfold increment in Hb;
                                 destruct (nextId s <? 2 ^ 53)%N eqn:E; [by apply N.ltb_lt|lia]).
    rewrite Hn. split; [lia|]. do 3 f_equal. lia.
Qed.

(** X1.  As long as fewer than 2^53 requests were accepted: the counter
    [nextId] is the number of requests [send] accepted, one frame was
    written for each of them and for nothing else, and the [k]-th frame
    (counting from 0) carries the id [String(k + 1)]. *)
Theorem frames_match_requests s :
  reachable s -> (nextId s < 2 ^ 53)%N ->
  nextId s = N.of_nat (promisesMade s)
  /\ length (sent s) = promisesMade s
  /\ (forall k ws command,
        sent s !! k = Some (ws, command) ->
        command_id command = pretty (N.of_nat k + 1)%N).
Proof.
  intros Hs Hb. destruct (reachable_numbered s Hs Hb) as [Hn Hf].
  split; [done|].
  assert (Hlen : length (sent s) = promisesMade s).
  { apply (f_equal length) in Hf. unfold frame_ids, issued in Hf.
    by rewrite !length_fmap, length_seq in Hf. }
  split; [done|]. intros k ws command Hk.
  assert (Hid : frame_ids s !! k = Some (command_id command)).
  { unfold frame_ids. by rewrite list_lookup_fmap, Hk. }
  rewrite Hf in Hid. unfold issued in Hid. rewrite list_lookup_fmap in Hid.
  apply lookup_lt_Some in Hk. rewrite Hlen in Hk.
  rewrite lookup_seq_lt in Hid by done. simpl in Hid.
  injection Hid as <-. f_equal. lia.
Qed.

(** *** A promise without entry stays as it is *)

Lemma detached_settle p id req o s :
  Map_get (pendingRequests s) id = Some req ->
  detached p s ->
  detached p (settle id req o s) /\ settlements p (settle id req o s) = settlements p s.
Proof.
  intros Hget [Hp Hnone]. split.
  - split; [done|]. intros id' req' Hget'. simpl in Hget'.
    destruct (decide (id' = id)) as [->|Hne].
    + by rewrite Map_get_delete_eq in Hget'.
    + rewrite Map_get_delete_ne in Hget' by done. by eapply Hnone.
  - rewrite settlements_settle, decide_False; [lia|]. by eapply Hnone.
Qed.

Lemma detached_forget p id req s :
  detached p s ->
  detached p (forget id req s) /\ settlements p (forget id req s) = settlements p s.
Proof.
  intros [Hp Hnone]. split; [|done].
  split; [done|]. intros id' req' Hget'. simpl in Hget'.
  destruct (decide (id' = id)) as [->|Hne].
  - by rewrite Map_get_delete_eq in Hget'.
  - rewrite Map_get_delete_ne in Hget' by done. by eapply Hnone.
Qed.

Lemma detached_reject_loop p l s :
  NoDup l.*1 ->
  (forall id req, (id, req) ∈ l -> Map_get (pendingRequests s) id = Some req) ->
  detached p s ->
  detached p (reject_loop l s) /\ settlements p (reject_loop l s) = settlements p s.
Proof.
  revert s. induction l as [|[id req] l IH]; intros s Hl Hin Hd; [done|].
  rewrite reject_loop_cons. rewrite fmap_cons in Hl. apply NoDup_cons in Hl as [Hid Hl].
  assert (Hget : Map_get (pendingRequests s) id = Some req) by (apply Hin; left).
  destruct (detached_settle p id req (Rejected "Figma plugin disconnected") s Hget Hd)
    as [Hd' Heq].
  destruct (IH (settle id req (Rejected "Figma plugin disconnected") s)) as [Hd'' Heq''];
    [done| |done|].
  - intros id' req' Hin'. simpl.
    rewrite Map_get_delete_ne; [apply Hin; by right|].
    intros ->. apply Hid. apply list_elem_of_fmap. by exists (id', req').
  - split; [done|]. by rewrite Heq''.
Qed.

Lemma detached_frame p s s' :
  pendingRequests s' = pendingRequests s -> promisesMade s' = promisesMade s ->
  settled s' = settled s ->
  detached p s -> detached p s' /\ settlements p s' = settlements p s.
Proof.
  intros H1 H2 H3 [Hp Hnone]. unfold detached, settlements. by rewrite H1, H2, H3.
Qed.

Lemma step_detached p ev s :
  consistent s -> detached p s ->
  detached p (step ev s) /\ settlements p (step ev s) = settlements p s.
Proof.
  intros Hs Hd.
  destruct ev as [|ws data|ws|ws msg|ws|t|method params|]; unfold step.
  - unfold handleConnection.
    destruct (plugin (accept s)); [case_bool_decide|]; by apply (detached_frame p s).
  - destruct (known ws s); [|done].
    destruct (onMessage_cases data s)
      as [->|[(id & req & o & Hget & ->)|(id & req & _ & _ & ->)]]; [done| |].
    + by apply detached_settle.
    + by apply detached_forget.
  - destruct (known ws s); [|done]. unfold onClose. rewrite reject_all_loop.
    assert (forall s0, pendingRequests s0 = pendingRequests s ->
              promisesMade s0 = promisesMade s -> settled s0 = settled s ->
              detached p (reject_loop (pendingRequests s0) s0)
              /\ settlements p (reject_loop (pendingRequests s0) s0) = settlements p s)
      as Hloop.
    { intros s0 H1 H2 H3.
      destruct (detached_frame p s s0 H1 H2 H3 Hd) as [Hd0 Heq0].
      destruct (detached_reject_loop p (pendingRequests s0) s0) as [Hd1 Heq1];
        [rewrite H1; apply (keys_once s Hs)| |done|].
      - intros id req. apply Map_get_NoDup. rewrite H1. apply (keys_once s Hs).
      - split; [done|]. by rewrite Heq1. }
    case_bool_decide; by apply Hloop.
  - by destruct (known ws s).
  - case_bool_decide; [|done]. by apply (detached_frame p s).
  - destruct (timers s !! t) as [task|] eqn:E; [|done].
    pose proof (timer_entry s Hs _ _ E) as Hentry.
    apply (detached_settle p (task_id task) _
             (Rejected ("Request timed out after 10s: " ++ task_method task)) s Hentry Hd).
  - destruct (connected s) eqn:Hc; [|by rewrite send_not_connected].
    destruct (send_connected method params s Hc) as (ws & _ & ->).
    destruct Hd as [Hp Hnone]. split; [|done]. split; [simpl; lia|].
    intros id req Hget. simpl in Hget.
    destruct (decide (id = pretty (increment (nextId s)))) as [->|Hne].
    + rewrite Map_get_set_eq in Hget. injection Hget as <-. simpl. lia.
    + rewrite Map_get_set_ne in Hget by done. by eapply Hnone.
  - destruct (close_fields s) as (_ & _ & _ & _ & _ & Hmade & _ & Hsettled & Hpend & _).
    split; [|unfold settlements; by rewrite Hsettled].
    destruct Hd as [Hp _]. split; [by rewrite Hmade|].
    intros id req. by rewrite Hpend.
Qed.

Lemma run_detached p evs s :
  reachable s -> (nextId (run evs s) < 2 ^ 53)%N -> detached p s ->
  settlements p (run evs s) = settlements p s.
Proof.
  revert s. induction evs as [|ev evs IH]; intros s Hs Hb Hd; [done|].
  change (run (ev :: evs) s) with (run evs (step ev s)) in *.
  assert (Hbs : (nextId s < 2 ^ 53)%N).
  { pose proof (step_nextId ev s).
    assert (nextId (step ev s) <= nextId (run evs (step ev s)))%N; [|lia].
    clear. generalize (step ev s). induction evs as [|e evs IH]; intros s0; [apply N.le_refl|].
    change (run (e :: evs) s0) with (run evs (step e s0)).
    pose proof (step_nextId e s0). specialize (IH (step e s0)). lia. }
  destruct (step_detached p ev s (reachable_consistent s Hs Hbs) Hd) as [Hd' Heq].
  rewrite IH; [done|by constructor|done|done].
Qed.

Lemma run_nextId evs s : (nextId s <= nextId (run evs s))%N.
Proof.
  revert s. induction evs as [|e evs IH]; intros s; [apply N.le_refl|].
  change (run (e :: evs) s) with (run evs (step e s)).
  pose proof (step_nextId e s). specialize (IH (step e s)). lia.
Qed.

(** An entry that is forgotten leaves its promise detached and
    unsettled. *)
Lemma forget_detached id req s :
  consistent s -> Map_get (pendingRequests s) id = Some req ->
  detached (promise req) (forget id req s)
  /\ settlements (promise req) (forget id req s) = 0.
Proof.
  intros Hc Hget.
  destruct (entry_timer s Hc _ _ Hget) as (task & Htask & Hid & Hp).
  destruct (timer_promise s Hc _ _ Htask) as (Ht & Hlt & Hzero).
  split; [|by rewrite <- Hp]. split.
  - simpl. rewrite <- Hp, Ht, <- (made_together s Hc). done.
  - intros id' req' Hget' Hsame. simpl in Hget'.
    destruct (decide (id' = id)) as [->|Hne];
      [by rewrite Map_get_delete_eq in Hget'|].
    rewrite Map_get_delete_ne in Hget' by done.
    destruct (entry_timer s Hc _ _ Hget') as (task' & Htask' & Hid' & Hp').
    destruct (timer_promise s Hc _ _ Htask') as (Ht' & _ & _).
    assert (Hkey : timer req' = timer req) by congruence.
    rewrite Hkey, Htask in Htask'. injection Htask' as <-. congruence.
Qed.

(** A response whose error cannot be converted ends the entry of its
    request and leaves the promise unsettled for ever. *)
Lemma unconvertible_response_forgets s id req ws data response evs :
  reachable s -> Map_get (pendingRequests s) id = Some req ->
  known ws s = true ->
  JSON_parse data = Some response -> prop response "id" = VStr id ->
  unconvertible response = true ->
  (nextId (run evs (step (EvMessage ws data) s)) < 2 ^ 53)%N ->
  Map_get (pendingRequests (step (EvMessage ws data) s)) id = None
  /\ timers (step (EvMessage ws data) s) !! timer req = None
  /\ settled (step (EvMessage ws data) s) = settled s
  /\ settlements (promise req) (run evs (step (EvMessage ws data) s)) = 0.
Proof.
  intros Hs Hget Hws Hparse Hid Hbad Hb.
  assert (Hbs : (nextId s < 2 ^ 53)%N).
  { pose proof (step_nextId (EvMessage ws data) s).
    pose proof (run_nextId evs (step (EvMessage ws data) s)). lia. }
  pose proof (reachable_consistent s Hs Hbs) as Hc.
  assert (Hstep : step (EvMessage ws data) s = forget id req s).
  { simpl. rewrite Hws. by apply (onMessage_unconvertible _ response). }
  destruct (forget_detached id req s Hc Hget) as [Hd Hzero].
  split_and!.
  - rewrite Hstep. apply Map_get_delete_eq.
  - rewrite Hstep. apply lookup_delete_eq.
  - by rewrite Hstep.
  - rewrite run_detached.
    + by rewrite Hstep.
    + by apply reachable_step.
    + done.
    + by rewrite Hstep.
Qed.

(** X2.  [close()] settles nothing: a request that is pending when
    [close()] is called has its entry and its timeout removed, and its
    promise is never resolved nor rejected, whatever happens to the bridge
    afterwards. *)
Theorem shutdown_settles_nothing s id req evs :
  reachable s -> Map_get (pendingRequests s) id = Some req ->
  (nextId (run evs (step EvShutdown s)) < 2 ^ 53)%N ->
  pendingRequests (step EvShutdown s) = []
  /\ timers (step EvShutdown s) !! timer req = None
  /\ settlements (promise req) (run evs (step EvShutdown s)) = 0.
Proof.
  intros Hs Hget Hb.
  assert (Hbs : (nextId s < 2 ^ 53)%N).
  { destruct (close_fields s) as (_ & Hn & _).
    change (step EvShutdown s) with (close s) in Hb.
    assert (nextId (close s) <= nextId (run evs (close s)))%N; [|lia].
    generalize (close s). clear. induction evs as [|e evs IH]; intros s0; [apply N.le_refl|].
    change (run (e :: evs) s0) with (run evs (step e s0)).
    pose proof (step_nextId e s0). specialize (IH (step e s0)). lia. }
  pose proof (reachable_consistent s Hs Hbs) as Hc.
  destruct (entry_timer s Hc _ _ Hget) as (task & Htask & _ & Hp).
  destruct (timer_promise s Hc _ _ Htask) as (Ht & Hlt & Hzero).
  destruct (close_fields s) as (_ & _ & _ & _ & _ & Hmade & _ & Hsettled & Hpend & Htimers).
  change (step EvShutdown s) with (close s) in *. split; [done|]. split.
  { rewrite Htimers, clear_all_lookup, decide_True; [done|].
    apply list_elem_of_fmap. exists (id, req). split; [done|]. by apply Map_get_elem. }
  rewrite run_detached.
  - unfold settlements. rewrite Hsettled. by rewrite <- Hp.
  - by apply (reachable_step s EvShutdown).
  - done.
  - split.
    + rewrite Hmade, <- Hp, Ht, <- (made_together s Hc). done.
    + intros id' req'. by rewrite Hpend.
Qed.

(** X3.  A frame from the plugin never writes a frame, takes an id or
    touches the connection; it either leaves the bridge exactly as it was
    -- always so when the text does not parse -- or it ends one pending
    request: one entry and its timeout are removed, and one call of
    [resolve] or [reject] is made, unless the error of the response
    cannot be converted to text: then no call is made and the promise
    stays unsettled.  A frame whose response has no error, or an error
    whose code and message can be converted, always makes the call. *)
Theorem message_ends_at_most_one ws data s :
  let s' := step (EvMessage ws data) s in
  plugin s' = plugin s /\ readyState s' = readyState s
  /\ nextId s' = nextId s /\ sent s' = sent s
  /\ timersSet s' = timersSet s /\ promisesMade s' = promisesMade s
  /\ (s' = s
      \/ exists id req,
           Map_get (pendingRequests s) id = Some req
           /\ pendingRequests s' = Map_delete (pendingRequests s) id
           /\ timers s' = delete (timer req) (timers s)
           /\ ((exists outcome,
                  settled s' = (settled s ++ [(promise req, outcome)])%list)
               \/ (settled s' = settled s
                   /\ exists response,
                        JSON_parse data = Some response
                        /\ unconvertible response = true)))
  /\ (JSON_parse data = None -> s' = s)
  /\ (forall response,
        JSON_parse data = Some response -> unconvertible response = false ->
        s' = s
        \/ exists id req outcome,
             Map_get (pendingRequests s) id = Some req
             /\ pendingRequests s' = Map_delete (pendingRequests s) id
             /\ timers s' = delete (timer req) (timers s)
             /\ settled s' = (settled s ++ [(promise req, outcome)])%list).
Proof.
  intros s'. subst s'. simpl. destruct (known ws s); [|by split_and!; auto].
  split_and!;
    try (destruct (onMessage_cases data s)
           as [->|[(id & req & o & _ & ->)|(id & req & _ & _ & ->)]]; done).
  - destruct (onMessage_cases data s)
      as [->|[(id & req & o & Hget & ->)|(id & req & Hget & Hbad & ->)]]; [by left| |].
    + right. exists id, req. split_and!; [done..|]. left. by exists o.
    + right. exists id, req. split_and!; [done..|]. right. split; [done|].
      unfold forgets in Hbad. destruct (JSON_parse data) as [response|]; [|done].
      by exists response.
  - intros Hparse. unfold onMessage. by rewrite Hparse.
  - intros response Hparse Hok.
    destruct (onMessage_cases data s)
      as [->|[(id & req & o & Hget & ->)|(id & req & Hget & Hbad & ->)]]; [by left| |].
    + right. by exists id, req, o.
    + unfold forgets in Hbad. rewrite Hparse in Hbad. congruence.
Qed.


End WithRuntime.
End BridgeMore.

Module ServerProps.
Import JS JSMore JSFacts Bridge BridgeSpec BridgeProps BridgeMore Handlers Server.

Lemma find_unsettled (l : list (Promise * Settlement)) p :
  length (filter (fun call => call.1 = p) l) = 0 ->
  List.find (fun call => bool_decide (call.1 = p)) l = None.
Proof.
  induction l as [|call l IH]; [done|]. simpl. rewrite filter_cons.
  case_bool_decide as Hc.
  - rewrite decide_True by done. done.
  - rewrite decide_False by done. done.
Qed.

Lemma find_app_none {A : Type} (f : A -> bool) l1 l2 :
  List.find f l1 = None -> List.find f (l1 ++ l2) = List.find f l2.
Proof.
  induction l1 as [|x l1 IH]; [done|]. simpl. destruct (f x); [done|]. exact IH.
Qed.

Lemma find_app_some {A : Type} (f : A -> bool) l1 l2 x :
  List.find f l1 = Some x -> List.find f (l1 ++ l2) = Some x.
Proof.
  induction l1 as [|y l1 IH]; [done|]. simpl. destruct (f y); [done|]. exact IH.
Qed.

Lemma outcome_of_unsettled p s : settlements p s = 0 -> outcome_of p s = None.
Proof. intros H. unfold outcome_of. by rewrite find_unsettled. Qed.

Lemma outcome_of_first p o s s' calls :
  outcome_of p s = None ->
  settled s' = (settled s ++ (p, o) :: calls)%list ->
  outcome_of p s' = Some o.
Proof.
  unfold outcome_of. intros Hnone ->.
  destruct (List.find _ (settled s)) eqn:E; [done|].
  rewrite find_app_none by done. simpl. by rewrite bool_decide_eq_true_2.
Qed.

Lemma outcome_of_disconnect p (l : list (string * PendingRequest)) id req :
  (id, req) ∈ l -> promise req = p ->
  snd <$> List.find (fun call => bool_decide (call.1 = p)) (disconnect_call <$> l)
  = Some (Rejected "Figma plugin disconnected").
Proof.
  intros Hin Hp. induction l as [|[id' req'] l IH]; [by apply elem_of_nil in Hin|].
  rewrite fmap_cons. simpl. case_bool_decide as Hc; [done|].
  apply elem_of_cons in Hin as [Heq|Hin]; [|by apply IH].
  injection Heq as -> ->. done.
Qed.

Section WithRuntime.
Context {R : Runtime}.

Lemma outcome_of_run p o evs s :
  outcome_of p s = Some o -> outcome_of p (run evs s) = Some o.
Proof.
  unfold outcome_of. intros H. destruct (run_settled evs s) as (calls & ->).
  destruct (List.find _ (settled s)) as [call|] eqn:E; [|done].
  by rewrite (find_app_some _ _ _ _ E).
Qed.

(** X5.  On a bridge without an open connection a tool call sends
    nothing, leaves the bridge as it was, and answers at once with the
    error result that carries the connection error. *)
Theorem tool_call_without_connection method params s later :
  connected s = false ->
  (safeCall method params s).1 = s
  /\ (safeCall method params s).2 later
     = Some (errorResult
               "Not connected to Figma plugin. Is the Forage plugin running in Figma?").
Proof.
  intros Hc. unfold safeCall. by rewrite send_not_connected.
Qed.

(** What [safeCall] does on a connected bridge. *)
Lemma safeCall_connected method params s :
  reachable s -> (nextId s < 2 ^ 53)%N -> connected s = true ->
  let s1 := (safeCall method params s).1 in
  let id := pretty (nextId s + 1)%N in
  (safeCall method params s).2
  = (fun later =>
       match outcome_of (promisesMade s) later with
       | Some (Resolved result) => Some (textResult (callPlugin result))
       | Some (Rejected message) => Some (errorResult message)
       | None => None
       end)
  /\ Map_get (pendingRequests s1) id
     = Some {| promise := promisesMade s; timer := timersSet s |}
  /\ timers s1 !! timersSet s
     = Some {| task_id := id; task_reject := promisesMade s;
               task_method := method; task_delay := REQUEST_TIMEOUT_MS |}
  /\ outcome_of (promisesMade s) s1 = None
  /\ (exists ws, sent s1
                 = (sent s ++ [(ws, {| command_id := id; command_method := method;
                                       command_params := params |})])%list).
Proof.
  intros Hs Hb Hc s1 id.
  pose proof (reachable_consistent s Hs Hb) as Hcs.
  pose proof (consistent_send method params s Hcs Hb) as Hc1.
  destruct (send_connected method params s Hc) as (w & Hw & Hsend).
  assert (Hs1 : s1 = (send method params s).2).
  { subst s1. unfold safeCall. by rewrite Hsend. }
  assert (Htimer : timers s1 !! timersSet s
                   = Some {| task_id := id; task_reject := promisesMade s;
                             task_method := method; task_delay := REQUEST_TIMEOUT_MS |}).
  { rewrite Hs1. subst id. rewrite Hsend. simpl. rewrite increment_below by done.
    apply lookup_insert_eq. }
  split_and!.
  - unfold safeCall. by rewrite Hsend.
  - rewrite Hs1. subst id. rewrite Hsend. simpl. rewrite increment_below by done.
    apply Map_get_set_eq.
  - done.
  - apply outcome_of_unsettled. rewrite Hs1 in Htimer |- *.
    destruct (timer_promise _ Hc1 _ _ Htimer) as (_ & _ & H0). exact H0.
  - exists w. rewrite Hs1. subst id. rewrite Hsend. simpl.
    by rewrite increment_below by done.
Qed.

Lemma safeCall_response method params s ws data response :
  reachable s -> (nextId s < 2 ^ 53)%N -> connected s = true ->
  let s1 := (safeCall method params s).1 in
  known ws s1 = true -> JSON_parse data = Some response ->
  prop response "id" = VStr (pretty (nextId s + 1)%N) ->
  unconvertible response = false ->
  (safeCall method params s).2 (step (EvMessage ws data) s1)
  = Some (if truthy (prop response "error")
          then errorResult
                 ("[" ++ ToString (prop (prop response "error") "code") ++ "] "
                      ++ ToString (prop (prop response "error") "message"))
          else textResult (callPlugin (prop response "result"))).
Proof.
  intros Hs Hb Hc s1 Hws Hparse Hid Hok.
  destruct (safeCall_connected method params s Hs Hb Hc) as (-> & Hget & _ & Hnone & _).
  fold s1 in Hget, Hnone.
  assert (Hstep : step (EvMessage ws data) s1 = onMessage data s1)
    by (simpl; by rewrite Hws).
  rewrite Hstep, (onMessage_response _ _ _ _ _ Hparse Hid Hget Hok).
  erewrite (outcome_of_first _ _ s1); [|done|done].
  by destruct (truthy _).
Qed.

(** X6.  A tool call on a connected bridge is pending at first and gets
    exactly the answer of the end its request meets: a response with an
    error whose code and message can be converted to text gives the
    error result [Error: [code] message], a response without error gives
    the text of its result, the timeout gives
    [Error: Request timed out after 10s: method], the close of a
    connection gives [Error: Figma plugin disconnected]; an answer, once
    given, is never changed by what the bridge does later.  After a
    response whose error cannot be converted the call never answers,
    whatever happens to the bridge. *)
Theorem tool_call_answers method params s :
  reachable s -> (nextId s < 2 ^ 53)%N -> connected s = true ->
  let s1 := (safeCall method params s).1 in
  let answer := (safeCall method params s).2 in
  let id := pretty (nextId s + 1)%N in
  answer s1 = None
  /\ (forall ws data response,
        known ws s1 = true -> JSON_parse data = Some response ->
        prop response "id" = VStr id ->
        unconvertible response = false ->
        answer (step (EvMessage ws data) s1)
        = Some (if truthy (prop response "error")
                then errorResult
                       ("[" ++ ToString (prop (prop response "error") "code") ++ "] "
                            ++ ToString (prop (prop response "error") "message"))
                else textResult (callPlugin (prop response "result"))))
  /\ answer (step (EvTimer (timersSet s)) s1)
     = Some (errorResult ("Request timed out after 10s: " ++ method))
  /\ (forall ws, known ws s1 = true ->
        answer (step (EvClose ws) s1)
        = Some (errorResult "Figma plugin disconnected"))
  /\ (forall later evs result,
        answer later = Some result -> answer (run evs later) = Some result)
  /\ (forall ws data response evs,
        known ws s1 = true -> JSON_parse data = Some response ->
        prop response "id" = VStr id ->
        unconvertible response = true ->
        (nextId (run evs (step (EvMessage ws data) s1)) < 2 ^ 53)%N ->
        answer (run evs (step (EvMessage ws data) s1)) = None).
Proof.
  intros Hs Hb Hc s1 answer id.
  destruct (safeCall_connected method params s Hs Hb Hc)
    as (Hanswer & Hget & Htimer & Hnone & _).
  fold s1 id in Hget, Htimer, Hnone. split_and!.
  - subst answer. rewrite Hanswer. by rewrite Hnone.
  - intros ws data response Hws Hparse Hid Hok.
    by apply safeCall_response.
  - subst answer. rewrite Hanswer.
    assert (Hstep : settled (step (EvTimer (timersSet s)) s1)
                    = (settled s1 ++ [(promisesMade s,
                         Rejected ("Request timed out after 10s: " ++ method))])%list).
    { simpl. by rewrite Htimer. }
    by erewrite (outcome_of_first _ _ s1); [|done|exact Hstep].
  - intros ws Hws. subst answer. rewrite Hanswer.
    assert (Hstep : settled (step (EvClose ws) s1)
                    = (settled s1 ++ (disconnect_call <$> pendingRequests s1))%list).
    { simpl. rewrite Hws. by destruct (onClose_ends ws s1) as (_ & -> & _). }
    unfold outcome_of. rewrite Hstep.
    unfold outcome_of in Hnone. destruct (List.find _ (settled s1)) eqn:E; [done|].
    rewrite find_app_none by done.
    by rewrite (outcome_of_disconnect (promisesMade s) _ id
                  {| promise := promisesMade s; timer := timersSet s |}
                  (Map_get_elem _ _ _ Hget) eq_refl).
  - intros later evs result Hlater. subst answer. rewrite Hanswer in *.
    destruct (outcome_of (promisesMade s) later) as [o|] eqn:E; [|done].
    by rewrite (outcome_of_run _ _ evs _ E).
  - intros ws data response evs Hws Hparse Hid Hbad Hnext.
    subst answer. rewrite Hanswer.
    assert (Hs1 : reachable s1).
    { assert (Heq : s1 = step (EvSend method params) s).
      { subst s1. unfold safeCall. simpl.
        by destruct (send method params s) as [[message|p] s']. }
      rewrite Heq. by apply reachable_step. }
    destruct (unconvertible_response_forgets s1 id
                {| promise := promisesMade s; timer := timersSet s |}
                ws data response evs Hs1 Hget Hws Hparse Hid Hbad Hnext)
      as (_ & _ & _ & Hzero).
    by rewrite outcome_of_unsettled.
Qed.

(** X7.  The text of a tool result is [undefined], not a string, exactly
    when the result the plugin sent is [undefined] -- as for a response
    that has neither [result] nor [error]; every other result gives a
    string. *)
Theorem text_of_missing_result (result : value) :
  (callPlugin result = VUndefined <-> result = VUndefined)
  /\ (result <> VUndefined -> exists text, callPlugin result = VStr text)
  /\ (forall response,
        prop response "result" = VUndefined ->
        textResult (callPlugin (prop response "result"))
        = VObj [("content", VArr [VObj [("type", VStr "text"); ("text", VUndefined)]])]).
Proof.
  assert (H : result <> VUndefined -> exists text, callPlugin result = VStr text).
  { intros Hne. unfold callPlugin.
    destruct result; try done; simpl; try by eexists.
    - destruct (map _ xs); by eexists.
    - destruct (omap _ fields); by eexists. }
  split_and!; [|done|by intros response ->].
  split; [|by intros ->].
  intros Hu. destruct result; [done|..];
    (destruct H as (text & Ht); [done|congruence]).
Qed.


(** X9.  The response the plugin posts carries the id of its command.
    When the handler threw one of the objects [{ code, message }] of this
    file -- as [dispatch] does for a method it does not know -- the
    response's error keeps the code, and its message is the text
    [[object Object]]: the message of the object is not passed on.  When
    an [Error] was thrown the message is passed on, and the code is
    [INTERNAL_ERROR] unless the error has one. *)
Theorem response_to_thrown handler msg :
  let id := command_id msg in
  let outcome := dispatch handler (command_method msg) (command_params msg) in
  (forall response, onmessage handler msg = Some response ->
     prop response "id" = VStr id /\ prop response "type" = VStr "response"
     /\ (obj_has (match response with VObj o => o | _ => [] end) "result"
         = negb (obj_has (match response with VObj o => o | _ => [] end) "error")))
  /\ (forall result, outcome = Returns result ->
        onmessage handler msg
        = Some (VObj [("id", VStr id); ("type", VStr "response"); ("result", result)]))
  /\ (forall e, outcome = Throws (thrown e) ->
        onmessage handler msg
        = Some (VObj [("id", VStr id); ("type", VStr "response");
                      ("error", VObj [("code", VStr (Plugin.code e));
                                      ("message", VStr "[object Object]")])]))
  /\ (command_method msg ∉ methods ->
        onmessage handler msg
        = Some (VObj [("id", VStr id); ("type", VStr "response");
                      ("error", VObj [("code", VStr "UNKNOWN_METHOD");
                                      ("message", VStr "[object Object]")])]))
  /\ (forall message, outcome = Throws (ThrownError message VUndefined) ->
        onmessage handler msg
        = Some (VObj [("id", VStr id); ("type", VStr "response");
                      ("error", VObj [("code", VStr "INTERNAL_ERROR");
                                      ("message", VStr message)])])).
Proof.
  intros id outcome. subst id outcome. unfold onmessage. split_and!.
  - intros response.
    destruct (dispatch handler _ _) as [result|[v|message c]].
    + by intros [= <-].
    + destruct v; try done;
        (destruct (convertible _); [|done]); by intros [= <-].
    + by intros [= <-].
  - by intros result ->.
  - by intros e ->.
  - intros Hnot. unfold dispatch, includes. by rewrite bool_decide_eq_false_2.
  - by intros message ->.
Qed.

(** X10.  From the plugin to the client of a tool: when the handler of
    a tool's command throws one of the objects [{ code, message }] of the
    plugin, and the response the plugin posts for it reaches the bridge,
    the tool answers with the error result whose text is
    [Error: [code] [object Object]]. *)
Theorem thrown_object_reaches_client method params s handler msg e ws data response :
  reachable s -> (nextId s < 2 ^ 53)%N -> connected s = true ->
  let s1 := (safeCall method params s).1 in
  command_id msg = pretty (nextId s + 1)%N ->
  dispatch handler (command_method msg) (command_params msg) = Throws (thrown e) ->
  onmessage handler msg = Some response ->
  known ws s1 = true -> JSON_parse data = Some response ->
  (safeCall method params s).2 (step (EvMessage ws data) s1)
  = Some (errorResult ("[" ++ Plugin.code e ++ "] [object Object]")).
Proof.
  intros Hs Hb Hc s1 Hid Hthrown Hpost Hws Hparse.
  unfold onmessage in Hpost. rewrite Hthrown in Hpost. simpl in Hpost.
  injection Hpost as <-.
  refine (safeCall_response method params s ws data _ Hs Hb Hc Hws Hparse _ _).
  - by rewrite <- Hid.
  - reflexivity.
Qed.

End WithRuntime.

(** X8.  The tools and the plugin's dispatcher agree: the nineteen tools
    have pairwise different names and send pairwise different methods,
    the methods they send are exactly the cases of [dispatch], so that no
    tool call ends in [UNKNOWN_METHOD] and no case of [dispatch] is out of
    reach; [forage_annotate_state] is the one tool that is not marked
    read-only. *)
Theorem tools_match_dispatch :
  length tools = 19
  /\ NoDup (tool_name <$> tools)
  /\ tool_method <$> tools = methods
  /\ NoDup methods
  /\ (forall handler tool params,
        tool ∈ tools ->
        dispatch handler (tool_method tool) params
        = handler (tool_method tool) params)
  /\ (forall handler method params,
        method ∉ tool_method <$> tools ->
        dispatch handler method params
        = Throws (ThrownValue
                    (VObj [("code", VStr "UNKNOWN_METHOD");
                           ("message", VStr ("Unknown method: " ++ method))])))
  /\ (forall tool, tool ∈ tools ->
        readOnlyHint (annotations tool) = false <-> tool_name tool = "forage_annotate_state").
Proof.
  assert (Hm : tool_method <$> tools = methods) by reflexivity.
  split_and!; [done|by apply (bool_decide_unpack _); vm_compute|done
               |by apply (bool_decide_unpack _); vm_compute| | |].
  - intros handler tool params Hin. unfold dispatch, includes.
    rewrite bool_decide_eq_true_2; [done|].
    rewrite <- Hm. apply list_elem_of_fmap. by exists tool.
  - intros handler method params Hnot. unfold dispatch, includes.
    rewrite bool_decide_eq_false_2; [done|]. by rewrite <- Hm.
  - intros tool Hin. unfold tools in Hin.
    repeat (apply elem_of_cons in Hin as [->|Hin]; [by split|]).
    by apply elem_of_nil in Hin.
Qed.

End ServerProps.

Module QueryProps.
Import JS JSMore JSFacts Figma Plugin PluginProps Handlers HandlersSpec.

(** *** Strings and lists *)

Lemma append_assoc (s1 s2 s3 : string) : (s1 ++ s2) ++ s3 = s1 ++ s2 ++ s3.
Proof.
  induction s1 as [|c s1 IH]; [done|].
  change (String c ((s1 ++ s2) ++ s3) = String c (s1 ++ s2 ++ s3)). by rewrite IH.
Qed.

Lemma append_nil_r (s : string) : s ++ "" = s.
Proof.
  induction s as [|c s IH]; [done|].
  change (String c (s ++ "") = String c s). by rewrite IH.
Qed.

Lemma filter_bool_Prop {A : Type} (f : A -> bool) (l : list A) :
  List.filter f l = filter (fun x => f x = true) l.
Proof.
  induction l as [|x l IH]; [done|]. simpl. rewrite filter_cons, IH.
  destruct (f x) eqn:E.
  - by rewrite decide_True by done.
  - by rewrite decide_False by done.
Qed.

Lemma List_filter_filter {A : Type} (f g : A -> bool) (l : list A) :
  List.filter f (List.filter g l) = List.filter (fun x => g x && f x) l.
Proof.
  induction l as [|x l IH]; [done|]. simpl.
  destruct (g x); simpl; [destruct (f x)|]; by rewrite IH.
Qed.

Lemma List_filter_true {A : Type} (l : list A) : List.filter (fun _ => true) l = l.
Proof. induction l as [|x l IH]; [done|]. simpl. by rewrite IH. Qed.

Lemma List_filter_ext {A : Type} (f g : A -> bool) (l : list A) :
  (forall x, f x = g x) -> List.filter f l = List.filter g l.
Proof. intros H. induction l as [|x l IH]; [done|]. simpl. by rewrite H, IH. Qed.

Lemma includes_single t x : includes [t] x = String.eqb x t.
Proof.
  unfold includes. destruct (String.eqb_spec x t) as [->|Hne].
  - apply bool_decide_eq_true_2. left.
  - apply bool_decide_eq_false_2. by intros ->%list_elem_of_singleton.
Qed.

Lemma findAll_filter p (callback : SceneNode -> bool) :
  findAll p callback
  = List.filter callback (findAll p (fun _ => true)).
Proof.
  unfold findAll. rewrite <- !filter_bool_Prop.
  by rewrite List_filter_filter.
Qed.

Section WithRuntime.
Context {R : Runtime}.

(** *** Search *)

Lemma handleSearchNodes_on figma query type pageId page :
  match given pageId with
  | Some p => findPageById figma p
  | None => Ok (currentPage figma)
  end = Ok page ->
  let found := List.filter (sought query type) (findAll page (fun _ => true)) in
  handleSearchNodes figma query type pageId
  = Ok {| results := map (fun n => simplifyNode n false) (take 100 found);
          search_total := length found;
          capped := (100 <? length found)%nat |}.
Proof.
  intros Hpage found. unfold handleSearchNodes. rewrite Hpage. simpl.
  assert (Hfound :
    match given query with
    | Some query0 =>
        List.filter (fun n => String_includes (String_toLowerCase query0)
                                              (String_toLowerCase (name n)))
          match given type with
          | Some t => findAllWithCriteria page [t]
          | None => findAll page (fun _ => true)
          end
    | None =>
        match given type with
        | Some t => findAllWithCriteria page [t]
        | None => findAll page (fun _ => true)
        end
    end = found).
  { subst found. unfold sought, findAllWithCriteria.
    destruct (given type) as [t|], (given query) as [q|].
    - rewrite (findAll_filter page), List_filter_filter.
      apply List_filter_ext. intros n. by rewrite includes_single.
    - rewrite (findAll_filter page). apply List_filter_ext. intros n.
      by rewrite andb_true_r, includes_single.
    - by apply List_filter_ext.
    - symmetry. apply List_filter_true. }
  by rewrite Hfound.
Qed.


(** X11.  A search returns the projections of the first hundred nodes,
    in document order, among the nodes of the page whose type is the
    type asked for (if one is) and whose name in lower case contains the
    query in lower case (if there is one); [total] counts all of them and
    [capped] tells whether some were left out.  An empty query, type or
    page id is no query, type or page id.  The one error is a page id
    that is not the id of a page. *)
Theorem search_is_capped figma query type pageId :
  match handleSearchNodes figma query type pageId with
  | Ok r =>
      exists page,
        match given pageId with
        | Some p => getNodeByIdAsync figma p = Some (IsPage page)
        | None => page = currentPage figma
        end
        /\ let found := List.filter (sought query type) (findAll page (fun _ => true)) in
           results r = map (fun n => simplifyNode n false) (take 100 found)
           /\ search_total r = length found
           /\ length (results r) = min 100 (search_total r)
           /\ (capped r = true <-> 100 < search_total r)
           /\ (capped r = false <-> length (results r) = search_total r)
  | Throw e =>
      exists p, given pageId = Some p
        /\ (forall page, getNodeByIdAsync figma p <> Some (IsPage page))
        /\ e = {| code := "PAGE_NOT_FOUND"; message := "Page not found: " ++ p |}
  end.
Proof.
  destruct (match given pageId with
            | Some p => findPageById figma p
            | None => Ok (currentPage figma)
            end) as [page|e] eqn:Hpage.
  - rewrite (handleSearchNodes_on _ _ _ _ _ Hpage). exists page. split.
    + destruct (given pageId) as [p|]; [|by injection Hpage].
      unfold findPageById in Hpage.
      by destruct (getNodeByIdAsync figma p) as [[| |]|]; simplify_eq.
    + intros found. cbn [results search_total capped]. fold found.
      rewrite length_map, length_take. split_and!; [done|done|done| |].
      * by rewrite Nat.ltb_lt.
      * rewrite Nat.ltb_ge. lia.
  - unfold handleSearchNodes. rewrite Hpage. simpl.
    destruct (given pageId) as [p|]; [|done]. exists p. split; [done|].
    unfold findPageById in Hpage.
    destruct (getNodeByIdAsync figma p) as [[| |]|]; simplify_eq; done.
Qed.

(** *** Naming lint *)

Lemma find_existsb {A : Type} (f : A -> bool) l :
  is_Some (List.find f l) <-> existsb f l = true.
Proof.
  induction l as [|x l IH]; simpl; [split; [by intros [? ?]|done]|].
  destruct (f x); [by split; [|eexists]|exact IH].
Qed.

Lemma lint_generic node :
  (generic node = false -> forall issues, lint issues node = issues)
  /\ (generic node = true ->
      exists i, issue_nodeId i = id node /\ issue_name i = name node
                /\ issue_type i = Figma.type node /\ issue i = "generic-name"
                /\ forall issues, lint issues node = (issues ++ [i])%list).
Proof.
  unfold lint, generic.
  destruct (List.find _ genericPatterns) as [w|] eqn:E.
  - split.
    + intros Hg. assert (Hs : is_Some (List.find (fun pattern =>
                              test_generic pattern (name node)) genericPatterns))
        by (by rewrite E). apply find_existsb in Hs. congruence.
    + intros _. eexists. split_and!; last (intros issues; reflexivity); done.
  - split; [done|]. intros Hg. apply find_existsb in Hg. rewrite E in Hg.
    by destruct Hg.
Qed.

Lemma lint_loop nodes issues :
  issue_nodeId <$> foldl lint issues nodes
  = ((issue_nodeId <$> issues) ++ (id <$> List.filter generic nodes))%list
  /\ issue_name <$> foldl lint issues nodes
     = ((issue_name <$> issues) ++ (name <$> List.filter generic nodes))%list
  /\ issue_type <$> foldl lint issues nodes
     = ((issue_type <$> issues) ++ (Figma.type <$> List.filter generic nodes))%list
  /\ (Forall (fun i => issue i = "generic-name") issues ->
      Forall (fun i => issue i = "generic-name") (foldl lint issues nodes)).
Proof.
  revert issues. induction nodes as [|n nodes IH]; intros issues.
  - simpl. by rewrite !app_nil_r.
  - simpl. destruct (lint_generic n) as [Hno Hyes].
    destruct (generic n) eqn:Hg.
    + destruct (Hyes eq_refl) as (i & Hi1 & Hi2 & Hi3 & Hi4 & Hlint).
      rewrite Hlint. destruct (IH (issues ++ [i])%list) as (H1 & H2 & H3 & H4).
      rewrite H1, H2, H3, !fmap_app, !fmap_cons, <- !app_assoc. simpl.
      rewrite Hi1, Hi2, Hi3. split_and!; [done..|].
      intros Hall. apply H4. apply Forall_app. split; [done|]. by constructor.
    + rewrite (Hno eq_refl). apply IH.
Qed.

Lemma after_word_split word s rest :
  after_word word s = Some rest -> exists front, s = front ++ rest.
Proof.
  revert s. induction word as [|w word IH]; intros s; simpl.
  - intros [= <-]. by exists "".
  - destruct s as [|c s]; [done|]. destruct (Ascii.eqb _ _); [|done].
    intros H. destruct (IH _ H) as (front & ->). by exists (String c front).
Qed.

Lemma digits_to_end_last s : digits_to_end s = true -> ends_in_digit s.
Proof.
  induction s as [|c s IH]; [done|]. simpl. intros [Hc Hs]%andb_true_iff.
  destruct s as [|c' s'].
  - by exists "", c.
  - destruct (IH Hs) as (front & d & -> & Hd). by exists (String c front), d.
Qed.

Lemma spaces_digits_last skip seen s :
  spaces_digits skip seen s = true -> ends_in_digit s.
Proof.
  revert skip seen. induction s as [|c s IH]; intros skip seen; [done|].
  assert (Hcons : forall k b, spaces_digits k b s = true -> ends_in_digit (String c s)).
  { intros k b H. destruct (IH _ _ H) as (front & d & -> & Hd).
    by exists (String c front), d. }
  cbn [spaces_digits]. destruct skip as [|k]; [|by apply Hcons].
  destruct (white_space (String c s)); [|by apply Hcons].
  intros [_ H]%andb_true_iff. by apply digits_to_end_last.
Qed.

Lemma generic_ends_in_digit n : generic n = true -> ends_in_digit (name n).
Proof.
  unfold generic. intros (w & _ & Hw)%existsb_exists. unfold test_generic in Hw.
  destruct (after_word w (name n)) as [rest|] eqn:E; [|done].
  destruct (after_word_split _ _ _ E) as (front & ->).
  destruct (spaces_digits_last _ _ _ Hw) as (front' & d & -> & Hd).
  exists (front ++ front'), d. split; [|done]. by rewrite append_assoc.
Qed.

Lemma after_word_case word written rest :
  toLowerCase written = toLowerCase word ->
  after_word word (written ++ rest) = Some rest.
Proof.
  revert written. induction word as [|w word IH]; intros [|c written]; try done.
  simpl. intros [= Hc Hrest].
  change (String c written ++ rest) with (String c (written ++ rest)).
  rewrite Hc, Ascii.eqb_refl. by apply IH.
Qed.

Lemma digit_no_space c s : is_decimal_digit c = true -> white_space (String c s) = 0.
Proof.
  unfold is_decimal_digit, white_space.
  intros [H1 H2]%andb_true_iff. apply Nat.leb_le in H1, H2.
  set (n := nat_of_ascii c) in *.
  assert ((n =? 32)%nat = false) as -> by (apply Nat.eqb_neq; lia).
  assert ((n <=? 13)%nat = false) as -> by (apply Nat.leb_gt; lia).
  rewrite andb_false_r. simpl.
  assert ((n =? 194)%nat = false) as -> by (apply Nat.eqb_neq; lia).
  assert ((n =? 225)%nat = false) as -> by (apply Nat.eqb_neq; lia).
  assert ((n =? 226)%nat = false) as -> by (apply Nat.eqb_neq; lia).
  assert ((n =? 227)%nat = false) as -> by (apply Nat.eqb_neq; lia).
  assert ((n =? 239)%nat = false) as -> by (apply Nat.eqb_neq; lia).
  simpl. destruct s as [|c2 [|c3 s3]]; done.
Qed.

Lemma decimal_digits_to_end s : decimal s = true -> digits_to_end s = true.
Proof.
  induction s as [|c s IH]; [done|]. simpl. destruct s as [|c' s'].
  - intros ->. done.
  - intros [-> H]%andb_true_iff. by apply IH.
Qed.

Lemma decimal_head s :
  decimal s = true -> exists c s', s = String c s' /\ is_decimal_digit c = true.
Proof.
  destruct s as [|c s]; [done|]. simpl. intros H. exists c, s. split; [done|].
  destruct s; [done|]. by apply andb_true_iff in H as [? _].
Qed.

(** X12.  The naming lint reports each node whose name is generic once,
    in document order, with the node's id, name and type, so that there
    are never more issues than nodes.  A name is reported only if it ends
    in a decimal digit; and a name made of one of the ten words, written
    in any letter case, a space and decimal digits is reported. *)
Theorem lint_reports_once figma pageId :
  match handleLintNaming figma pageId with
  | Ok r =>
      exists page,
        match given pageId with
        | Some p => getNodeByIdAsync figma p = Some (IsPage page)
        | None => page = currentPage figma
        end
        /\ let nodes := List.filter generic (findAll page (fun _ => true)) in
           issue_nodeId <$> issues r = id <$> nodes
           /\ issue_name <$> issues r = name <$> nodes
           /\ issue_type <$> issues r = Figma.type <$> nodes
           /\ Forall (fun i => issue i = "generic-name") (issues r)
           /\ issueCount r = length (issues r)
           /\ issueCount r <= totalNodes r
           /\ (forall i, i ∈ issues r -> ends_in_digit (issue_name i))
  | Throw e =>
      exists p, given pageId = Some p
        /\ e = {| code := "PAGE_NOT_FOUND"; message := "Page not found: " ++ p |}
  end
  /\ (forall n word written digits,
        word ∈ genericPatterns -> toLowerCase written = toLowerCase word ->
        decimal digits = true ->
        name n = written ++ " " ++ digits -> generic n = true).
Proof.
  split.
  - unfold handleLintNaming.
    destruct (match given pageId with
              | Some p => findPageById figma p
              | None => Ok (currentPage figma)
              end) as [page|e] eqn:Hpage; simpl.
    + exists page. split.
      { destruct (given pageId) as [p|]; [|by injection Hpage].
        unfold findPageById in Hpage.
        by destruct (getNodeByIdAsync figma p) as [[| |]|]; simplify_eq. }
      destruct (lint_loop (findAll page (fun _ => true)) []) as (H1 & H2 & H3 & H4).
      simpl in H1, H2, H3.
      assert (Hlen : length (foldl lint [] (findAll page (fun _ => true)))
                     = length (List.filter generic (findAll page (fun _ => true)))).
      { apply (f_equal length) in H1. by rewrite !length_fmap in H1. }
      split_and!; [done|done|done|by apply H4|done| |].
      * rewrite Hlen. rewrite filter_bool_Prop. apply length_filter.
      * intros i Hi.
        assert (Hn : issue_name i ∈ name <$> List.filter generic (findAll page (fun _ => true))).
        { rewrite <- H2. apply list_elem_of_fmap. by exists i. }
        apply list_elem_of_fmap in Hn as (n & -> & Hn).
        apply filter_elem in Hn as [_ Hg]. by apply generic_ends_in_digit.
    + destruct (given pageId) as [p|]; [|done]. exists p. split; [done|].
      unfold findPageById in Hpage.
      destruct (getNodeByIdAsync figma p) as [[| |]|]; simplify_eq; done.
  - intros n word written digits Hword Hcase Hdigits Hname. unfold generic.
    apply existsb_exists. exists word. split.
    { clear -Hword. unfold genericPatterns in *.
      repeat (apply elem_of_cons in Hword as [->|Hword]; [simpl; tauto|]).
      by apply elem_of_nil in Hword. }
    unfold test_generic. rewrite Hname, (after_word_case _ _ _ Hcase).
    destruct (decimal_head _ Hdigits) as (c & s' & -> & Hc).
    change (" " ++ String c s') with (String " " (String c s')).
    cbn [spaces_digits]. change (white_space (String " " (String c s'))) with 1.
    cbn [spaces_digits]. rewrite (digit_no_space c s' Hc).
    exact (decimal_digits_to_end _ Hdigits).
Qed.

End WithRuntime.
End QueryProps.

Module ReuseProps.
Import JS JSMore JSFacts Figma Plugin PluginProps Handlers HandlersSpec QueryProps.

(** *** Reusable components *)

Lemma Map_set_keys {V : Type} (m : list (string * V)) k v :
  (Map_set m k v).*1 = if bool_decide (k ∈ m.*1) then m.*1 else (m.*1 ++ [k])%list.
Proof.
  induction m as [|[k' w] m IH]; [done|]. simpl.
  destruct (String.eqb_spec k' k) as [->|Hne].
  - rewrite bool_decide_eq_true_2 by left. done.
  - rewrite fmap_cons, IH. simpl. case_bool_decide as Hin.
    + rewrite bool_decide_eq_true_2 by (by right). done.
    + rewrite bool_decide_eq_false_2; [done|].
      intros [->|?]%elem_of_cons; done.
Qed.

Lemma Map_set_NoDup {V : Type} (m : list (string * V)) k v :
  NoDup m.*1 -> NoDup (Map_set m k v).*1.
Proof.
  intros Hm. rewrite Map_set_keys. case_bool_decide as Hin; [done|].
  apply NoDup_app. split_and!; [done| |apply NoDup_singleton].
  intros x Hx ->%list_elem_of_singleton. done.
Qed.

Lemma instances_of_snoc c l x :
  instances_of c (l ++ [x])
  = (instances_of c l
     ++ if bool_decide (mainComponent x = Some c) then [x] else [])%list.
Proof. unfold instances_of. rewrite List.filter_app. simpl. by case_bool_decide. Qed.

Lemma componentUsage_snoc nameOf l x :
  componentUsage nameOf (l ++ [x])
  = match mainComponent x with
    | None => componentUsage nameOf l
    | Some compId =>
        match Map_get (componentUsage nameOf l) compId with
        | Some existing =>
            Map_set (componentUsage nameOf l) compId
              {| component := component existing;
                 count := S (count existing);
                 instanceIds := (instanceIds existing ++ [id x])%list |}
        | None =>
            Map_set (componentUsage nameOf l) compId
              {| component := (compId, nameOf x);
                 count := 1;
                 instanceIds := [id x] |}
        end
    end.
Proof. unfold componentUsage. by rewrite foldl_app. Qed.

(** The map of the loop holds, for every component, the usage of its
    instances so far. *)
Lemma componentUsage_spec nameOf l :
  NoDup (componentUsage nameOf l).*1
  /\ forall c, Map_get (componentUsage nameOf l) c
               = usage_of nameOf c (instances_of c l).
Proof.
  induction l as [|x l [Hnd IH]] using rev_ind; [split; [apply NoDup_nil_2|done]|].
  rewrite componentUsage_snoc. destruct (mainComponent x) as [compId|] eqn:Hx.
  - split.
    + destruct (Map_get _ compId); by apply Map_set_NoDup.
    + intros c. rewrite instances_of_snoc, Hx.
      destruct (decide (c = compId)) as [->|Hne].
      * rewrite bool_decide_eq_true_2 by done.
        rewrite (IH compId). unfold usage_of.
        destruct (instances_of compId l) as [|first rest] eqn:E.
        -- by rewrite Map_get_set_eq.
        -- rewrite Map_get_set_eq. simpl.
           rewrite length_app, fmap_app. simpl. do 2 f_equal. lia.
      * rewrite bool_decide_eq_false_2 by congruence. rewrite app_nil_r.
        destruct (Map_get _ compId); rewrite Map_get_set_ne by done; apply IH.
  - split; [done|]. intros c. rewrite instances_of_snoc, Hx.
    rewrite bool_decide_eq_false_2 by done. rewrite app_nil_r. apply IH.
Qed.

Lemma usage_key {V : Type} (m : list (string * V)) k v :
  NoDup m.*1 -> (k, v) ∈ m -> Map_get m k = Some v.
Proof. intros. by apply Map_get_NoDup. Qed.

Lemma sort_insert_Permutation {A : Type} (compare : A -> A -> float) x l :
  sort_insert compare x l ≡ₚ x :: l.
Proof.
  induction l as [|y l IH]; [done|]. simpl.
  destruct (0 <? compare x y)%float; [|done].
  rewrite IH. apply Permutation_swap.
Qed.

Lemma Array_sort_Permutation {A : Type} (compare : A -> A -> float) l :
  Array_sort compare l ≡ₚ l.
Proof.
  unfold Array_sort. induction l as [|x l IH]; [done|]. simpl.
  by rewrite sort_insert_Permutation, IH.
Qed.

(** X13.  [handleFindReusable] reports exactly the components that have
    two or more instances on the current page, each once: the count of a
    reported component is the number of its instances, its instance ids
    are the ids of these instances in document order, its name is the
    name the first of them gives, and [total] is the number of reported
    components. *)
Theorem reusable_counts_instances figma (mainComponentName : SceneNode -> string) :
  let r := handleFindReusable figma mainComponentName in
  let instances := findAllWithCriteria (currentPage figma) ["INSTANCE"] in
  (forall u, u ∈ reusableComponents r ->
     let found := instances_of (component u).1 instances in
     count u = length found /\ 2 <= count u
     /\ instanceIds u = id <$> found
     /\ exists first, head found = Some first
                      /\ (component u).2 = mainComponentName first)
  /\ (forall compId,
        2 <= length (instances_of compId instances) ->
        exists u, u ∈ reusableComponents r /\ (component u).1 = compId)
  /\ NoDup ((fun u => (component u).1) <$> reusableComponents r)
  /\ reusable_total r = length (reusableComponents r).
Proof.
  intros r instances. subst r. unfold handleFindReusable. fold instances.
  cbn [reusableComponents reusable_total].
  destruct (componentUsage_spec mainComponentName instances) as [Hnd Hget].
  set (m := componentUsage mainComponentName instances) in *.
  assert (Hentry : forall u, u ∈ m.*2 ->
            exists c, usage_of mainComponentName c (instances_of c instances) = Some u).
  { intros u ([c u'] & -> & Hin)%list_elem_of_fmap. exists c.
    rewrite <- Hget. by apply usage_key. }
  assert (Hcomp : forall u c,
            usage_of mainComponentName c (instances_of c instances) = Some u ->
            (component u).1 = c).
  { intros u c. unfold usage_of. destruct (instances_of c instances); [done|].
    by intros [= <-]. }
  split_and!.
  - intros u Hu. apply Array_sort_elem, filter_elem in Hu as [Hu Hcount].
    destruct (Hentry u Hu) as (c & Hc). pose proof (Hcomp u c Hc) as Hk.
    rewrite Hk. unfold usage_of in Hc.
    destruct (instances_of c instances) as [|first rest] eqn:E; [done|].
    injection Hc as <-. simpl in *. apply Nat.ltb_lt in Hcount.
    split_and!; [done|lia|done|]. by exists first.
  - intros c Hc. specialize (Hget c). unfold usage_of in Hget.
    destruct (instances_of c instances) as [|first rest] eqn:E; [simpl in Hc; lia|].
    exists {| component := (c, mainComponentName first);
              count := length (first :: rest);
              instanceIds := id <$> first :: rest |}.
    split; [|reflexivity].
    apply Array_sort_elem, filter_elem. split.
    + apply list_elem_of_fmap. eexists (c, _). split; [done|].
      by apply Map_get_elem.
    + apply Nat.ltb_lt. simpl in *. lia.
  - rewrite Array_sort_Permutation, filter_bool_Prop.
    assert (Hkeys : (fun u => (component u).1) <$> m.*2 = m.*1).
    { rewrite <- list_fmap_compose. apply list_fmap_ext.
      intros i [c u] Hi. simpl.
      destruct (Hentry u) as (c' & Hc').
      { apply list_elem_of_fmap. exists (c, u). split; [done|].
        by eapply list_elem_of_lookup_2. }
      assert (Map_get m c = Some u) as Hmc.
      { apply usage_key; [done|]. by eapply list_elem_of_lookup_2. }
      rewrite Hget in Hmc. by apply Hcomp in Hmc. }
    eapply sublist_NoDup; [|apply fmap_sublist, sublist_filter]. by rewrite Hkeys.
  - done.
Qed.

End ReuseProps.

Module VariantProps.
Import JS JSMore JSFacts Figma Plugin PluginProps Handlers HandlersSpec QueryProps.

(** *** Variants *)

Lemma split_eq_step c s cur :
  split_from "=" 0 cur (String c s)
  = if Ascii.eqb c "=" then cur :: split_from "=" 0 "" s
    else split_from "=" 0 (cur ++ String c "") s.
Proof.
  cbn [split_from String.prefix].
  destruct (ascii_dec "=" c) as [<-|Hne].
  - by destruct s.
  - destruct (Ascii.eqb_spec c "="); [congruence|done].
Qed.

Lemma split_eq_key key rest cur :
  ~ occurs "=" key ->
  split_from "=" 0 cur (key ++ rest)
  = match rest with
    | String "="%char value => (cur ++ key) :: split_from "=" 0 "" value
    | _ => split_from "=" 0 (cur ++ key) rest
    end.
Proof.
  revert cur. induction key as [|c key IH]; intros cur Hno.
  - rewrite append_nil_r. change ("" ++ rest) with rest.
    destruct rest as [|c rest]; [done|].
    rewrite split_eq_step. destruct (Ascii.eqb_spec c "=") as [->|Hne]; [done|].
    destruct c as [[] [] [] [] [] [] [] []]; try done.
  - change (String c key ++ rest) with (String c (key ++ rest)).
    rewrite split_eq_step.
    assert (Hc : c <> "="%char).
    { intros ->. apply Hno. unfold occurs. simpl. left. }
    destruct (Ascii.eqb_spec c "="); [done|].
    rewrite IH.
    + rewrite append_assoc. done.
    + intros Hin. apply Hno. unfold occurs in *. simpl. by right.
Qed.

Lemma split_from_cons sep skip cur s :
  exists first others, split_from sep skip cur s = first :: others.
Proof.
  revert skip cur. induction s as [|c s IH]; intros skip cur; [by eexists _, _|].
  cbn [split_from]. destruct skip; [|apply IH].
  destruct (String.prefix sep (String c s)); [by eexists _, _|apply IH].
Qed.

Lemma join_cons sep x xs :
  xs <> [] -> join sep (x :: xs) = x ++ sep ++ join sep xs.
Proof. by destruct xs. Qed.

Lemma join_split_eq cur s : join "=" (split_from "=" 0 cur s) = cur ++ s.
Proof.
  revert cur. induction s as [|c s IH]; intros cur.
  - simpl. by rewrite append_nil_r.
  - rewrite split_eq_step. destruct (Ascii.eqb_spec c "=") as [->|Hne].
    + destruct (split_from_cons "=" 0 "" s) as (first & others & Hs).
      rewrite join_cons by (by rewrite Hs). by rewrite IH.
    + rewrite IH, append_assoc. done.
Qed.

Lemma pair_entry_value key value :
  ~ occurs "=" key -> pair_entry (key ++ "=" ++ value) = (key, VStr value).
Proof.
  intros Hno. unfold pair_entry, split.
  change ("=" ++ value) with (String "=" value).
  rewrite (split_eq_key key (String "=" value) "" Hno).
  change ("" ++ key) with key. by rewrite join_split_eq.
Qed.

Lemma pair_entry_bare key :
  ~ occurs "=" key -> pair_entry key = (key, VStr "").
Proof.
  intros Hno. unfold pair_entry, split.
  rewrite <- (append_nil_r key) at 1.
  by rewrite (split_eq_key key "" "" Hno).
Qed.

Lemma insert_index_get n key v (o : obj) k :
  key ∉ o.*1 ->
  Map_get (insert_index n key v o) k
  = if String.eqb key k then Some v else Map_get o k.
Proof.
  induction o as [|[k0 w] o IH]; intros Hnot; [done|].
  rewrite fmap_cons, not_elem_of_cons in Hnot. destruct Hnot as [Hne Hnot].
  simpl in Hne. cbn [insert_index].
  destruct (array_index k0) as [m|]; [destruct (m <? n)%N|]; try done.
  cbn [Map_get]. rewrite (IH Hnot).
  destruct (String.eqb_spec k0 k) as [->|]; [|done].
  by destruct (String.eqb_spec key k).
Qed.

Lemma obj_put_get (o : obj) key v k :
  Map_get (obj_put o key v) k
  = if String.eqb key k then Some v else Map_get o k.
Proof.
  unfold obj_put, obj_has, obj_set. case_bool_decide as Hin.
  - destruct (String.eqb_spec key k) as [->|Hne].
    + apply Map_get_set_eq.
    + by apply Map_get_set_ne.
  - destruct (array_index key).
    + by apply insert_index_get.
    + destruct (String.eqb_spec key k) as [->|Hne].
      * apply Map_get_set_eq.
      * by apply Map_get_set_ne.
Qed.

Lemma fromEntries_get entries (o : obj) k v :
  (forall e, e ∈ entries -> e.1 = k -> e.2 = v) ->
  (exists e, e ∈ entries /\ e.1 = k) \/ Map_get o k = Some v ->
  Map_get (foldl (fun o entry => obj_put o entry.1 entry.2) o entries) k = Some v.
Proof.
  revert o. induction entries as [|e entries IH]; intros o Hall Hsome.
  - destruct Hsome as [(e & He & _)|?]; [by apply elem_of_nil in He|done].
  - simpl. apply IH.
    + intros e' He'. apply Hall. by right.
    + destruct (decide (e.1 = k)) as [Hk|Hk].
      * right. rewrite obj_put_get. rewrite Hk, String.eqb_refl.
        f_equal. apply Hall; [left|done].
      * destruct Hsome as [(e' & He' & Hk')|Hget].
        -- apply elem_of_cons in He' as [->|He']; [done|]. left. by exists e'.
        -- right. rewrite obj_put_get.
           destruct (String.eqb_spec e.1 k); [done|done].
Qed.

Section WithRuntime.
Context {R : Runtime}.

(** X14.  The variants of a component set are listed in order, and the
    properties of a variant that is a component are read off its name:
    for a pair [key=value] of the name -- the only pair with that key, or
    one of several that agree -- the property [key] is the whole text
    after the first [=], further [=] included; a pair without [=] gives
    the property of that name the empty text. *)
Theorem variant_properties_of_name figma nodeId node vs variant pair key value :
  getNodeByIdAsync figma nodeId = Some (IsScene node) ->
  Figma.type node = "COMPONENT_SET" -> children node = Some vs ->
  variant ∈ vs -> Figma.type variant = "COMPONENT" ->
  pair ∈ split ", " (name variant) ->
  ~ occurs "=" key ->
  (pair = key ++ "=" ++ value \/ (pair = key /\ value = "")) ->
  (forall other, other ∈ split ", " (name variant) ->
     (pair_entry other).1 = key -> (pair_entry other).2 = VStr value) ->
  exists r props,
    handleGetVariants figma nodeId = Ok r
    /\ variant_id <$> variants r = id <$> vs
    /\ variant_name <$> variants r = name <$> vs
    /\ {| variant_id := id variant; variant_name := name variant;
          variant_properties := Some props |} ∈ variants r
    /\ obj_get props key = VStr value.
Proof.
  intros Hfind Htype Hvs Hin Hcomp Hpair Hno Hform Hall.
  unfold handleGetVariants, findNodeById. rewrite Hfind. simpl.
  rewrite Htype. simpl. rewrite Hvs. simpl.
  eexists _, _. split; [reflexivity|]. cbn [variants].
  split_and!.
  - rewrite <- list_fmap_compose. done.
  - rewrite <- list_fmap_compose. done.
  - apply list_elem_of_fmap. exists variant. split; [|done].
    rewrite Hcomp. simpl. reflexivity.
  - unfold obj_get, Object_fromEntries.
    rewrite (fromEntries_get _ [] key (VStr value)); [done| |].
    + intros e (other & -> & Hother)%list_elem_of_fmap. by apply Hall.
    + left. exists (pair_entry pair). split.
      * apply list_elem_of_fmap. by exists pair.
      * destruct Hform as [->|[-> ->]].
        -- by rewrite pair_entry_value.
        -- by rewrite pair_entry_bare.
Qed.

End WithRuntime.
End VariantProps.

Module AnnotationProps.
Import JS JSMore JSFacts Figma Plugin PluginProps Handlers HandlersSpec QueryProps.

(** *** Annotations *)

Lemma store_fields target namespace key data n :
  id (store target namespace key data n) = id n
  /\ name (store target namespace key data n) = name n
  /\ Figma.type (store target namespace key data n) = Figma.type n
  /\ reactions (store target namespace key data n) = reactions n
  /\ children (store target namespace key data n)
     = map (store target namespace key data) <$> children n
  /\ getSharedPluginData (store target namespace key data n)
     = if String.eqb (id n) target
       then fun namespace' key' =>
              if String.eqb namespace' namespace && String.eqb key' key then data
              else getSharedPluginData n namespace' key'
       else getSharedPluginData n.
Proof. destruct n as [? ? ? ? ? ? [cs|]]; done. Qed.

Lemma store_read target namespace key data n :
  id n = target ->
  getSharedPluginData (store target namespace key data n) namespace key = data.
Proof.
  intros Hid. destruct (store_fields target namespace key data n) as (_ & _ & _ & _ & _ & ->).
  rewrite Hid, !String.eqb_refl. done.
Qed.

(** Writing one key of one node leaves every other key, and every key of
    every other node, as it was. *)
Lemma store_frame target namespace key data n namespace' key' :
  id n <> target \/ namespace' <> namespace \/ key' <> key ->
  getSharedPluginData (store target namespace key data n) namespace' key'
  = getSharedPluginData n namespace' key'.
Proof.
  intros Hne. destruct (store_fields target namespace key data n) as (_ & _ & _ & _ & _ & ->).
  destruct (String.eqb_spec (id n) target); [|done].
  destruct (String.eqb_spec namespace' namespace), (String.eqb_spec key' key); try done.
  destruct Hne as [?|[?|?]]; done.
Qed.

Lemma findNodeById_stored figma node namespace key data i :
  findNodeById (setSharedPluginData figma node namespace key data) i
  = match findNodeById figma i with
    | Ok n => Ok (store (id node) namespace key data n)
    | Throw e => Throw e
    end.
Proof.
  unfold findNodeById, setSharedPluginData. simpl.
  by destruct (getNodeByIdAsync figma i) as [[| |]|].
Qed.

(** Induction on a node and the nodes below it. *)
Lemma SceneNode_tree_ind (P : SceneNode -> Prop) :
  (forall n, (forall cs, children n = Some cs -> Forall P cs) -> P n) ->
  forall n, P n.
Proof.
  intros H. fix IH 1. intros n. apply H.
  destruct n as [? ? ? ? ? ? below]. simpl.
  assert (Hall : match below with Some l => Forall P l | None => True end).
  { destruct below as [l|]; [|done].
    induction l as [|c l IHl]; constructor; [apply IH|apply IHl]. }
  intros cs Hcs. destruct below; [|done]. by injection Hcs as <-.
Qed.

Section WithRuntime.
Context {R : Runtime}.

(** What [setSharedPluginData] writes is seen by no projection. *)
Lemma simplifyNode_store target namespace key data n includeChildren :
  simplifyNode (store target namespace key data n) includeChildren
  = simplifyNode n includeChildren.
Proof.
  revert includeChildren. induction n as [n IH] using SceneNode_tree_ind.
  intros includeChildren.
  destruct n as [i nm t v w h cs al lc mc vp cpd fl st ef op co tx re gd].
  rewrite !simplifyNode_unfold. unfold store; fold store. simpl.
  do 11 f_equal.
  unfold childrenCount. simpl. destruct cs as [cs|]; [|done]. simpl.
  rewrite length_map. destruct includeChildren; [|done].
  f_equal. f_equal. rewrite map_map. apply map_ext_in.
  intros c Hc. f_equal. specialize (IH cs eq_refl).
  rewrite Forall_forall in IH. apply IH. by apply list_elem_of_In.
Qed.

(** X15.  An annotation is stored only if it parses.  When
    [handleAnnotateState] succeeds, the node holds the text under the
    annotation key and [handleGetAnnotations] on the node returns the
    value the text parses to -- the value [handleAnnotateState] returned
    (for a text that is not empty); when it fails -- the node is not
    found, or the text does not parse -- the document is left as it
    was. *)
Theorem annotation_round_trip figma nodeId annotation :
  match handleAnnotateState figma nodeId annotation with
  | (Ok saved, figma') =>
      exists node parsed,
        getNodeByIdAsync figma nodeId = Some (IsScene node)
        /\ JSON_parse annotation = Some parsed
        /\ obj_get saved "annotation" = parsed
        /\ findNodeById figma' nodeId
           = Ok (store (id node) "forage" "state-rules" annotation node)
        /\ getSharedPluginData
             (store (id node) "forage" "state-rules" annotation node)
             "forage" "state-rules" = annotation
        /\ (annotation <> "" ->
            handleGetAnnotations figma' nodeId
            = Ok [("nodeId", VStr nodeId); ("nodeName", VStr (name node));
                  ("annotations", parsed)])
  | (Throw e, figma') =>
      figma' = figma
      /\ ((forall node, getNodeByIdAsync figma nodeId <> Some (IsScene node))
          /\ e = {| code := "NODE_NOT_FOUND"; message := "Node not found: " ++ nodeId |}
          \/ JSON_parse annotation = None
             /\ e = {| code := "INVALID_ANNOTATION";
                       message := "Annotation must be valid JSON with states and transitions arrays" |})
  end.
Proof.
  unfold handleAnnotateState.
  destruct (findNodeById figma nodeId) as [node|e] eqn:Hfind.
  - assert (Hnode : getNodeByIdAsync figma nodeId = Some (IsScene node)).
    { unfold findNodeById in Hfind.
      by destruct (getNodeByIdAsync figma nodeId) as [[| |]|]; simplify_eq. }
    destruct (JSON_parse annotation) as [parsed|] eqn:Hparse.
    + exists node, parsed. split_and!; [done..| | |].
      * by rewrite findNodeById_stored, Hfind.
      * by apply store_read.
      * intros Hne. unfold handleGetAnnotations.
        rewrite findNodeById_stored, Hfind. simpl.
        rewrite store_read by done.
        destruct (String.eqb_spec annotation ""); [done|].
        rewrite Hparse.
        by destruct (store_fields (id node) "forage" "state-rules" annotation node)
          as (_ & -> & _).
    + split; [done|]. by right.
  - split; [done|]. left. unfold findNodeById in Hfind.
    destruct (getNodeByIdAsync figma nodeId) as [[| |]|]; simplify_eq; done.
Qed.

End WithRuntime.
End AnnotationProps.

Module InferenceProps.
Import JS JSMore JSFacts Figma Plugin PluginProps Handlers HandlersSpec QueryProps.
Import AnnotationProps.

Section WithRuntime.
Context {R : Runtime}.

(** *** State inference *)

Lemma handleInferStates_found figma nodeId node :
  getNodeByIdAsync figma nodeId = Some (IsScene node) ->
  exists states0 transitions0 r,
    handleInferStates figma nodeId = Ok r
    /\ annotationSource node (states0, transitions0, early_sources node)
       = (states r, transitions r, sources r)
    /\ confidence r
       = (if (length (states r) =? 0)%nat then 0%float
          else
            let c := 0%float in
            let c := if includes (sources r) "variant-names" then (c + 0.4)%float else c in
            let c := if includes (sources r) "prototype-reactions" then (c + 0.3)%float else c in
            if includes (sources r) "annotations" then (c + 0.3)%float else c)
    /\ (suggestedImplementation r = None <-> states r = []).
Proof.
  intros Hfind. unfold handleInferStates, findNodeById. rewrite Hfind.
  unfold bind, early_sources.
  destruct (String.eqb (Figma.type node) "COMPONENT_SET");
    destruct (reactions node) as [rs|]; try destruct (0 <? length rs)%nat;
    cbv beta iota zeta; cbn [app];
    match goal with
    | |- context [annotationSource node ?st] =>
        destruct (annotationSource node st) as [[states1 transitions1] sources1] eqn:E
    end;
    eexists _, _, _; (split; [reflexivity|]); (split; [exact E|]);
    cbn [confidence states sources suggestedImplementation];
    (split; [by destruct (length states1 =? 0)%nat|]);
    destruct states1; simpl; try done;
    repeat case_match; done.
Qed.


Lemma annotationSource_empty node st :
  getSharedPluginData node "forage" "state-rules" = "" ->
  annotationSource node st = st.
Proof.
  intros H. destruct st as [[states0 transitions0] sources0].
  unfold annotationSource. by rewrite H.
Qed.

Lemma annotationSource_parsed node states0 transitions0 sources0 parsed ss ts :
  getSharedPluginData node "forage" "state-rules" <> "" ->
  JSON_parse (getSharedPluginData node "forage" "state-rules") = Some parsed ->
  prop parsed "states" = VArr ss -> prop parsed "transitions" = VArr ts ->
  annotationSource node (states0, transitions0, sources0)
  = (foldl (fun states s =>
              if negb (includes_value states s) then (states ++ [s])%list
              else states) states0 ss,
     (transitions0 ++ ts)%list,
     (sources0 ++ ["annotations"])%list).
Proof.
  intros Hne Hparse Hss Hts. unfold annotationSource.
  destruct (String.eqb_spec (getSharedPluginData node "forage" "state-rules") "");
    [done|]. simpl negb. cbv iota. rewrite Hparse.
  destruct parsed; try done. by rewrite Hss, Hts.
Qed.

Lemma union_keeps (states0 ss : list value) x :
  x ∈ states0 ->
  x ∈ foldl (fun states s =>
               if negb (includes_value states s) then (states ++ [s])%list
               else states) states0 ss.
Proof.
  revert states0. induction ss as [|s ss IH]; intros states0 Hx; [done|].
  simpl. apply IH. destruct (includes_value states0 s); simpl; [done|].
  apply elem_of_app. by left.
Qed.

Lemma union_adds (states0 ss : list value) s :
  VStr s ∈ ss ->
  VStr s ∈ foldl (fun states s =>
                    if negb (includes_value states s) then (states ++ [s])%list
                    else states) states0 ss.
Proof.
  revert states0. induction ss as [|v ss IH]; intros states0 Hin;
    [by apply elem_of_nil in Hin|].
  simpl. apply elem_of_cons in Hin as [<-|Hin]; [|by apply IH].
  apply union_keeps.
  destruct (includes_value states0 (VStr s)) eqn:E; simpl.
  - unfold includes_value in E. apply existsb_exists in E as (x & Hx & Hsame).
    destruct x; try done. simpl in Hsame. apply String.eqb_eq in Hsame as ->.
    by apply list_elem_of_In.
  - apply elem_of_app. right. left.
Qed.

(** X16.  The confidence [handleInferStates] reports is the sum of the
    weights of the sources it lists -- 0.4 for the variant names, 0.3 for
    the prototype reactions, 0.3 for the annotations -- and 0 when no
    state was found: it is one of 0, 0.3, 0.4, 0.6, 0.7 and 1, never
    more.  The sources are listed in that order, each at most once, and
    an implementation is suggested exactly when a state was found. *)
Theorem confidence_is_bounded figma nodeId r :
  handleInferStates figma nodeId = Ok r ->
  confidence r ∈ [0; 0.3; 0.4; 0.6; 0.7; 1]%float
  /\ (states r = [] -> confidence r = 0%float)
  /\ sources r `sublist_of` ["variant-names"; "prototype-reactions"; "annotations"]
  /\ (states r <> [] ->
      confidence r
      = ((if bool_decide ("variant-names" ∈ sources r) then 0.4 else 0)
         + (if bool_decide ("prototype-reactions" ∈ sources r) then 0.3 else 0)
         + (if bool_decide ("annotations" ∈ sources r) then 0.3 else 0))%float)
  /\ (suggestedImplementation r = None <-> states r = []).
Proof.
  intros Hr.
  destruct (findNodeById figma nodeId) as [node|e] eqn:Hfind;
    [|by unfold handleInferStates in Hr; rewrite Hfind in Hr].
  assert (Hnode : getNodeByIdAsync figma nodeId = Some (IsScene node)).
  { unfold findNodeById in Hfind.
    by destruct (getNodeByIdAsync figma nodeId) as [[| |]|]; simplify_eq. }
  destruct (handleInferStates_found figma nodeId node Hnode)
    as (states0 & transitions0 & r' & Hr' & Hsource & Hconf & Hsugg).
  rewrite Hr in Hr'. injection Hr' as <-.
  assert (Hsources : sources r = early_sources node
                     \/ sources r = (early_sources node ++ ["annotations"])%list).
  { destruct (String.eqb_spec (getSharedPluginData node "forage" "state-rules") "")
      as [Hempty|Hne].
    - left. rewrite annotationSource_empty in Hsource by done. by injection Hsource.
    - right. pose proof (annotationSource_sources node
                           (states0, transitions0, early_sources node) Hne) as H.
      rewrite Hsource in H. exact H. }
  rewrite Hconf. unfold early_sources in Hsources.
  split_and!; [| | | |done].
  - destruct (length (states r) =? 0)%nat; [left|].
    destruct Hsources as [-> | ->];
      destruct (String.eqb (Figma.type node) "COMPONENT_SET");
      destruct (reactions node) as [rs|]; try destruct (0 <? length rs)%nat;
      vm_compute; repeat (first [by left | right]).
  - by intros ->.
  - destruct Hsources as [-> | ->];
      destruct (String.eqb (Figma.type node) "COMPONENT_SET");
      destruct (reactions node) as [rs|]; try destruct (0 <? length rs)%nat;
      simpl;
      repeat first [apply sublist_nil | apply sublist_skip | apply sublist_cons].
  - intros Hne. destruct (states r); [done|]. simpl.
    destruct Hsources as [-> | ->];
      destruct (String.eqb (Figma.type node) "COMPONENT_SET");
      destruct (reactions node) as [rs|]; try destruct (0 <? length rs)%nat;
      vm_compute; reflexivity.
Qed.


Lemma getChildrenAtDepth_store target namespace key data n d :
  getChildrenAtDepth (store target namespace key data n) d
  = getChildrenAtDepth n d.
Proof.
  revert d. induction n as [n IH] using SceneNode_tree_ind. intros d.
  rewrite !getChildrenAtDepth_unfold, simplifyNode_store.
  destruct (0 <? d)%float; [|done].
  destruct (store_fields target namespace key data n) as (_ & _ & _ & _ & -> & _).
  destruct (children n) as [cs|] eqn:Hcs; [|done]. simpl.
  do 2 f_equal. rewrite map_map. apply map_ext_in. intros c Hc. f_equal.
  specialize (IH cs eq_refl). rewrite Forall_forall in IH.
  apply IH. by apply list_elem_of_In.
Qed.

(** X17.  Writing plugin data changes one key of one node and nothing
    else: every other key, and every key of every other node, reads as
    before; no projection changes; and so the answers of the children,
    frames and compare handlers are what they were. *)
Theorem annotation_is_invisible figma node namespace key data :
  let figma' := setSharedPluginData figma node namespace key data in
  (forall n namespace' key',
     id n <> id node \/ namespace' <> namespace \/ key' <> key ->
     getSharedPluginData (store (id node) namespace key data n) namespace' key'
     = getSharedPluginData n namespace' key')
  /\ (forall n includeChildren,
        simplifyNode (store (id node) namespace key data n) includeChildren
        = simplifyNode n includeChildren)
  /\ (forall nodeId depth,
        handleGetChildren figma' nodeId depth = handleGetChildren figma nodeId depth)
  /\ (forall pageId, handleGetFrames figma' pageId = handleGetFrames figma pageId)
  /\ (forall nodeIdA nodeIdB,
        handleCompareVariants figma' nodeIdA nodeIdB
        = handleCompareVariants figma nodeIdA nodeIdB).
Proof.
  intros figma'. subst figma'. split_and!.
  - intros n namespace' key'. apply store_frame.
  - intros n includeChildren. apply simplifyNode_store.
  - intros nodeId depth. unfold handleGetChildren.
    rewrite findNodeById_stored.
    destruct (findNodeById figma nodeId) as [n|e]; [|done]. simpl.
    destruct (store_fields (id node) namespace key data n) as (-> & -> & -> & _ & -> & _).
    destruct (children n) as [cs|]; [|done]. simpl.
    rewrite map_map.
    by rewrite (map_ext _ (fun c => VObj (getChildrenAtDepth c (default 1%float depth - 1))))
      by (intros c; by rewrite getChildrenAtDepth_store).
  - intros pageId. unfold handleGetFrames, findPageById, setSharedPluginData. simpl.
    destruct (getNodeByIdAsync figma pageId) as [[|p|]|]; try done. simpl.
    f_equal. rewrite map_map. apply map_ext. intros c. apply simplifyNode_store.
  - intros nodeIdA nodeIdB. unfold handleCompareVariants.
    rewrite !findNodeById_stored.
    destruct (findNodeById figma nodeIdA) as [a|e]; [|done].
    destruct (findNodeById figma nodeIdB) as [b|e]; [|done]. simpl.
    rewrite !simplifyNode_store.
    destruct (store_fields (id node) namespace key data a) as (-> & -> & _).
    destruct (store_fields (id node) namespace key data b) as (-> & -> & _).
    done.
Qed.

(** X18.  What [forage_annotate_state] saves, [forage_infer_states]
    uses: after an annotation whose [states] and [transitions] are
    arrays was saved on a node, the inference on that node counts the
    annotations as a source, lists every state the annotation names by a
    string and every transition of the annotation. *)
Theorem annotation_is_inferred figma nodeId annotation saved figma' parsed ss ts :
  handleAnnotateState figma nodeId annotation = (Ok saved, figma') ->
  annotation <> "" ->
  JSON_parse annotation = Some parsed ->
  prop parsed "states" = VArr ss -> prop parsed "transitions" = VArr ts ->
  exists r,
    handleInferStates figma' nodeId = Ok r
    /\ "annotations" ∈ sources r
    /\ (forall s, VStr s ∈ ss -> VStr s ∈ states r)
    /\ (forall t, t ∈ ts -> t ∈ transitions r).
Proof.
  intros Hsave Hne Hparse Hss Hts. unfold handleAnnotateState in Hsave.
  destruct (findNodeById figma nodeId) as [node|e] eqn:Hfind; [|done].
  rewrite Hparse in Hsave. injection Hsave as _ <-.
  set (node' := store (id node) "forage" "state-rules" annotation node).
  assert (Hnode' : getNodeByIdAsync
                     (setSharedPluginData figma node "forage" "state-rules" annotation)
                     nodeId = Some (IsScene node')).
  { unfold findNodeById in Hfind. unfold setSharedPluginData. simpl.
    by destruct (getNodeByIdAsync figma nodeId) as [[| |]|]; simplify_eq. }
  destruct (handleInferStates_found _ nodeId node' Hnode')
    as (states0 & transitions0 & r & Hr & Hsource & _).
  assert (Hdata : getSharedPluginData node' "forage" "state-rules" = annotation)
    by (by apply store_read).
  rewrite (annotationSource_parsed node' _ _ _ parsed ss ts) in Hsource;
    [|by rewrite Hdata..|done|done].
  injection Hsource as Hstates Htransitions Hsources.
  exists r. split; [done|]. rewrite <- Hstates, <- Htransitions, <- Hsources.
  split_and!.
  - apply elem_of_app. right. left.
  - intros s. apply union_adds.
  - intros t Ht. apply elem_of_app. by right.
Qed.

End WithRuntime.
End InferenceProps.

Module EngineProps.
Import JS JSMore JSFacts Figma Plugin ProjectionTable NavigatorSpec PluginProps.
Import ScorerSpec.
Import Handlers HandlersSpec QueryProps.

Lemma length_omap_le {A B : Type} (f : A -> option B) (l : list A) :
  length (omap f l) <= length l.
Proof.
  induction l as [|x l IH]; [done|]. cbn [omap list_omap].
  destruct (f x); simpl; lia.
Qed.

(** *** The state names read off the variants *)

Lemma add_state_spec states pair :
  NoDup states ->
  NoDup (add_state states pair)
  /\ forall s, s ∈ add_state states pair <-> s ∈ states \/ names_state pair s.
Proof.
  intros Hnd. unfold add_state, names_state.
  destruct (split "=" pair) as [|first [|value rest]] eqn:E.
  - split; [done|]. intros s. split; [by left|]. intros [?|(v & Hv & _)]; done.
  - split; [done|]. intros s. split; [by left|]. intros [?|(v & Hv & _)]; done.
  - destruct (String.eqb_spec value "") as [->|Hne]; simpl.
    + split; [done|]. intros s. split; [by left|].
      intros [?|(v & Hv & Hv' & _)]; [done|]. simpl in Hv. congruence.
    + unfold includes. case_bool_decide as Hin.
      * split; [done|]. intros s. split; [by left|].
        intros [?|(v & Hv & _ & ->)]; [done|]. simpl in Hv. congruence.
      * split.
        -- apply NoDup_app. split_and!; [done| |apply NoDup_singleton].
           intros x Hx ->%list_elem_of_singleton. done.
        -- intros s. rewrite elem_of_app, list_elem_of_singleton.
           split; [intros [? | ->]; [by left|right; by exists value]|].
           intros [?|(v & Hv & _ & ->)]; [by left|]. simpl in Hv. right. congruence.
Qed.

Lemma add_states_spec pairs states :
  NoDup states ->
  NoDup (foldl add_state states pairs)
  /\ forall s, s ∈ foldl add_state states pairs
               <-> s ∈ states \/ exists pair, pair ∈ pairs /\ names_state pair s.
Proof.
  revert states. induction pairs as [|pair pairs IH]; intros states Hnd.
  - split; [done|]. intros s. split; [by left|].
    intros [?|(pair & Hp & _)]; [done|by apply elem_of_nil in Hp].
  - simpl. destruct (add_state_spec states pair Hnd) as [Hnd1 H1].
    destruct (IH _ Hnd1) as [Hnd2 H2]. split; [done|].
    intros s. rewrite H2, H1. split.
    + intros [[?|?]|(p & Hp & Hs)]; [by left|right; exists pair; split; [left|done]|].
      right. exists p. split; [by right|done].
    + intros [?|(p & Hp & Hs)]; [by left; left|].
      apply elem_of_cons in Hp as [->|Hp]; [by left; right|].
      right. by exists p.
Qed.

Lemma variantStates_unfold variants :
  variantStates variants
  = foldl (fun states variant =>
             if String.eqb (Figma.type variant) "COMPONENT"
             then foldl add_state states (split ", " (name variant))
             else states) [] variants.
Proof. reflexivity. Qed.

(** X19.  The state names read off the variants of a component set hold
    no name twice; they are exactly the names given by some pair of the
    name of some variant that is a component: the text between the first
    and the second [=] of the pair, when it is not empty, with the white
    space around it removed. *)
Theorem variant_states_are_unique variants :
  NoDup (variantStates variants)
  /\ forall s,
       s ∈ variantStates variants
       <-> exists variant pair,
             variant ∈ variants /\ Figma.type variant = "COMPONENT"
             /\ pair ∈ split ", " (name variant) /\ names_state pair s.
Proof.
  rewrite variantStates_unfold.
  assert (H : forall states, NoDup states ->
            let r := foldl (fun states variant =>
                       if String.eqb (Figma.type variant) "COMPONENT"
                       then foldl add_state states (split ", " (name variant))
                       else states) states variants in
            NoDup r
            /\ forall s, s ∈ r
                 <-> s ∈ states
                     \/ exists variant pair,
                          variant ∈ variants /\ Figma.type variant = "COMPONENT"
                          /\ pair ∈ split ", " (name variant) /\ names_state pair s).
  { induction variants as [|v variants IH]; intros states Hnd r; subst r.
    - split; [done|]. intros s. split; [by left|].
      intros [?|(x & p & Hx & _)]; [done|by apply elem_of_nil in Hx].
    - simpl. destruct (String.eqb_spec (Figma.type v) "COMPONENT") as [Ht|Ht].
      + destruct (add_states_spec (split ", " (name v)) states Hnd) as [Hnd1 H1].
        destruct (IH _ Hnd1) as [Hnd2 H2]. split; [done|].
        intros s. rewrite H2, H1. split.
        * intros [[?|(p & Hp & Hs)]|(x & p & Hx & Hrest)]; [by left| |].
          -- right. exists v, p. split_and!; [left|done..].
          -- right. exists x, p. split; [by right|done].
        * intros [?|(x & p & Hx & Htype & Hp & Hs)]; [by left; left|].
          apply elem_of_cons in Hx as [->|Hx]; [left; right; by exists p|].
          right. by exists x, p.
      + destruct (IH _ Hnd) as [Hnd2 H2]. split; [done|].
        intros s. rewrite H2. split.
        * intros [?|(x & p & Hx & Hrest)]; [by left|].
          right. exists x, p. split; [by right|done].
        * intros [?|(x & p & Hx & Htype & Hp & Hs)]; [by left|].
          apply elem_of_cons in Hx as [->|Hx]; [done|]. right. by exists x, p. }
  destruct (H [] (NoDup_nil_2)) as [Hnd Hs]. split; [done|].
  intros s. rewrite Hs. split; [intros [Hin|?]; [by apply elem_of_nil in Hin|done]|by right].
Qed.

Section WithRuntime.
Context {R : Runtime}.

(** *** Not found *)

(** X20.  An id that is not the id of a scene node -- the id of nothing,
    of a page or of the document -- makes every handler that takes a node
    id throw [NODE_NOT_FOUND] with the message [Node not found: id]: the
    ten of them are the handlers of the children, the variants, the
    detail, the CSS, the images, the comparison, the similar nodes, the
    states and the two of the annotations.  [handleAnnotateState] leaves
    the document as it was; [handleCompareVariants] throws it for either
    of its two ids, the other one being found.  On a node that is found,
    [handleGetVariants] throws [NOT_COMPONENT_SET] unless it is a
    component set, [handleGetChildren] answers a node without children
    with no children at any depth, and [handleGetCss] and
    [handleGetImages] throw [CSS_NOT_SUPPORTED] and
    [EXPORT_NOT_SUPPORTED] for a node without the method they call. *)
Theorem missing_node_is_reported figma nodeId :
  (forall node, getNodeByIdAsync figma nodeId <> Some (IsScene node)) ->
  let e := {| code := "NODE_NOT_FOUND"; message := "Node not found: " ++ nodeId |} in
  (forall depth, handleGetChildren figma nodeId depth = Throw e)
  /\ handleGetVariants figma nodeId = Throw e
  /\ (forall threshold, handleFindSimilar figma nodeId threshold = Throw e)
  /\ handleInferStates figma nodeId = Throw e
  /\ handleGetAnnotations figma nodeId = Throw e
  /\ (forall annotation, handleAnnotateState figma nodeId annotation = (Throw e, figma))
  /\ (forall other node,
        getNodeByIdAsync figma other = Some (IsScene node) ->
        handleCompareVariants figma nodeId other = Throw e
        /\ handleCompareVariants figma other nodeId = Throw e)
  /\ (forall other node,
        getNodeByIdAsync figma other = Some (IsScene node) ->
        (Figma.type node <> "COMPONENT_SET" ->
         handleGetVariants figma other
         = Throw {| code := "NOT_COMPONENT_SET";
                    message := "Node " ++ other ++ " is a " ++ Figma.type node
                               ++ ", not a COMPONENT_SET. Use this tool on a component set to list its variants." |})
        /\ (children node = None ->
            forall depth,
              handleGetChildren figma other depth
              = Ok [("id", VStr (id node)); ("name", VStr (name node));
                    ("type", VStr (Figma.type node)); ("children", VArr [])]))
  /\ (forall includeCss boundVariables navigation getCSSAsync,
        handleGetNodeDetail figma nodeId includeCss boundVariables navigation
          getCSSAsync
        = Throw e)
  /\ (forall getCSSAsync, handleGetCss figma nodeId getCSSAsync = Throw e)
  /\ (forall format scale exportAsync base64Encode,
        handleGetImages figma nodeId format scale exportAsync base64Encode
        = Throw e)
  /\ (forall other node,
        getNodeByIdAsync figma other = Some (IsScene node) ->
        (forall getCSSAsync,
           getCSSAsync node = None ->
           handleGetCss figma other getCSSAsync
           = Throw {| code := "CSS_NOT_SUPPORTED";
                      message := "CSS generation is not supported for "
                                 ++ Figma.type node ++ " nodes" |})
        /\ (forall format scale exportAsync base64Encode,
              exportAsync node = None ->
              handleGetImages figma other format scale exportAsync base64Encode
              = Throw {| code := "EXPORT_NOT_SUPPORTED";
                         message := "Export is not supported for "
                                    ++ Figma.type node ++ " nodes" |})).
Proof.
  intros Hmissing e.
  assert (Hfind : findNodeById figma nodeId = Throw e).
  { unfold findNodeById.
    destruct (getNodeByIdAsync figma nodeId) as [[| |n]|]; try done.
    by destruct (Hmissing n). }
  split_and!.
  - intros depth. unfold handleGetChildren. by rewrite Hfind.
  - unfold handleGetVariants. by rewrite Hfind.
  - intros threshold. unfold handleFindSimilar. by rewrite Hfind.
  - unfold handleInferStates. by rewrite Hfind.
  - unfold handleGetAnnotations. by rewrite Hfind.
  - intros annotation. unfold handleAnnotateState. by rewrite Hfind.
  - intros other node Hother. unfold handleCompareVariants. split.
    + by rewrite Hfind.
    + unfold findNodeById at 1. rewrite Hother. simpl. by rewrite Hfind.
  - intros other node Hother. split.
    + intros Htype. unfold handleGetVariants, findNodeById. rewrite Hother. simpl.
      by destruct (String.eqb_spec (Figma.type node) "COMPONENT_SET").
    + intros Hleaf depth. unfold handleGetChildren, findNodeById.
      rewrite Hother. simpl. by rewrite Hleaf.
  - intros includeCss boundVariables navigation getCSSAsync.
    unfold handleGetNodeDetail. by rewrite Hfind.
  - intros getCSSAsync. unfold handleGetCss. by rewrite Hfind.
  - intros format scale exportAsync base64Encode.
    unfold handleGetImages. by rewrite Hfind.
  - intros other node Hother. split.
    + intros getCSSAsync Hnone. unfold handleGetCss, findNodeById.
      rewrite Hother. simpl. by rewrite Hnone.
    + intros format scale exportAsync base64Encode Hnone.
      unfold handleGetImages, findNodeById. rewrite Hother. simpl.
      by rewrite Hnone.
Qed.

(** *** Similar nodes and nested projections *)

Lemma projection_identity node includeChildren :
  obj_get (simplifyNode node includeChildren) "id" = VStr (id node)
  /\ obj_get (simplifyNode node includeChildren) "name" = VStr (name node)
  /\ obj_get (simplifyNode node includeChildren) "type" = VStr (Figma.type node).
Proof.
  unfold obj_get. rewrite simplifyNode_table, !Map_get_app. done.
Qed.

Lemma length_scored target threshold candidates :
  length (omap (scored target threshold) candidates)
  = length (List.filter
              (fun c => (threshold <=? computeSimilarity target (simplifyNode c false))%float)
              candidates).
Proof.
  induction candidates as [|c cs IH]; [done|].
  cbn [omap list_omap List.filter]. unfold scored at 1.
  destruct (threshold <=? _)%float; simpl; by rewrite IH.
Qed.

Lemma nodes_scored target threshold candidates :
  similar_node <$> omap (scored target threshold) candidates
  = (fun c => simplifyNode c false)
      <$> List.filter
            (fun c => (threshold <=? computeSimilarity target (simplifyNode c false))%float)
            candidates.
Proof.
  induction candidates as [|c cs IH]; [done|].
  cbn [omap list_omap List.filter]. unfold scored at 1.
  destruct (threshold <=? _)%float.
  - by rewrite !fmap_cons, IH.
  - exact IH.
Qed.

(** X21.  [total] counts every candidate that reaches the threshold --
    the nodes of the current page that have the target's type and
    another id, and whose similarity to the target is at least the
    threshold, 0.7 when none is given -- and [handleFindSimilar] returns
    at most twenty of them: all of them when they are twenty or fewer.
    An entry is the projection of such a candidate, without children,
    with its similarity rounded to two decimals. *)
Theorem similar_results_are_bounded figma nodeId threshold targetNode r :
  getNodeByIdAsync figma nodeId = Some (IsScene targetNode) ->
  handleFindSimilar figma nodeId threshold = Ok r ->
  let candidates :=
    findAll (currentPage figma)
            (fun n => String.eqb (Figma.type n) (Figma.type targetNode)
                      && negb (String.eqb (id n) (id targetNode))) in
  let score c :=
    computeSimilarity (simplifyNode targetNode false) (simplifyNode c false) in
  let reaches c := (default 0.7%float threshold <=? score c)%float in
  target r = (id targetNode, name targetNode, Figma.type targetNode)
  /\ total r = length (List.filter reaches candidates)
  /\ length (similar r) = min 20 (total r)
  /\ total r <= length (findAll (currentPage figma) (fun _ => true))
  /\ (forall e, e ∈ similar r ->
        obj_get (similar_node e) "type" = VStr (Figma.type targetNode)
        /\ obj_get (similar_node e) "id" <> VStr (id targetNode)
        /\ obj_has (similar_node e) "children" = false
        /\ exists candidate,
             candidate ∈ findAll (currentPage figma) (fun _ => true)
             /\ candidate ∈ candidates
             /\ reaches candidate = true
             /\ similar_node e = simplifyNode candidate false
             /\ similarity e = (Math_round (score candidate * 100) / 100)%float)
  /\ (total r <= 20 ->
      similar_node <$> similar r
      ≡ₚ (fun c => simplifyNode c false) <$> List.filter reaches candidates).
Proof.
  intros Hfind Hr candidates score reaches.
  pose proof (fun e => handleFindSimilar_entries _ _ _ _ _ e Hfind Hr) as Hentries.
  rewrite (handleFindSimilar_found _ _ _ _ Hfind) in Hr. injection Hr as <-.
  cbn [target similar total] in *. fold candidates in Hentries |- *.
  split_and!.
  - done.
  - apply length_scored.
  - by rewrite length_take, Array_sort_length.
  - etrans; [apply length_omap_le|]. subst candidates.
    rewrite (findAll_filter (currentPage figma)).
    rewrite filter_bool_Prop. apply length_filter.
  - intros e He.
    destruct (Hentries e He) as (candidate & Hc & Htype & Hid & Hnode & Hreach & Hsim).
    rewrite Hnode.
    destruct (projection_identity candidate false) as (Hi & _ & Ht).
    split_and!.
    + by rewrite Ht, Htype.
    + rewrite Hi. congruence.
    + unfold obj_has. apply bool_decide_eq_false_2, projection_no_children.
    + exists candidate.
      assert (Hall : candidate ∈ findAll (currentPage figma) (fun _ => true)).
      { unfold findAll. apply list_elem_of_filter. by split. }
      split_and!; [done| |done|done|done].
      subst candidates. unfold findAll. apply list_elem_of_filter. split; [|done].
      rewrite (proj2 (String.eqb_eq _ _) Htype).
      by rewrite (proj2 (String.eqb_neq _ _) Hid).
  - intros Hfew. rewrite take_ge by (rewrite Array_sort_length; lia).
    rewrite (ReuseProps.Array_sort_Permutation _ _).
    by rewrite nodes_scored.
Qed.

(** X22.  A projection nests one level at most: with children asked
    for, it holds the projections of the node's children, none of which
    holds children; without, it holds none. *)
Theorem projection_nests_one_level node includeChildren :
  descend 1 (VObj (simplifyNode node includeChildren))
  = (if includeChildren
     then map (fun c => VObj (simplifyNode c false)) (default [] (children node))
     else [])
  /\ descend 2 (VObj (simplifyNode node includeChildren)) = [].
Proof.
  assert (Hone : forall o, descend 1 (VObj o)
                           = match obj_get o "children" with
                             | VArr xs => xs
                             | _ => []
                             end).
  { intros o. cbn [descend]. destruct (obj_get o "children"); try done.
    induction xs as [|x xs IH]; [done|].
    rewrite map_cons. cbn [concat]. by rewrite IH. }
  assert (Hget : forall n b,
            obj_get (simplifyNode n b) "children"
            = match children n with
              | Some cs =>
                  if b then VArr (map (fun c => VObj (simplifyNode c false)) cs)
                  else VUndefined
              | None => VUndefined
              end).
  { intros n b. unfold obj_get. rewrite projection_children.
    destruct (children n); [|done]. by destruct b. }
  split.
  - rewrite Hone, Hget. destruct (children node); by destruct includeChildren.
  - change (descend 2 (VObj (simplifyNode node includeChildren)))
      with (match obj_get (simplifyNode node includeChildren) "children" with
            | VArr xs => concat (map (descend 1) xs)
            | _ => []
            end).
    rewrite Hget. destruct (children node) as [cs|]; [|done].
    destruct includeChildren; [|done].
    induction cs as [|c cs IH]; [done|].
    rewrite !map_cons. cbn [concat]. rewrite IH, Hone, Hget.
    by destruct (children c).
Qed.

End WithRuntime.
End EngineProps.

Module DetailProps.
Import JS JSMore JSFacts Figma Plugin ProjectionTable NavigatorSpec PluginProps.
Import Handlers HandlersSpec QueryProps.

Section WithRuntime.
Context {R : Runtime}.

(** *** Detail *)

Lemma obj_set_new (o : obj) k v : k ∉ o.*1 -> obj_set o k v = (o ++ [(k, v)])%list.
Proof. apply Map_set_fresh. Qed.

Lemma detail_key_new node k :
  k ∈ ["boundVariables"; "reactions"; "css"] ->
  k ∉ Object_keys (simplifyNode node true).
Proof.
  intros Hk Hin.
  pose proof (projection_keys_order node true) as Hsub.
  pose proof (elem_of_sublist _ _ _ Hin Hsub) as Hall.
  revert Hall. apply (bool_decide_unpack _).
  repeat (apply elem_of_cons in Hk as [->|Hk]; [by vm_compute|]).
  by apply elem_of_nil in Hk.
Qed.

(** X23.  The detail of a node starts with the projection of the node
    with its children, unchanged, and adds to it at most the three keys
    [boundVariables], [reactions] and [css], in this order: bound
    variables and reactions only when there are some, the CSS only when
    it was asked for and the node could produce it. *)
Theorem detail_extends_projection figma nodeId includeCss boundVariables
    navigation getCSSAsync node :
  getNodeByIdAsync figma nodeId = Some (IsScene node) ->
  exists detail added,
    handleGetNodeDetail figma nodeId includeCss boundVariables navigation getCSSAsync
    = Ok detail
    /\ detail = (simplifyNode node true ++ added)%list
    /\ added.*1 `sublist_of` ["boundVariables"; "reactions"; "css"]
    /\ (forall k, k ∈ Object_keys (simplifyNode node true) ->
          obj_get detail k = obj_get (simplifyNode node true) k)
    /\ ("boundVariables" ∈ added.*1
        <-> exists bv, boundVariables node = Some bv /\ bv <> [])
    /\ ("reactions" ∈ added.*1
        <-> exists rs, reactions node = Some rs /\ rs <> [])
    /\ ("css" ∈ added.*1
        <-> includeCss = Some true /\ exists css, getCSSAsync node = Some (Some css)).
Proof.
  intros Hfind. unfold handleGetNodeDetail, findNodeById. rewrite Hfind.
  unfold bind.
  set (p := simplifyNode node true).
  assert (Hnew : forall k, k ∈ ["boundVariables"; "reactions"; "css"] -> k ∉ p.*1)
    by (intros k; apply detail_key_new).
  set (e1 := match boundVariables node with
             | Some bv => if (0 <? length (Object_keys bv))%nat
                          then [("boundVariables", VObj bv)] else []
             | None => []
             end).
  set (e2 := match reactions node with
             | Some rs => if (0 <? length rs)%nat
                          then [("reactions", detailReactions navigation rs)] else []
             | None => []
             end).
  set (e3 := if default false includeCss then
               match getCSSAsync node with
               | Some (Some css) => [("css", VObj css)]
               | _ => []
               end
             else []).
  assert (H1 : match boundVariables node with
               | Some bv => if (0 <? length (Object_keys bv))%nat
                            then obj_set p "boundVariables" (VObj bv) else p
               | None => p
               end = (p ++ e1)%list).
  { subst e1. destruct (boundVariables node) as [bv|]; [|by rewrite app_nil_r].
    destruct (0 <? length (Object_keys bv))%nat; [|by rewrite app_nil_r].
    apply obj_set_new, Hnew. left. }
  assert (Hk1 : e1.*1 `sublist_of` ["boundVariables"]).
  { subst e1. destruct (boundVariables node) as [bv|]; [|apply sublist_nil_l].
    destruct (0 <? length (Object_keys bv))%nat; [done|apply sublist_nil_l]. }
  assert (Hk2 : e2.*1 `sublist_of` ["reactions"]).
  { subst e2. destruct (reactions node) as [rs|]; [|apply sublist_nil_l].
    destruct (0 <? length rs)%nat; [done|apply sublist_nil_l]. }
  assert (Hk3 : e3.*1 `sublist_of` ["css"]).
  { subst e3. destruct (default false includeCss); [|apply sublist_nil_l].
    destruct (getCSSAsync node) as [[css|]|]; [done|apply sublist_nil_l..]. }
  assert (Hfresh : forall k (e : obj), k ∉ p.*1 -> k ∉ e.*1 ->
            k ∉ ((p ++ e)%list).*1).
  { intros k e Hp He. rewrite fmap_app. by intros [?|?]%elem_of_app. }
  assert (Hnot : forall k (e : obj) ks, e.*1 `sublist_of` ks -> k ∉ ks -> k ∉ e.*1).
  { intros k e ks Hsub Hk Hin. apply Hk. by eapply elem_of_sublist. }
  rewrite H1.
  assert (H2 : match reactions node with
               | Some rs => if (0 <? length rs)%nat
                            then obj_set (p ++ e1)%list "reactions"
                                   (detailReactions navigation rs)
                            else (p ++ e1)%list
               | None => (p ++ e1)%list
               end = (p ++ e1 ++ e2)%list).
  { subst e2. destruct (reactions node) as [rs|]; [|by rewrite app_nil_r].
    destruct (0 <? length rs)%nat; [|by rewrite app_nil_r].
    rewrite obj_set_new; [by rewrite <- app_assoc|].
    apply Hfresh; [apply Hnew; right; left|].
    eapply Hnot; [exact Hk1|]. by intros ?%list_elem_of_singleton. }
  rewrite H2.
  assert (H3 : (if default false includeCss then
                  match getCSSAsync node with
                  | Some (Some css) => obj_set (p ++ e1 ++ e2)%list "css" (VObj css)
                  | Some None => (p ++ e1 ++ e2)%list
                  | None => (p ++ e1 ++ e2)%list
                  end
                else (p ++ e1 ++ e2)%list) = (p ++ e1 ++ e2 ++ e3)%list).
  { subst e3. destruct (default false includeCss); [|by rewrite app_nil_r].
    destruct (getCSSAsync node) as [[css|]|]; [|by rewrite app_nil_r..].
    rewrite obj_set_new; [by rewrite <- !app_assoc|].
    apply Hfresh; [apply Hnew; right; right; left|].
    rewrite fmap_app. intros [Hin|Hin]%elem_of_app.
    - by apply (Hnot _ _ _ Hk1) in Hin; [|intros ?%list_elem_of_singleton].
    - by apply (Hnot _ _ _ Hk2) in Hin; [|intros ?%list_elem_of_singleton]. }
  rewrite H3. exists (p ++ e1 ++ e2 ++ e3)%list, (e1 ++ e2 ++ e3)%list.
  split; [done|]. split; [done|].
  assert (Hin1 : forall k, k ∈ ((e1 ++ e2 ++ e3)%list).*1 <-> k ∈ e1.*1 \/ k ∈ e2.*1 \/ k ∈ e3.*1).
  { intros k. rewrite !fmap_app, !elem_of_app. tauto. }
  split_and!.
  - rewrite !fmap_app.
    change ["boundVariables"; "reactions"; "css"]
      with (["boundVariables"] ++ ["reactions"] ++ ["css"])%list.
    by repeat apply sublist_app.
  - intros k Hk. unfold obj_get. rewrite Map_get_app.
    apply Map_get_key in Hk as [v ->]. done.
  - rewrite Hin1. split.
    + intros [Hin|[Hin|Hin]].
      * subst e1. destruct (boundVariables node) as [bv|]; [|by apply elem_of_nil in Hin].
        exists bv. split; [done|]. destruct bv; [|done].
        by apply elem_of_nil in Hin.
      * by apply (Hnot _ _ _ Hk2) in Hin; [|intros ?%list_elem_of_singleton].
      * by apply (Hnot _ _ _ Hk3) in Hin; [|intros ?%list_elem_of_singleton].
    + intros (bv & Hbv & Hne). left. subst e1. rewrite Hbv.
      destruct bv; [done|]. simpl. left.
  - rewrite Hin1. split.
    + intros [Hin|[Hin|Hin]].
      * by apply (Hnot _ _ _ Hk1) in Hin; [|intros ?%list_elem_of_singleton].
      * subst e2. destruct (reactions node) as [rs|]; [|by apply elem_of_nil in Hin].
        exists rs. split; [done|]. destruct rs; [|done].
        by apply elem_of_nil in Hin.
      * by apply (Hnot _ _ _ Hk3) in Hin; [|intros ?%list_elem_of_singleton].
    + intros (rs & Hrs & Hne). right. left. subst e2. rewrite Hrs.
      destruct rs; [done|]. simpl. left.
  - rewrite Hin1. split.
    + intros [Hin|[Hin|Hin]].
      * by apply (Hnot _ _ _ Hk1) in Hin; [|intros ?%list_elem_of_singleton].
      * by apply (Hnot _ _ _ Hk2) in Hin; [|intros ?%list_elem_of_singleton].
      * subst e3. destruct includeCss as [[]|]; simpl in Hin;
          try (by apply elem_of_nil in Hin).
        split; [done|].
        destruct (getCSSAsync node) as [[css|]|]; try (by apply elem_of_nil in Hin).
        by exists css.
    + intros [-> (css & Hcss)]. right. right. subst e3. simpl. rewrite Hcss. left.
Qed.

End WithRuntime.
End DetailProps.

Module TokenProps.
Import JS JSMore JSFacts Figma Plugin PluginProps.
Import Tokens TokensSpec QueryProps VariantProps.

(** *** Assignments in a loop *)

Lemma obj_assign_get (o : obj) key v k :
  Map_get (obj_assign o key v) k
  = if String.eqb key "__proto__" then Map_get o k
    else if String.eqb key k then Some v else Map_get o k.
Proof.
  unfold obj_assign. destruct (String.eqb key "__proto__"); [done|].
  apply obj_put_get.
Qed.

Lemma foldl_same {A B : Type} (f g : A -> B -> A) (l : list B) a :
  (forall a b, f a b = g a b) -> foldl f a l = foldl g a l.
Proof.
  intros H. revert a. induction l as [|b l IH]; intros a; [done|].
  simpl. by rewrite H, IH.
Qed.

(** A loop of assignments leaves, under a key, what the last assignment
    to the key wrote. *)
Lemma assign_loop {A : Type} (entry : A -> option (string * value)) (l : list A) k :
  Map_get (foldl (fun o a => match entry a with
                             | Some (key, v) => obj_assign o key v
                             | None => o
                             end) [] l) k
  = if String.eqb k "__proto__" then None
    else snd <$> List.find (fun e => String.eqb e.1 k) (rev (omap entry l)).
Proof.
  induction l as [|a l IH] using rev_ind.
  - simpl. by destruct (String.eqb k "__proto__").
  - rewrite foldl_app. cbn [foldl]. rewrite omap_app, rev_app_distr.
    destruct (entry a) as [[key v]|] eqn:E; cbn [omap mbind option_bind list_omap].
    + rewrite E. cbn [rev app List.find fst]. rewrite obj_assign_get, IH.
      destruct (String.eqb_spec key "__proto__") as [->|Hproto].
      * destruct (String.eqb_spec "__proto__" k) as [<-|Hk]; [done|].
        by destruct (String.eqb k "__proto__").
      * destruct (String.eqb_spec key k) as [->|Hk]; [|done].
        by destruct (String.eqb_spec k "__proto__").
    + rewrite E. cbn [rev app]. exact IH.
Qed.

Lemma find_select {A : Type} (key : A -> string) (val : A -> value)
    (select : A -> bool) (l : list A) k :
  snd <$> List.find (fun e : string * value => String.eqb e.1 k)
            (omap (fun a => if select a then Some (key a, val a) else None) l)
  = val <$> List.find (fun a => select a && String.eqb (key a) k) l.
Proof.
  induction l as [|a l IH]; [done|].
  cbn [omap list_omap List.find]. destruct (select a); cbn [andb]; [|exact IH].
  cbn [List.find fst]. by destruct (String.eqb (key a) k).
Qed.

Lemma omap_rev {A B : Type} (f : A -> option B) (l : list A) :
  omap f (rev l) = rev (omap f l).
Proof.
  induction l as [|a l IH]; [done|].
  cbn [rev]. rewrite omap_app, IH. cbn [omap list_omap].
  destruct (f a); cbn [rev]; [done|by rewrite app_nil_r].
Qed.

(** The same for a loop that assigns [val a] under [key a] for the
    elements [select] keeps. *)
Lemma assign_selected {A : Type} (key : A -> string) (val : A -> value)
    (select : A -> bool) (l : list A) k :
  obj_get (foldl (fun o a => if select a then obj_assign o (key a) (val a) else o) [] l) k
  = if String.eqb k "__proto__" then VUndefined
    else match last_with key select l k with
         | Some a => val a
         | None => VUndefined
         end.
Proof.
  unfold obj_get, last_with.
  rewrite (foldl_same _ (fun o a =>
             match (if select a then Some (key a, val a) else None) with
             | Some (key, v) => obj_assign o key v
             | None => o
             end)) by (intros o a; by destruct (select a)).
  rewrite assign_loop. destruct (String.eqb k "__proto__"); [done|].
  rewrite <- omap_rev, find_select. by destruct (List.find _ (rev l)).
Qed.

Section WithRuntime.
Context {R : Runtime}.

(** *** The groups of tokens *)

Lemma groups_loop cm (l : list FigmaVariable) g :
  colors (foldl (file_token cm) g l)
  = foldl (fun o v => if is_color v then obj_assign o (variable_name v) (token cm v) else o)
          (colors g) l
  /\ spacing (foldl (file_token cm) g l)
     = foldl (fun o v => if negb (is_color v) && is_float v
                         then obj_assign o (variable_name v) (token cm v) else o)
             (spacing g) l
  /\ other (foldl (file_token cm) g l)
     = foldl (fun o v => if is_other v then obj_assign o (variable_name v) (token cm v) else o)
             (other g) l.
Proof.
  revert g. induction l as [|v l IH]; intros g; [done|].
  cbn [foldl]. destruct (IH (file_token cm g v)) as (-> & -> & ->).
  unfold file_token, is_other, is_color, is_float.
  by destruct (String.eqb (resolvedType v) "COLOR"),
              (String.eqb (resolvedType v) "FLOAT").
Qed.

Lemma last_with_ext {A : Type} (key : A -> string) (f g : A -> bool) (l : list A) k :
  (forall a, f a = g a) -> last_with key f l k = last_with key g l k.
Proof.
  intros H. unfold last_with. induction (rev l) as [|a l' IH]; [done|].
  simpl. by rewrite H, IH.
Qed.

(** X24.  In the tokens of the format [json] -- the format of every
    request that asks neither for [tailwind] nor for [css] -- a variable
    is filed under its name in the group of its type: [colors] for
    [COLOR], [spacing] for [FLOAT], [other] for the rest, and a text
    style under its name in [typography].  Under a name, a group holds
    the token of the last of its variables that has the name, earlier
    ones being overwritten; it holds nothing under a name that none of
    its variables has, and nothing under [__proto__].  The paint and
    effect styles are counted only. *)
Theorem tokens_filed_by_type figma format :
  default "json" format <> "tailwind" -> default "json" format <> "css" ->
  exists colors spacing typography other,
    handleGetDesignTokens figma format
    = [("colors", VObj colors); ("spacing", VObj spacing);
       ("typography", VObj typography);
       ("paintStyles", VNum (nat2float (length (getLocalPaintStylesAsync figma))));
       ("effectStyles", VNum (nat2float (length (getLocalEffectStylesAsync figma))));
       ("other", VObj other)]
    /\ (forall k, obj_get colors k = filed figma is_color k)
    /\ (forall k, obj_get spacing k = filed figma is_float k)
    /\ (forall k, obj_get other k = filed figma is_other k)
    /\ (forall k, obj_get typography k = set_in_type figma k).
Proof.
  intros Htailwind Hcss. unfold handleGetDesignTokens.
  destruct (String.eqb_spec (default "json" format) "tailwind") as [|_]; [done|].
  destruct (String.eqb_spec (default "json" format) "css") as [|_]; [done|].
  fold (collections_of figma).
  destruct (groups_loop (collections_of figma) (getLocalVariablesAsync figma)
              {| colors := []; spacing := []; other := [] |}) as (Hc & Hs & Ho).
  eexists _, _, _, _. split; [reflexivity|]. cbn [colors spacing other] in *.
  split_and!; intros k.
  - rewrite Hc. apply (assign_selected variable_name).
  - rewrite Hs, (assign_selected variable_name). unfold filed.
    destruct (String.eqb k "__proto__"); [done|].
    rewrite (last_with_ext _ _ is_float); [done|].
    intros v. unfold is_color, is_float.
    destruct (String.eqb_spec (resolvedType v) "COLOR") as [->|]; done.
  - rewrite Ho. apply (assign_selected variable_name).
  - exact (assign_selected style_name typography_entry (fun _ => true)
             (getLocalTextStylesAsync figma) k).
Qed.

(** *** The values of a variable *)

Lemma new_Map_get {V : Type} (entries : list (string * V)) k :
  Map_get (new_Map entries) k
  = snd <$> List.find (fun e => String.eqb e.1 k) (rev entries).
Proof.
  unfold new_Map. induction entries as [|[key v] entries IH] using rev_ind; [done|].
  rewrite foldl_app, rev_app_distr. cbn [foldl rev app List.find fst snd].
  destruct (String.eqb_spec key k) as [->|Hne].
  - apply Map_get_set_eq.
  - by rewrite Map_get_set_ne.
Qed.

Lemma collections_of_get figma v :
  Map_get (collections_of figma) (variableCollectionId v) = collection_of figma v.
Proof.
  unfold collections_of, collection_of, last_with. rewrite new_Map_get.
  rewrite <- map_rev.
  induction (rev (getLocalVariableCollectionsAsync figma)) as [|c l IH]; [done|].
  cbn [map List.find fst andb].
  by destruct (String.eqb (collection_id c) (variableCollectionId v)).
Qed.

Lemma mode_values_get figma v k :
  obj_get (mode_values (collections_of figma) v) k
  = value_by_name v (default [] (modes <$> collection_of figma v)) k.
Proof.
  unfold mode_values, value_by_name. rewrite collections_of_get.
  set (ms := match collection_of figma v with
             | Some c => modes c
             | None => []
             end).
  assert (Hms : default [] (modes <$> collection_of figma v) = ms)
    by (subst ms; by destruct (collection_of figma v)).
  rewrite Hms.
  pose proof (assign_selected mode_name
                (fun mode => match value_in_mode v (modeId mode) with
                             | Some x => variable_value x
                             | None => VUndefined
                             end)
                (fun _ => true) ms k) as H.
  exact H.
Qed.

(** X26.  [handleGetVariables] lists the variables of the file in
    order, and keys the values of a variable by the names of the modes
    of its collection, not by their ids: under a mode name stands the
    value the variable has in the last mode of that name -- [undefined]
    when it has none --, so that modes that share a name share a key.  A
    variable whose collection is not among the file's has no values and
    no collection name.  The token of the variable in
    [handleGetDesignTokens] carries the same values. *)
Theorem variable_values_by_mode_name figma :
  length (handleGetVariables figma) = length (getLocalVariablesAsync figma)
  /\ forall i v,
       getLocalVariablesAsync figma !! i = Some v ->
       exists values,
         handleGetVariables figma !! i
         = Some (VObj [("id", VStr (variable_id v));
                       ("name", VStr (variable_name v));
                       ("resolvedType", VStr (resolvedType v));
                       ("valuesByMode", VObj values);
                       ("scopes", VArr (VStr <$> scopes v));
                       ("collectionName",
                        match collection_of figma v with
                        | Some c => VStr (collection_name c)
                        | None => VUndefined
                        end)])
         /\ (forall k,
               obj_get values k
               = value_by_name v (default [] (modes <$> collection_of figma v)) k)
         /\ (collection_of figma v = None -> values = [])
         /\ prop (token (collections_of figma) v) "values" = VObj values.
Proof.
  unfold handleGetVariables. fold (collections_of figma). split.
  - apply length_map.
  - intros i v Hv. exists (mode_values (collections_of figma) v). split_and!.
    + change (map ?f ?l) with (f <$> l). rewrite list_lookup_fmap, Hv.
      cbn [fmap option_fmap option_map]. by rewrite collections_of_get.
    + intros k. apply mode_values_get.
    + intros Hnone. unfold mode_values. by rewrite collections_of_get, Hnone.
    + done.
Qed.

(** *** The two formats *)

Lemma dashed_no_slash s : String_includes "/" (dashed s) = false.
Proof.
  induction s as [|c s IH]; [done|].
  cbn [dashed]. destruct (Ascii.eqb_spec c "/"%char) as [->|Hc].
  - cbn [String_includes]. by rewrite IH.
  - cbn [String_includes String.prefix]. rewrite IH.
    destruct (ascii_dec "/"%char c) as [<-|_]; [done|]. done.
Qed.

Lemma prefix_append (p s : string) : String.prefix p (p ++ s) = true.
Proof.
  induction p as [|a p IH]; [by destruct s|].
  change (String a p ++ s) with (String a (p ++ s)). cbn [String.prefix].
  by destruct (ascii_dec a a).
Qed.

Lemma assigned_entry {A : Type} (entry : A -> option (string * value)) (l : list A) k v :
  Map_get (foldl (fun o a => match entry a with
                             | Some (key, v) => obj_assign o key v
                             | None => o
                             end) [] l) k = Some v ->
  exists a, a ∈ l /\ entry a = Some (k, v).
Proof.
  rewrite assign_loop. destruct (String.eqb k "__proto__"); [done|].
  destruct (List.find _ _) as [[k' v']|] eqn:E; [|done].
  intros [= ->]. apply find_some in E as [Hin Hk].
  apply String.eqb_eq in Hk. cbn [fst] in Hk. subst k'.
  apply in_rev, list_elem_of_In, list_elem_of_omap in Hin as (a & Ha & He).
  by exists a.
Qed.

Lemma tailwind_colors_loop variables :
  tailwind_colors variables
  = foldl (fun o v => match color_entry v with
                      | Some (key, x) => obj_assign o key x
                      | None => o
                      end) [] variables.
Proof.
  unfold tailwind_colors. apply foldl_same. intros o v. unfold color_entry.
  destruct (String.eqb (resolvedType v) "COLOR"); [|done].
  by destruct (first_value v) as [[]|].
Qed.

(** X25.  The formats [tailwind] and [css] agree.  Every colour of the
    Tailwind theme is a custom property of the style sheet, with the same
    name and the same hexadecimal text, and every font size of the theme
    is a [--font-] property with the same size, line height and weight.
    The names of both have no slash, and every line of the style sheet
    starts a custom property. *)
Theorem css_agrees_with_tailwind figma :
  exists colors fontSize properties,
    handleGetDesignTokens figma (Some "tailwind")
    = [("format", VStr "tailwind");
       ("theme", VObj [("colors", VObj colors); ("fontSize", VObj fontSize)])]
    /\ handleGetDesignTokens figma (Some "css")
       = [("format", VStr "css");
          ("css", VStr (":root {" ++ newline ++ join newline properties
                          ++ newline ++ "}"))]
    /\ (forall n x, Map_get colors n = Some x ->
          exists hex, x = VStr hex
                      /\ ("  --" ++ n ++ ": " ++ hex ++ ";") ∈ properties)
    /\ (forall n x, Map_get fontSize n = Some x ->
          exists size lineHeight weight family,
            x = VArr [VStr size;
                      VObj [("lineHeight", VStr lineHeight);
                            ("fontWeight", VStr weight)]]
            /\ ("  --font-" ++ n ++ ": " ++ weight ++ " " ++ size ++ "/"
                  ++ lineHeight ++ " '" ++ family ++ "';") ∈ properties)
    /\ (forall n, n ∈ Object_keys colors \/ n ∈ Object_keys fontSize ->
          String_includes "/" n = false)
    /\ (forall line, line ∈ properties -> String.prefix "  --" line = true)
    /\ length (getLocalTextStylesAsync figma) <= length properties
       <= length (getLocalVariablesAsync figma)
          + length (getLocalTextStylesAsync figma).
Proof.
  set (variables := getLocalVariablesAsync figma).
  set (textStyles := getLocalTextStylesAsync figma).
  exists (tailwind_colors variables), (tailwind_fontSize textStyles),
         (css_properties variables textStyles).
  assert (Hcolor : forall n x, Map_get (tailwind_colors variables) n = Some x ->
            exists v val, v ∈ variables /\ n = dashed (variable_name v)
              /\ x = VStr (rgbToHex val)
              /\ css_variable v
                 = Some ("  --" ++ n ++ ": " ++ rgbToHex val ++ ";")).
  { intros n x. rewrite tailwind_colors_loop.
    intros (v & Hv & He)%assigned_entry. unfold color_entry in He.
    destruct (String.eqb (resolvedType v) "COLOR") eqn:Et; [|done].
    destruct (first_value v) as [[| | |val|]|] eqn:Ev; try done.
    injection He as <- <-. exists v, val. split_and!; try done.
    unfold css_variable. by rewrite Et, Ev. }
  assert (Hfont : forall n x, Map_get (tailwind_fontSize textStyles) n = Some x ->
            exists s, s ∈ textStyles /\ font_entry s = Some (n, x)).
  { intros n x. unfold tailwind_fontSize.
    rewrite (foldl_same _ (fun o s => match font_entry s with
                                      | Some (key, x) => obj_assign o key x
                                      | None => o
                                      end)) by done.
    apply assigned_entry. }
  split_and!.
  - done.
  - done.
  - intros n x (v & val & Hv & -> & -> & Hline)%Hcolor.
    exists (rgbToHex val). split; [done|].
    unfold css_properties. apply elem_of_app. left.
    apply list_elem_of_omap. by exists v.
  - intros n x (s & Hs & He)%Hfont. injection He as <- <-.
    exists (ToString (VNum (style_fontSize s)) ++ "px"),
           (line_height_text (style_lineHeight s)),
           (style (style_fontName s)), (family (style_fontName s)).
    split; [done|].
    unfold css_properties. apply elem_of_app. right.
    apply list_elem_of_In, in_map_iff. exists s.
    split; [|by apply list_elem_of_In].
    unfold css_font. by rewrite !append_assoc.
  - intros n [Hn|Hn]; apply Map_get_key in Hn as [x Hx].
    + apply Hcolor in Hx as (v & _ & _ & -> & _). apply dashed_no_slash.
    + apply Hfont in Hx as (s & _ & He). injection He as <- _.
      apply dashed_no_slash.
  - intros line [Hin|Hin]%elem_of_app.
    + apply list_elem_of_omap in Hin as (v & _ & Hline).
      unfold css_variable in Hline.
      destruct (String.eqb (resolvedType v) "COLOR").
      * destruct (first_value v) as [[]|]; try done. injection Hline as <-. apply prefix_append.
      * destruct (String.eqb (resolvedType v) "FLOAT"); [|done].
        destruct (first_value v) as [[]|]; try done. injection Hline as <-. apply prefix_append.
    + apply list_elem_of_In, in_map_iff in Hin as (s & <- & _).
      unfold css_font.
      change "  --font-" with ("  --" ++ "font-"). rewrite append_assoc.
      apply prefix_append.
  - unfold css_properties. rewrite length_app, length_map. lia.
  - unfold css_properties. rewrite length_app, length_map.
    pose proof (EngineProps.length_omap_le css_variable variables). lia.
Qed.

End WithRuntime.
End TokenProps.

(** ** Worked examples of the further properties *)

Module MoreExamples.
Import JS JSMore JSFacts Figma Plugin Bridge BridgeSpec BridgeProps.
Import Handlers Tokens Server BridgeMoreSpec HandlersSpec TokensSpec ExampleData MoreData.
Import BridgeMore ServerProps QueryProps ReuseProps VariantProps.
Import AnnotationProps InferenceProps EngineProps DetailProps TokenProps.

Lemma one_pending_is_reachable : reachable (R := reference) one_pending.
Proof.
  exact (reachable_step _ (EvSend "getPages" None)
           (reachable_step _ EvConnection reachable_init)).
Defined.

Lemma connected_once_is_reachable : reachable (R := reference) connected_once.
Proof. exact (reachable_step _ EvConnection reachable_init). Defined.


Lemma frames_match_requests_witness :
  nextId one_pending = 1%N /\ length (sent one_pending) = 1.
Proof.
  assert (Hb : (nextId one_pending < 2 ^ 53)%N) by (vm_compute; reflexivity).
  destruct (frames_match_requests (R := reference) one_pending
              one_pending_is_reachable Hb) as (H1 & H2 & _).
  exact (conj H1 H2).
Defined.

Lemma shutdown_settles_nothing_witness :
  settlements 0
    (run (R := reference) [EvClose 0; EvTimer 0]
         (step (R := reference) EvShutdown one_pending)) = 0.
Proof.
  assert (Hget : Map_get (pendingRequests one_pending) "1"
                 = Some {| promise := 0; timer := 0 |}) by (vm_compute; reflexivity).
  assert (Hb : (nextId (run (R := reference) [EvClose 0; EvTimer 0]
                          (step (R := reference) EvShutdown one_pending))
                < 2 ^ 53)%N) by (vm_compute; reflexivity).
  destruct (shutdown_settles_nothing (R := reference) one_pending "1" _
              [EvClose 0; EvTimer 0] one_pending_is_reachable Hget Hb)
    as (_ & _ & H).
  exact H.
Defined.


Lemma tool_call_without_connection_witness :
  (safeCall (R := reference) "getPages" None init).2 init
  = Some (errorResult
            "Not connected to Figma plugin. Is the Forage plugin running in Figma?").
Proof.
  exact (proj2 (tool_call_without_connection (R := reference) "getPages" None init init
                  eq_refl)).
Defined.

Lemma tool_call_answers_witness :
  (safeCall (R := reference) "getPages" None connected_once).2
    (step (R := reference) (EvTimer 0)
          (safeCall (R := reference) "getPages" None connected_once).1)
  = Some (errorResult "Request timed out after 10s: getPages").
Proof.
  assert (Hb : (nextId connected_once < 2 ^ 53)%N) by (vm_compute; reflexivity).
  assert (Hc : connected connected_once = true) by (vm_compute; reflexivity).
  destruct (tool_call_answers (R := reference) "getPages" None connected_once
              connected_once_is_reachable Hb Hc) as (_ & _ & H & _).
  exact H.
Defined.

Lemma thrown_object_reaches_client_witness :
  (safeCall (R := reference) "getChildren" (command_params first_command)
            connected_once).2
    (step (R := reference) (EvMessage 0 failure_text)
          (safeCall (R := reference) "getChildren" (command_params first_command)
                    connected_once).1)
  = Some (errorResult "[NODE_NOT_FOUND] [object Object]").
Proof.
  assert (Hb : (nextId connected_once < 2 ^ 53)%N) by (vm_compute; reflexivity).
  assert (Hc : connected connected_once = true) by (vm_compute; reflexivity).
  assert (Hid : command_id first_command = pretty (nextId connected_once + 1)%N)
    by (vm_compute; reflexivity).
  assert (Hthrown : dispatch failing (command_method first_command)
                      (command_params first_command) = Throws (thrown not_found))
    by reflexivity.
  assert (Hpost : onmessage (R := reference) failing first_command = Some failure)
    by reflexivity.
  assert (Hk : known 0 (safeCall (R := reference) "getChildren"
                          (command_params first_command) connected_once).1 = true)
    by (vm_compute; reflexivity).
  assert (Hparse : JSON_parse (Runtime := reference) failure_text = Some failure)
    by (vm_compute; reflexivity).
  exact (thrown_object_reaches_client (R := reference) "getChildren"
           (command_params first_command) connected_once failing first_command
           not_found 0 failure_text failure
           connected_once_is_reachable Hb Hc Hid Hthrown Hpost Hk Hparse).
Defined.

Lemma variant_properties_of_name_witness :
  exists r props,
    handleGetVariants (document [buttonSet ""]) "3:0" = Ok r
    /\ {| variant_id := "3:1"; variant_name := "State=Default";
          variant_properties := Some props |} ∈ variants r
    /\ obj_get props "State" = VStr "Default".
Proof.
  assert (Hfind : getNodeByIdAsync (document [buttonSet ""]) "3:0"
                  = Some (IsScene (buttonSet ""))) by reflexivity.
  assert (Hin : variantA ∈ [variantA; variantB]) by left.
  assert (Hpair : "State=Default" ∈ split ", " (name variantA))
    by (vm_compute; left).
  assert (Hno : ~ occurs "=" "State").
  { unfold occurs. simpl. rewrite !not_elem_of_cons. split_and!; try done.
    apply not_elem_of_nil. }
  assert (Hall : forall other, other ∈ split ", " (name variantA) ->
                   (pair_entry other).1 = "State" ->
                   (pair_entry other).2 = VStr "Default").
  { intros other Hother.
    assert (Hsplit : split ", " (name variantA) = ["State=Default"])
      by (vm_compute; reflexivity).
    rewrite Hsplit in Hother. apply list_elem_of_singleton in Hother as ->.
    intros _. vm_compute. reflexivity. }
  destruct (variant_properties_of_name (document [buttonSet ""]) "3:0" (buttonSet "")
              [variantA; variantB] variantA "State=Default" "State" "Default"
              Hfind eq_refl eq_refl Hin eq_refl Hpair Hno (or_introl eq_refl) Hall)
    as (r & props & Hr & _ & _ & Hv & Hp).
  exists r, props. exact (conj Hr (conj Hv Hp)).
Defined.

Lemma confidence_is_bounded_witness :
  match handleInferStates (R := reference) (document [buttonSet ""]) "3:0" with
  | Ok r => confidence r ∈ [0; 0.3; 0.4; 0.6; 0.7; 1]%float
  | Throw _ => False
  end.
Proof.
  destruct (handleInferStates (R := reference) (document [buttonSet ""]) "3:0")
    as [r|e] eqn:E.
  - exact (proj1 (confidence_is_bounded (R := reference) _ _ r E)).
  - vm_compute in E. discriminate E.
Defined.

Lemma annotation_is_inferred_witness :
  match handleAnnotateState (R := reference) (document [buttonSet ""]) "3:0" rules_text with
  | (Ok _, figma') =>
      exists r, handleInferStates (R := reference) figma' "3:0" = Ok r
                /\ "annotations" ∈ sources r
                /\ VStr "Loading" ∈ states r
  | (Throw _, _) => False
  end.
Proof.
  assert (Hparse : JSON_parse (Runtime := reference) rules_text = Some rules)
    by (vm_compute; reflexivity).
  assert (Hne : rules_text <> "") by (vm_compute; discriminate).
  destruct (handleAnnotateState (R := reference) (document [buttonSet ""]) "3:0" rules_text)
    as [[saved|e] figma'] eqn:E.
  - destruct (annotation_is_inferred (R := reference) _ _ _ saved figma' rules
                [VStr "Loading"] _ E Hne Hparse eq_refl eq_refl)
      as (r & Hr & Hs & Hstates & _).
    exists r. split; [exact Hr|]. split; [exact Hs|]. apply Hstates. left.
  - unfold handleAnnotateState in E. rewrite Hparse in E. simpl in E. discriminate E.
Defined.

Lemma missing_node_is_reported_witness :
  handleInferStates (R := reference) (document []) "9:9"
  = Throw {| code := "NODE_NOT_FOUND"; message := "Node not found: 9:9" |}.
Proof.
  assert (Hmissing : forall node,
            getNodeByIdAsync (document []) "9:9" <> Some (IsScene node))
    by (intros node; vm_compute; discriminate).
  destruct (missing_node_is_reported (R := reference) (document []) "9:9" Hmissing)
    as (_ & _ & _ & H & _).
  exact H.
Defined.

Lemma similar_results_are_bounded_witness :
  match handleFindSimilar (R := reference) (document [plainA; plainB]) "1:1" None with
  | Ok r => length (similar r) = min 20 (total r)
  | Throw _ => False
  end.
Proof.
  assert (Hfind : getNodeByIdAsync (document [plainA; plainB]) "1:1"
                  = Some (IsScene plainA)) by reflexivity.
  destruct (handleFindSimilar (R := reference) (document [plainA; plainB]) "1:1" None)
    as [r|e] eqn:E.
  - destruct (similar_results_are_bounded (R := reference) _ _ _ _ r Hfind E)
      as (_ & _ & H & _).
    exact H.
  - unfold handleFindSimilar, findNodeById in E. rewrite Hfind in E. discriminate E.
Defined.

Lemma detail_extends_projection_witness :
  exists detail added,
    handleGetNodeDetail (R := reference) (document [plainA]) "1:1" (Some true)
      (fun _ => None) (fun _ => VUndefined)
      (fun _ => Some (Some [("width", VStr "10px")]))
    = Ok detail
    /\ detail = (simplifyNode (R := reference) plainA true ++ added)%list
    /\ "css" ∈ added.*1.
Proof.
  assert (Hfind : getNodeByIdAsync (document [plainA]) "1:1"
                  = Some (IsScene plainA)) by reflexivity.
  destruct (detail_extends_projection (R := reference) (document [plainA]) "1:1"
              (Some true) (fun _ => None) (fun _ => VUndefined)
              (fun _ => Some (Some [("width", VStr "10px")])) plainA Hfind)
    as (detail & added & Hr & Hd & _ & _ & _ & _ & Hcss).
  exists detail, added. split; [exact Hr|]. split; [exact Hd|].
  apply Hcss. split; [reflexivity|]. eexists. reflexivity.
Defined.

Lemma tokens_filed_by_type_witness :
  exists colors spacing typography other,
    handleGetDesignTokens (R := reference) palette None
    = [("colors", VObj colors); ("spacing", VObj spacing);
       ("typography", VObj typography);
       ("paintStyles", VNum 0); ("effectStyles", VNum 0);
       ("other", VObj other)]
    /\ obj_get colors "brand/primary" = token (collections_of palette) brand
    /\ obj_get spacing "brand/primary" = VUndefined.
Proof.
  assert (Htailwind : default "json" None <> "tailwind") by (simpl; discriminate).
  assert (Hcss : default "json" None <> "css") by (simpl; discriminate).
  destruct (tokens_filed_by_type (R := reference) palette None Htailwind Hcss)
    as (colors & spacing & typography & other & Hr & Hc & Hs & _).
  exists colors, spacing, typography, other.
  split; [exact Hr|]. split.
  - rewrite Hc. vm_compute. reflexivity.
  - rewrite Hs. vm_compute. reflexivity.
Defined.

End MoreExamples.
